(** * pybootd.util: interface resolution

    A shallow embedding of the interface-resolution part of
    [pybootd/util.py]: the IP codec ([iptoint], [inttoip]), the two
    enumerators ([_netifaces_get_iface_config],
    [_iproute_get_iface_config]) and the orchestrator
    ([get_iface_config]), together with the import guard of the optional
    [netifaces] package.

    Python integers are unbounded: they are [Z].  Python strings are the
    byte strings of Python 2 (the textual enumerator mixes the output of
    [subprocess.check_output] with [str] literals): they are [string].
    An exception is a value of [exn]; code that may raise returns a
    [result]. *)

From Stdlib Require Import ZArith List String Ascii Bool Lia.
From Stdlib Require DecimalString.
Import ListNotations.

Open Scope string_scope.
Open Scope Z_scope.

(** ** Exceptions and the error monad *)

Inductive exn : Type :=
| IndexError          (* list index out of range *)
| ValueError          (* unpacking, int(), negative shift count *)
| TypeError           (* string argument with an embedded NUL *)
| SocketError         (* socket.error: illegal IP address string *)
| StructError         (* struct.error *)
| CalledProcessError  (* the command could not be run or exited non-zero *)
| AttributeError      (* attribute access on None *)
| ImportError.        (* raised by the import guard *)

Inductive result (A : Type) : Type :=
| Ok (a : A)
| Raise (e : exn).

Arguments Ok {A} a.
Arguments Raise {A} e.

Definition bind {A B : Type} (m : result A) (k : A -> result B) : result B :=
  match m with
  | Ok a => k a
  | Raise e => Raise e
  end.

Notation "x <- m ;; k" := (bind m (fun x => k))
  (at level 61, m at next level, right associativity).

(** ** Python string operations *)

Module PyStr.

Definition ord (c : ascii) : Z := Z.of_N (N_of_ascii c).

Definition chr (n : Z) : ascii := ascii_of_N (Z.to_N n).

(** [string.whitespace] of a byte string: TAB, LF, VT, FF, CR and space.
    It is also C's [isspace] in the C locale.  Strings are read as byte
    strings throughout; on a text string of Python 3, [strip], [split] and
    [\s] take further characters for whitespace (0x1c to 0x1f, and
    whitespace beyond ASCII), so the two readings agree on plain text
    ([plain_char] below). *)
Definition isspace (c : ascii) : bool :=
  ((9 <=? ord c) && (ord c <=? 13)) || (ord c =? 32).

Definition isdigit (c : ascii) : bool :=
  (48 <=? ord c) && (ord c <=? 57).

Definition is_empty (s : string) : bool :=
  match s with
  | EmptyString => true
  | String _ _ => false
  end.

(** [s.lstrip()] and [s.rstrip(chars)], the set of characters as a test. *)
Fixpoint lstrip_by (p : ascii -> bool) (s : string) : string :=
  match s with
  | EmptyString => EmptyString
  | String c s' => if p c then lstrip_by p s' else s
  end.

Fixpoint rstrip_by (p : ascii -> bool) (s : string) : string :=
  match s with
  | EmptyString => EmptyString
  | String c s' =>
      let r := rstrip_by p s' in
      if p c && is_empty r then EmptyString else String c r
  end.

(** [s.strip()] *)
Definition strip (s : string) : string :=
  lstrip_by isspace (rstrip_by isspace s).

(** [s.split(sep)] for a separator of one character: never empty. *)
Fixpoint split_on (sep : ascii) (s : string) : list string :=
  match s with
  | EmptyString => [EmptyString]
  | String c s' =>
      if Ascii.eqb c sep then EmptyString :: split_on sep s'
      else match split_on sep s' with
           | h :: t => String c h :: t
           | [] => [String c EmptyString]
           end
  end.

(** [s.split(sep, 1)]: one element when [sep] does not occur, two otherwise. *)
Fixpoint split_once (sep : ascii) (s : string) : list string :=
  match s with
  | EmptyString => [EmptyString]
  | String c s' =>
      if Ascii.eqb c sep then [EmptyString; s']
      else match split_once sep s' with
           | h :: t => String c h :: t
           | [] => [String c EmptyString]
           end
  end.

(** [s.split()]: the maximal runs of characters that are not whitespace. *)
Fixpoint split (s : string) : list string :=
  match s with
  | EmptyString => []
  | String c s' =>
      if isspace c then split s'
      else match s' with
           | EmptyString => [String c EmptyString]
           | String c' _ =>
               if isspace c' then String c EmptyString :: split s'
               else match split s' with
                    | h :: t => String c h :: t
                    | [] => [String c EmptyString]
                    end
           end
  end.

(** [s.endswith(c)] for one character. *)
Fixpoint endswith (c : ascii) (s : string) : bool :=
  match s with
  | EmptyString => false
  | String a EmptyString => Ascii.eqb a c
  | String _ s' => endswith c s'
  end.

(** [s[:-1]] *)
Fixpoint drop_last (s : string) : string :=
  match s with
  | EmptyString => EmptyString
  | String _ EmptyString => EmptyString
  | String a s' => String a (drop_last s')
  end.

(** ['.'.join(l)] and friends *)
Fixpoint join (sep : string) (l : list string) : string :=
  match l with
  | [] => EmptyString
  | [x] => x
  | x :: l' => x ++ sep ++ join sep l'
  end.

Fixpoint has_nul (s : string) : bool :=
  match s with
  | EmptyString => false
  | String c s' => (ord c =? 0) || has_nul s'
  end.

(** [int(s)] on a byte string: surrounding whitespace, an optional sign and
    at least one decimal digit, or [ValueError].  Later versions of the
    interpreter differ on two kinds of strings: an underscore between
    digits is accepted since Python 3.6, and more than 4300 digits are
    refused since Python 3.11; on every other plain text they read the
    same value or raise the same [ValueError]. *)
Fixpoint digits_value (acc : Z) (s : string) : option Z :=
  match s with
  | EmptyString => Some acc
  | String c s' =>
      if isdigit c then digits_value (acc * 10 + (ord c - 48)) s' else None
  end.

Definition unsigned_int (s : string) : option Z :=
  if is_empty s then None else digits_value 0 s.

Definition int (s : string) : result Z :=
  let r :=
    match strip s with
    | String "-" t => option_map Z.opp (unsigned_int t)
    | String "+" t => unsigned_int t
    | t => unsigned_int t
    end in
  match r with
  | Some v => Ok v
  | None => Raise ValueError
  end.

(** [a << n]: [ValueError] on a negative shift count.  A count that is
    too large for the interpreter ([OverflowError], or [MemoryError] from a
    size that depends on the machine) is not modelled: the result is the
    mathematical one, which the interpreter computes for every count of up
    to six digits at least. *)
Definition lshift (a n : Z) : result Z :=
  if n <? 0 then Raise ValueError else Ok (Z.shiftl a n).

End PyStr.

(** ** The C library and [struct] *)

Module Libc.

Import PyStr.

(** Value of a character as a digit in bases up to 16. *)
Definition digit_val (c : ascii) : option Z :=
  let n := ord c in
  if (48 <=? n) && (n <=? 57) then Some (n - 48)
  else if (97 <=? n) && (n <=? 102) then Some (n - 87)
  else if (65 <=? n) && (n <=? 70) then Some (n - 55)
  else None.

Definition is_xdigit (c : ascii) : bool :=
  match digit_val c with Some _ => true | None => false end.

Fixpoint strtoul_digits (base acc : Z) (s : string) : Z * string :=
  match s with
  | EmptyString => (acc, s)
  | String c s' =>
      match digit_val c with
      | Some d => if d <? base then strtoul_digits base (acc * base + d) s'
                  else (acc, s)
      | None => (acc, s)
      end
  end.

(** [strtoul(cp, &endp, 0)] on a string that starts with a digit, as
    [inet_aton] calls it: [0x] or [0X] followed by a hexadecimal digit
    selects base 16, another leading [0] base 8, anything else base 10.
    The value is not truncated here; the caller rejects what exceeds 32
    bits. *)
Definition strtoul (s : string) : Z * string :=
  match s with
  | String "0" t =>
      match t with
      | String x t' =>
          if Ascii.eqb x "x" || Ascii.eqb x "X" then
            match t' with
            | String h _ =>
                if is_xdigit h then strtoul_digits 16 0 t'
                else strtoul_digits 8 0 s
            | EmptyString => strtoul_digits 8 0 s
            end
          else strtoul_digits 8 0 s
      | EmptyString => strtoul_digits 8 0 s
      end
  | _ => strtoul_digits 10 0 s
  end.

(** Big-endian bytes of a 32-bit value ([htonl] seen as bytes). *)
Definition be_bytes (v : Z) : list Z :=
  [Z.land (Z.shiftr v 24) 255; Z.land (Z.shiftr v 16) 255;
   Z.land (Z.shiftr v 8) 255; Z.land v 255].

Fixpoint bytes_or (a b : list Z) : list Z :=
  match a, b with
  | x :: a', y :: b' => Z.lor x y :: bytes_or a' b'
  | [], _ => b
  | _, [] => a
  end.

(** The loop of [inet_aton]: [dots] is the number of further dots allowed
    (the test [pp > res.bytes + 2]), [parts] the bytes stored so far.  It
    yields the stored bytes, the last number and what follows it. *)
Fixpoint aton_loop (dots : nat) (parts : list Z) (cp : string)
  : option (list Z * Z * string) :=
  match cp with
  | EmptyString => None
  | String c _ =>
      if negb (isdigit c) then None
      else
        let '(val, endp) := strtoul cp in
        if 4294967295 <? val then None
        else
          match endp with
          | String "." cp' =>
              match dots with
              | O => None
              | S dots' =>
                  if 255 <? val then None
                  else aton_loop dots' (parts ++ [val]) cp'
              end
          | _ => Some (parts, val, endp)
          end
  end.

(** Limit of the last number, by the number of parts before it. *)
Definition aton_max (nparts : nat) : Z :=
  match nparts with
  | 0%nat => 4294967295
  | 1%nat => 16777215
  | 2%nat => 65535
  | _ => 255
  end.

(** [inet_aton(cp, &addr)]: the four bytes of [addr] in network order, or
    [None] for the return value 0.  After the last number either the string
    ends or an ASCII whitespace character follows. *)
Definition inet_aton (cp : string) : option (list Z) :=
  match aton_loop 3 [] cp with
  | None => None
  | Some (parts, val, rest) =>
      let trailing_ok :=
        match rest with
        | EmptyString => true
        | String c _ => (ord c <? 128) && isspace c
        end in
      if negb trailing_ok then None
      else if aton_max (List.length parts) <? val then None
      else Some (bytes_or (parts ++ repeat 0 (4 - List.length parts))
                          (be_bytes val))
  end.

(** [inet_ntoa]: ["%d.%d.%d.%d"] of the four bytes. *)
Definition digit (d : Z) : ascii := chr (48 + d).

Definition dec_octet (b : Z) : string :=
  if b <? 10 then String (digit b) EmptyString
  else if b <? 100 then
    String (digit (b / 10)) (String (digit (b mod 10)) EmptyString)
  else
    String (digit (b / 100))
      (String (digit ((b / 10) mod 10)) (String (digit (b mod 10)) EmptyString)).

Definition inet_ntoa (bytes : list Z) : string :=
  join "." (map dec_octet bytes).

End Libc.

(** ** [socket] and [struct] as the module uses them *)

Module Py.

Import PyStr Libc.

(** [socket.inet_aton(s)]: a string with an embedded NUL is refused before
    the C function is called, with [TypeError] (Python 3 raises
    [ValueError] there instead); the C function's 0 is [socket.error]. *)
Definition socket_inet_aton (s : string) : result (list Z) :=
  if has_nul s then Raise TypeError
  else match inet_aton s with
       | Some b => Ok b
       | None => Raise SocketError
       end.

(** [socket.inet_ntoa(packed)]: the packed value must be four bytes long. *)
Definition socket_inet_ntoa (packed : list Z) : result string :=
  if (List.length packed =? 4)%nat then Ok (inet_ntoa packed)
  else Raise SocketError.

(** [struct.unpack('!I', b)[0]] *)
Definition struct_unpack_I (b : list Z) : result Z :=
  match b with
  | [b3; b2; b1; b0] =>
      Ok (Z.lor (Z.shiftl b3 24)
            (Z.lor (Z.shiftl b2 16) (Z.lor (Z.shiftl b1 8) b0)))
  | _ => Raise StructError
  end.

(** [struct.pack('!I', v)] *)
Definition struct_pack_I (v : Z) : result (list Z) :=
  if (0 <=? v) && (v <=? 4294967295) then Ok (be_bytes v)
  else Raise StructError.

End Py.

Import PyStr Libc Py.

(** ** The IP codec *)

Definition iptoint (ipstr : string) : result Z :=
  packed <- socket_inet_aton ipstr ;;
  struct_unpack_I packed.

Definition inttoip (ipval : Z) : result string :=
  packed <- struct_pack_I ipval ;;
  socket_inet_ntoa packed.

Example iptoint_ex1 : iptoint "192.168.1.10" = Ok 3232235786.
Proof. reflexivity. Qed.

(** ** Interface records *)

(** The dictionary [{'ifname': .., 'server': .., 'net': .., 'mask': ..}].
    [ifname] holds whatever [iface] holds when the dictionary is built: a
    string, or [None] in the textual enumerator before any header line. *)
Record iface_config : Type := mk_config {
  ifname : option string;
  server : string;
  net : string;
  mask : string
}.

(** ** The structured enumerator *)

(** One address record of [netifaces.ifaddresses(iface)[family]], read
    through [inetinfo.get('addr')] and [inetinfo.get('netmask')]. *)
Record inetinfo : Type := mk_inetinfo {
  addr : option string;
  netmask : option string
}.

(** The [netifaces] module: [interfaces()], [ifaddresses(iface)] as a
    dictionary from address family to address records, and [AF_INET]. *)
Record Netifaces : Type := mk_netifaces {
  interfaces : list string;
  ifaddresses : string -> list (Z * list inetinfo);
  AF_INET : Z
}.

Fixpoint dict_get {V : Type} (k : Z) (d : list (Z * V)) : option V :=
  match d with
  | [] => None
  | (k', v) :: d' => if k' =? k then Some v else dict_get k d'
  end.

(** The inner [for inetinfo in ...] loop; [None] when it ends without
    returning. *)
Fixpoint netifaces_inet_loop (pool : Z) (iface : string) (l : list inetinfo)
  : result (option iface_config) :=
  match l with
  | [] => Ok None
  | inetinfo :: l' =>
      match addr inetinfo, netmask inetinfo with
      | Some addr_s, Some netmask_s =>
          addr <- iptoint addr_s ;;
          mask <- iptoint netmask_s ;;
          let ip := Z.land addr mask in
          let ip_client := Z.land pool mask in
          let delta := Z.lxor ip ip_client in
          if delta =? 0 then
            server_s <- inttoip addr ;;
            net_s <- inttoip ip ;;
            mask_s <- inttoip mask ;;
            Ok (Some (mk_config (Some iface) server_s net_s mask_s))
          else netifaces_inet_loop pool iface l'
      | _, _ => netifaces_inet_loop pool iface l'
      end
  end.

(** The outer [for iface in netifaces.interfaces()] loop. *)
Fixpoint netifaces_iface_loop (netifaces : Netifaces) (pool : Z)
  (ifaces : list string) : result (option iface_config) :=
  match ifaces with
  | [] => Ok None
  | iface :: ifaces' =>
      let ifinfo := ifaddresses netifaces iface in
      match dict_get (AF_INET netifaces) ifinfo with
      | None => netifaces_iface_loop netifaces pool ifaces'
      | Some l =>
          r <- netifaces_inet_loop pool iface l ;;
          match r with
          | Some config => Ok (Some config)
          | None => netifaces_iface_loop netifaces pool ifaces'
          end
      end
  end.

(** [netifaces] is the module's global of that name: the imported package,
    or [None]. *)
Definition _netifaces_get_iface_config (netifaces : option Netifaces)
  (address : string) : result (option iface_config) :=
  pool <- iptoint address ;;
  match netifaces with
  | None => Raise AttributeError
  | Some m => netifaces_iface_loop m pool (interfaces m)
  end.

(** ** The textual enumerator *)

(** [((1 << masklen) - 1) << (32 - masklen)]: each shift raises
    [ValueError] on a negative count. *)
Definition prefix_mask (masklen : Z) : result Z :=
  one <- lshift 1 masklen ;;
  lshift (one - 1) (32 - masklen).

(** What one line does to the loop: go on with a current interface name, or
    return a dictionary. *)
Inductive line_outcome : Type :=
| Continue (iface : option string)
| Return (config : iface_config).

(** The body of [for l in iplines]. *)
Definition iproute_line (pool : Z) (iface : option string) (l : string)
  : result line_outcome :=
  let items := PyStr.split l in
  match items with
  | [] => Ok (Continue iface)
  | item0 :: _ =>
      if endswith ":" item0 then
        match nth_error items 1 with
        | None => Raise IndexError
        | Some item1 => Ok (Continue (Some (drop_last item1)))
        end
      else if String.eqb item0 "inet" then
        match nth_error items 1 with
        | None => Raise IndexError
        | Some item1 =>
            match split_once "/" item1 with
            | [saddr; smasklen] =>
                addr <- iptoint saddr ;;
                masklen <- PyStr.int smasklen ;;
                mask <- prefix_mask masklen ;;
                let ip := Z.land addr mask in
                let ip_client := Z.land pool mask in
                let delta := Z.lxor ip ip_client in
                if delta =? 0 then
                  server_s <- inttoip addr ;;
                  net_s <- inttoip ip ;;
                  mask_s <- inttoip mask ;;
                  Ok (Return (mk_config iface server_s net_s mask_s))
                else Ok (Continue iface)
            | _ => Raise ValueError
            end
        end
      else Ok (Continue iface)
  end.

Fixpoint iproute_loop (pool : Z) (iface : option string) (iplines : list string)
  : result (option iface_config) :=
  match iplines with
  | [] => Ok None
  | l :: iplines' =>
      o <- iproute_line pool iface l ;;
      match o with
      | Continue iface' => iproute_loop pool iface' iplines'
      | Return config => Ok (Some config)
      end
  end.

(** The stripped lines of the command's output. *)
Definition iplines_of (output : string) : list string :=
  map strip (split_on "010" (rstrip_by (Ascii.eqb "010") output)).

(** [check_output] is the outcome of
    [subprocess.check_output("ip address show".split(" "))]: the captured
    standard output, or the exception it raised. *)
Definition _iproute_get_iface_config (check_output : result string)
  (address : string) : result (option iface_config) :=
  pool <- iptoint address ;;
  output <- check_output ;;
  iproute_loop pool None (iplines_of output).

(** ** The orchestrator *)

Section Orchestrator.

(** The two strategies, and whether the global [netifaces] is a module
    ([true]) or [None]. *)
Variable structured textual : string -> result (option iface_config).
Variable have_netifaces : bool.

(** [address] is [None] for an absent argument value. *)
Definition get_iface_config_with (address : option string)
  : result (option iface_config) :=
  match address with
  | None => Ok None
  | Some a =>
      if is_empty a then Ok None
      else if negb have_netifaces then textual a
      else structured a
  end.

End Orchestrator.

Definition get_iface_config (netifaces : option Netifaces)
  (check_output : result string) (address : option string)
  : result (option iface_config) :=
  get_iface_config_with (_netifaces_get_iface_config netifaces)
    (_iproute_get_iface_config check_output)
    (match netifaces with Some _ => true | None => false end) address.

(** ** The import guard *)

Definition lower_char (c : ascii) : ascii :=
  if (65 <=? ord c) && (ord c <=? 90) then chr (ord c + 32) else c.

Fixpoint lower (s : string) : string :=
  match s with
  | EmptyString => EmptyString
  | String c s' => String (lower_char c) (lower s')
  end.

(** The host a process runs on: [os.uname()[0]], the [netifaces] package
    when it is installed, and the outcome of running [ip address show]. *)
Record host : Type := mk_host {
  uname_sysname : string;
  netifaces_pkg : option Netifaces;
  ip_address_show : result string
}.

(** The [try: import netifaces] block at the top of the module: the value
    of the global [netifaces], or the [ImportError] raised on Darwin. *)
Definition import_netifaces (h : host) : result (option Netifaces) :=
  match netifaces_pkg h with
  | Some m => Ok (Some m)
  | None =>
      if String.eqb (lower (uname_sysname h)) "darwin" then Raise ImportError
      else Ok None
  end.

(** A caller's view: import the module, then call [get_iface_config]. *)
Definition import_and_get_iface_config (h : host) (address : option string)
  : result (option iface_config) :=
  netifaces <- import_netifaces h ;;
  get_iface_config netifaces (ip_address_show h) address.


(** ** Dotted-quad strings *)

(** The numerals ["0"], ["1"], ..., ["255"]. *)
Definition octet_numerals : list string :=
  map (fun n => dec_octet (Z.of_nat n)) (seq 0 256).

Definition is_octet_numeral (t : string) : bool :=
  existsb (String.eqb t) octet_numerals.

(** Four numerals of [0..255] separated by dots. *)
Definition dotted_quad (s : string) : bool :=
  match split_on "." s with
  | [a; b; c; d] =>
      is_octet_numeral a && is_octet_numeral b
      && is_octet_numeral c && is_octet_numeral d
  | _ => false
  end.

(** A string of decimal digits, not empty, whose value is at most 255
    (leading zeros allowed). *)
Definition is_decimal_octet (t : string) : bool :=
  match unsigned_int t with
  | Some v => v <=? 255
  | None => false
  end.

Definition four_decimal_octets (s : string) : bool :=
  match split_on "." s with
  | [a; b; c; d] =>
      is_decimal_octet a && is_decimal_octet b
      && is_decimal_octet c && is_decimal_octet d
  | _ => false
  end.

(** ** The structured enumerator, in the words of its specification *)

(** [sameSubnet(target, candidate, mask)] *)
Definition same_subnet (target candidate mask : Z) : bool :=
  Z.land target mask =? Z.land candidate mask.

(** The (interface, address record) pairs in enumeration order; an
    interface without IPv4 configuration contributes none. *)
Definition candidates (netifaces : Netifaces) : list (string * inetinfo) :=
  flat_map
    (fun iface =>
       match dict_get (AF_INET netifaces) (ifaddresses netifaces iface) with
       | Some l => map (pair iface) l
       | None => []
       end)
    (interfaces netifaces).

(** Both fields present, and the masked address equal to the masked
    target. *)
Definition entry_matches (target : Z) (e : string * inetinfo) : bool :=
  match addr (snd e), netmask (snd e) with
  | Some a, Some m =>
      match iptoint a, iptoint m with
      | Ok a', Ok m' => same_subnet target a' m'
      | _, _ => false
      end
  | _, _ => false
  end.

(** The record of an entry: the interface's name, the address, the
    computed network and the mask. *)
Definition record_of_entry (e : string * inetinfo) : option iface_config :=
  match addr (snd e), netmask (snd e) with
  | Some a, Some m =>
      match iptoint a, iptoint m with
      | Ok a', Ok m' =>
          Some (mk_config (Some (fst e)) (inet_ntoa (be_bytes a'))
                  (inet_ntoa (be_bytes (Z.land a' m')))
                  (inet_ntoa (be_bytes m')))
      | _, _ => None
      end
  | _, _ => None
  end.

Definition first_match_in (target : Z) (l : list (string * inetinfo))
  : option iface_config :=
  match find (entry_matches target) l with
  | Some e => record_of_entry e
  | None => None
  end.

Definition first_match (netifaces : Netifaces) (target : Z)
  : option iface_config :=
  first_match_in target (candidates netifaces).

(** An entry whose two fields, when both present, are addresses that the
    codec reads. *)
Definition entry_well_formed (e : inetinfo) : Prop :=
  forall a m,
    addr e = Some a -> netmask e = Some m ->
    (exists a', iptoint a = Ok a') /\ (exists m', iptoint m = Ok m').

(** ** Lines of the command's output *)

(** An interface-header line: its first token ends with a colon. *)
Definition header_line (l : string) : bool :=
  match PyStr.split l with
  | item0 :: _ => endswith ":" item0
  | [] => false
  end.

(** The exceptions that stand for [MalformedInterfaceOutput]: those raised
    while the token of an [inet] line is parsed. *)
Definition malformed_output_error (e : exn) : Prop :=
  e = ValueError \/ e = SocketError \/ e = TypeError.

(** The current interface name after the lines [pre], when none of them
    returned or raised. *)
Fixpoint iface_after (pool : Z) (iface : option string) (pre : list string)
  : option string :=
  match pre with
  | [] => iface
  | l :: pre' =>
      match iproute_line pool iface l with
      | Ok (Continue iface') => iface_after pool iface' pre'
      | _ => iface
      end
  end.

(** ** Value coercion: [to_int] and [to_bool] *)

(** The argument values the two functions are written for: [None], a
    boolean, an integer of type [int], a string. *)
Inductive pyvalue : Type :=
| PNone
| PBool (b : bool)
| PInt (n : Z)
| PStr (s : string).

(** The exceptions of [to_int]: those of [exn], and the [KeyError] of a
    dictionary lookup. *)
Inductive lookup_exn : Type :=
| Exn (e : exn)
| KeyError.

Inductive outcome (A : Type) : Type :=
| Returns (a : A)
| Raises (e : lookup_exn).

Arguments Returns {A} a.
Arguments Raises {A} e.

Definition lift {A : Type} (r : result A) : outcome A :=
  match r with
  | Ok a => Returns a
  | Raise e => Raises (Exn e)
  end.

Definition TRUE_BOOLEANS : list string :=
  ["on"; "high"; "true"; "enable"; "enabled"; "yes"; "1"].

Definition FALSE_BOOLEANS : list string :=
  ["off"; "low"; "false"; "disable"; "disabled"; "no"; "0"].

(** [x in l] for a list of strings. *)
Definition str_in (x : string) (l : list string) : bool :=
  existsb (String.eqb x) l.

Definition to_bool (value : pyvalue) (permissive allow_int : bool)
  : result bool :=
  match value with
  | PNone => Ok false
  | PBool b => Ok b
  | PInt n =>
      if allow_int then Ok (negb (n =? 0))
      else if permissive then Ok false
      else Raise ValueError
  | PStr s =>
      if str_in (lower s) TRUE_BOOLEANS then Ok true
      else if permissive || str_in (lower s) FALSE_BOOLEANS then Ok false
      else Raise ValueError
  end.

(** [s.upper()] on a byte string: the letters [a] to [z] change, nothing
    else does (on a text string of Python 3, letters beyond ASCII change
    too). *)
Definition upper_char (c : ascii) : ascii :=
  if (97 <=? ord c) && (ord c <=? 122) then chr (ord c - 32) else c.

Fixpoint upper (s : string) : string :=
  match s with
  | EmptyString => EmptyString
  | String c s' => String (upper_char c) (upper s')
  end.

(** The longest prefix of characters that satisfy [p], and the rest. *)
Fixpoint span (p : ascii -> bool) (s : string) : string * string :=
  match s with
  | EmptyString => (EmptyString, EmptyString)
  | String c s' =>
      if p c then let '(a, b) := span p s' in (String c a, b)
      else (EmptyString, s)
  end.

(** [re.match('^\s*(\d+)\s*(?:([KMkm]i?)?B?)?\s*$', value)]: groups 1 and
    2 of the match, or [None].  Each piece of the pattern starts with
    characters that no neighbouring piece accepts, so the greedy reading
    is the only one. *)
Definition is_unit_letter (c : ascii) : bool :=
  Ascii.eqb c "K" || Ascii.eqb c "M" || Ascii.eqb c "k" || Ascii.eqb c "m".

Definition re_unit (s : string) : option string * string :=
  match s with
  | String u s1 =>
      if is_unit_letter u then
        match s1 with
        | String c s2 =>
            if Ascii.eqb c "i"
            then (Some (String u (String "i" EmptyString)), s2)
            else (Some (String u EmptyString), s1)
        | EmptyString => (Some (String u EmptyString), s1)
        end
      else (None, s)
  | EmptyString => (None, s)
  end.

Definition re_match_size (value : string) : option (string * option string) :=
  let s1 := lstrip_by isspace value in
  let '(digits, s2) := span isdigit s1 in
  if is_empty digits then None
  else
    let s3 := lstrip_by isspace s2 in
    let '(unit, s4) := re_unit s3 in
    let s5 :=
      match s4 with
      | String c t => if Ascii.eqb c "B" then t else s4
      | EmptyString => s4
      end in
    let s6 := lstrip_by isspace s5 in
    if is_empty s6 then Some (digits, unit) else None.

(** The dictionary [mult] and [mult[key]]. *)
Definition mult : list (string * Z) :=
  [("K", 1000); ("KI", 1024); ("M", 1000 * 1000); ("MI", 1048576)].

Fixpoint getitem (d : list (string * Z)) (key : string) : outcome Z :=
  match d with
  | [] => Raises KeyError
  | (k, v) :: d' => if String.eqb k key then Returns v else getitem d' key
  end.

(** [int(s, 16)]: surrounding whitespace, an optional sign, an optional
    [0x] or [0X], and at least one hexadecimal digit. *)
Fixpoint hex_value (acc : Z) (s : string) : option Z :=
  match s with
  | EmptyString => Some acc
  | String c s' =>
      match digit_val c with
      | Some d => hex_value (acc * 16 + d) s'
      | None => None
      end
  end.

Definition unsigned_hex (s : string) : option Z :=
  let body :=
    match s with
    | String "0" (String x t) =>
        if Ascii.eqb x "x" || Ascii.eqb x "X" then t else s
    | _ => s
    end in
  if is_empty body then None else hex_value 0 body.

Definition int16 (s : string) : result Z :=
  let r :=
    match strip s with
    | String "-" t => option_map Z.opp (unsigned_hex t)
    | String "+" t => unsigned_hex t
    | t => unsigned_hex t
    end in
  match r with
  | Some v => Ok v
  | None => Raise ValueError
  end.

(** [value.startswith('0x')] *)
Definition startswith_0x (s : string) : bool :=
  match s with
  | String "0" (String "x" _) => true
  | _ => false
  end.

Definition to_int (value : pyvalue) : outcome Z :=
  match value with
  | PNone => Returns 0
  | PBool b => Returns (if b then 1 else 0)
  | PInt n => Returns n
  | PStr s =>
      if is_empty s then Returns 0
      else
        match re_match_size s with
        | Some (group1, group2) =>
            match PyStr.int group1 with
            | Raise e => Raises (Exn e)
            | Ok value =>
                match group2 with
                | Some u =>
                    match getitem mult (upper u) with
                    | Returns m => Returns (value * m)
                    | Raises e => Raises e
                    end
                | None => Returns value
                end
            end
        | None =>
            lift (if startswith_0x s then int16 (strip s)
                  else PyStr.int (strip s))
        end
  end.

(** ** The hexadecimal dump: [ASCIIFILTER] and [hexline] *)

(** One lower-case hexadecimal digit, and ["%02x" % x] for a byte. *)
Definition hex_digit (d : Z) : ascii :=
  if d <? 10 then chr (48 + d) else chr (87 + d).

Definition hex2 (x : Z) : string :=
  String (hex_digit (x / 16)) (String (hex_digit (x mod 16)) EmptyString).

(** [repr(chr(x))]: the quote is the double quote when the character is a
    single quote; the quote character and the backslash are escaped, TAB, LF
    and CR have their letter escapes, other control characters and what is
    not ASCII are written [\xNN]. *)
Definition repr_chr (c : ascii) : string :=
  let quote := if Ascii.eqb c "'" then chr 34 else "'"%char in
  let body :=
    if Ascii.eqb c quote || Ascii.eqb c "\" then String "\" (String c EmptyString)
    else if Ascii.eqb c "009" then "\t"
    else if Ascii.eqb c "010" then "\n"
    else if Ascii.eqb c "013" then "\r"
    else if (ord c <? 32) || (127 <=? ord c) then ("\x" ++ hex2 (ord c))%string
    else String c EmptyString in
  (String quote body ++ String quote EmptyString)%string.

(** The translation table: 256 bytes. *)
Definition ASCIIFILTER : string :=
  (concat EmptyString
     (map (fun _x =>
             if (String.length (repr_chr (chr (Z.of_nat _x))) =? 3)%nat
                || (Z.of_nat _x =? 92)%Z
             then String (chr (Z.of_nat _x)) EmptyString
             else ".")
        (seq 0 128))
   ++ concat EmptyString (repeat "." 128))%string.

(** [src.translate(table)] for a table of 256 bytes. *)
Fixpoint translate (table src : string) : string :=
  match src with
  | EmptyString => EmptyString
  | String c src' =>
      String (match String.get (Z.to_nat (ord c)) table with
              | Some c' => c'
              | None => c
              end)
        (translate table src')
  end.

(** The list of the bytes of a string. *)
Fixpoint bytes_of (s : string) : list Z :=
  match s with
  | EmptyString => []
  | String c s' => ord c :: bytes_of s'
  end.

(** ["%d" % n] *)
Definition format_d (n : nat) : string :=
  DecimalString.NilZero.string_of_uint (Nat.to_uint n).

(** [data.encode()] of a text string, in UTF-8: one to four bytes for a
    code point; a code point is below 0x110000, and a surrogate (0xd800 to
    0xdfff) has no encoding ([UnicodeEncodeError]). *)
Definition utf8_char (cp : Z) : option (list Z) :=
  if cp <? 0 then None
  else if cp <? 128 then Some [cp]
  else if cp <? 2048 then
    Some [Z.lor 192 (Z.shiftr cp 6); Z.lor 128 (Z.land cp 63)]
  else if cp <? 65536 then
    if (55296 <=? cp) && (cp <=? 57343) then None
    else Some [Z.lor 224 (Z.shiftr cp 12);
               Z.lor 128 (Z.land (Z.shiftr cp 6) 63);
               Z.lor 128 (Z.land cp 63)]
  else if cp <? 1114112 then
    Some [Z.lor 240 (Z.shiftr cp 18);
          Z.lor 128 (Z.land (Z.shiftr cp 12) 63);
          Z.lor 128 (Z.land (Z.shiftr cp 6) 63);
          Z.lor 128 (Z.land cp 63)]
  else None.

Fixpoint string_of_bytes (bs : list Z) : string :=
  match bs with
  | [] => EmptyString
  | b :: bs' => String (chr b) (string_of_bytes bs')
  end.

Fixpoint encode (t : list Z) : option string :=
  match t with
  | [] => Some EmptyString
  | cp :: t' =>
      match utf8_char cp, encode t' with
      | Some bs, Some s => Some (string_of_bytes bs ++ s)%string
      | _, _ => None
      end
  end.

(** The arguments of [hexline]: a byte string ([binary_type]), a
    [bytearray], a text string, a list or tuple of byte strings, or
    something else.  A text string is the [str] of Python 3, given by its
    code points; on Python 2 [str] is [binary_type], and a [unicode] object
    is one of the other arguments. *)
Inductive buffer : Type :=
| BStr (s : string)
| BByteArray (s : string)
| BText (t : list Z)
| BList (chunks : list string)
| BOther.

(** [len(data)]: of a text string, the number of its code points. *)
Definition buffer_len (data : buffer) : nat :=
  match data with
  | BStr s | BByteArray s => String.length s
  | BText t => List.length t
  | BList chunks => List.length chunks
  | BOther => 0%nat
  end.

(** The translated bytes are ASCII, so their [decode('ascii')] is the
    same characters.  Whatever is raised while [src] is built is turned
    into [TypeError]. *)
Definition hexline (data : buffer) (sep : string) : result string :=
  src <- match data with
         | BStr s => Ok s
         | BByteArray s => Ok s
         | BText t =>
             match encode t with
             | Some s => Ok s
             | None => Raise TypeError
             end
         | BList chunks => Ok (concat EmptyString chunks)
         | BOther => Raise TypeError
         end ;;
  let hexa := join sep (map hex2 (bytes_of src)) in
  let printable := translate ASCIIFILTER src in
  Ok ("(" ++ format_d (buffer_len data) ++ ") " ++ hexa ++ " : " ++ printable)%string.

(** A code point of ASCII. *)
Definition is_ascii_code (cp : Z) : bool := (0 <=? cp) && (cp <? 128).

(** A byte shown as itself in the ASCII column: 0x20 to 0x7e. *)
Definition ascii_or_dot (c : ascii) : ascii :=
  if (32 <=? ord c) && (ord c <=? 126) then c else "."%char.

Fixpoint string_map (f : ascii -> ascii) (s : string) : string :=
  match s with
  | EmptyString => EmptyString
  | String c s' => String (f c) (string_map f s')
  end.

(** Every character of [s] satisfies [p]. *)
Fixpoint string_forall (p : ascii -> bool) (s : string) : bool :=
  match s with
  | EmptyString => true
  | String c s' => p c && string_forall p s'
  end.

(** The size suffixes and their multipliers, as a user writes them. *)
Definition size_suffixes : list (string * Z) :=
  [("", 1); ("K", 1000); ("k", 1000); ("Ki", 1024); ("ki", 1024);
   ("M", 1000000); ("m", 1000000); ("Mi", 1048576); ("mi", 1048576)].

(** A line the textual enumerator passes over: blank, or with a first
    token that neither ends with a colon nor is [inet]. *)
Definition ignored_line (l : string) : bool :=
  match PyStr.split l with
  | [] => true
  | item0 :: _ => negb (endswith ":" item0) && negb (String.eqb item0 "inet")
  end.

(** ** The forms of address that [inet_aton] documents *)

(** The value of a string of digits below [base], most significant
    first. *)
Fixpoint numeral_value (base acc : Z) (s : string) : option Z :=
  match s with
  | EmptyString => Some acc
  | String c s' =>
      match digit_val c with
      | Some d =>
          if d <? base then numeral_value base (acc * base + d) s' else None
      | None => None
      end
  end.

(** A number in C notation: [0x] or [0X] and at least one hexadecimal
    digit; or [0] and octal digits; or decimal digits that do not start
    with [0]. *)
Definition c_number (t : string) : option Z :=
  match t with
  | EmptyString => None
  | String c t1 =>
      if Ascii.eqb c "0" then
        match t1 with
        | EmptyString => Some 0
        | String x t2 =>
            if Ascii.eqb x "x" || Ascii.eqb x "X" then
              if is_empty t2 then None else numeral_value 16 0 t2
            else numeral_value 8 0 t1
        end
      else if isdigit c then numeral_value 10 0 t
      else None
  end.

Fixpoint all_some {A : Type} (l : list (option A)) : option (list A) :=
  match l with
  | [] => Some []
  | Some a :: l' => option_map (cons a) (all_some l')
  | None :: _ => None
  end.

(** What comes before the first whitespace character. *)
Definition aton_head (s : string) : string :=
  fst (span (fun c => negb (isspace c)) s).

(** The numbers of [a], [a.b], [a.b.c] or [a.b.c.d]: every number but the
    last is at most 255, and the last fills the bytes that are left: with
    [k] numbers before it, it is below [2 ^ (8 * (4 - k))]. *)
Fixpoint aton_in_range (k : Z) (nums : list Z) : bool :=
  match nums with
  | [] => false
  | [last] => last <? 2 ^ (8 * (4 - k))
  | v :: nums' => (v <=? 255) && aton_in_range (k + 1) nums'
  end.

(** One of the forms: one to four numbers in C notation separated by dots,
    in range, and after them the end of the string or a whitespace
    character (and then anything). *)
Definition is_aton_form (s : string) : bool :=
  match all_some (map c_number (split_on "." (aton_head s))) with
  | Some nums => (List.length nums <=? 4)%nat && aton_in_range 0 nums
  | None => false
  end.

(** ** Malformed [address/prefixLength] tokens *)

(** Some character of [s] satisfies [p]. *)
Fixpoint string_exists (p : ascii -> bool) (s : string) : bool :=
  match s with
  | EmptyString => false
  | String c s' => p c || string_exists p s'
  end.

(** A visible ASCII character that cannot occur in an integer literal:
    neither a digit, nor a sign, nor an underscore. *)
Definition not_int_char (c : ascii) : bool :=
  (33 <=? ord c) && (ord c <=? 126)
  && negb (isdigit c || Ascii.eqb c "+" || Ascii.eqb c "-" || Ascii.eqb c "_").

(** A decimal numeral of at most six digits, or such a numeral after a
    minus sign, whose value is outside [[0, 32]]. *)
Definition prefix_out_of_range (p : string) : bool :=
  match p with
  | EmptyString => false
  | String c t =>
      if Ascii.eqb c "-" then
        negb (is_empty t) && (String.length t <=? 6)%nat
        && match numeral_value 10 0 t with
           | Some n => 0 <? n
           | None => false
           end
      else
        (String.length p <=? 6)%nat
        && match numeral_value 10 0 p with
           | Some n => 32 <? n
           | None => false
           end
  end.

(** The text after the slash is malformed: empty, or with a character that
    no integer literal has, or an integer outside [[0, 32]]. *)
Definition malformed_prefix (p : string) : bool :=
  is_empty p || string_exists not_int_char p || prefix_out_of_range p.

(** The text before the slash is malformed: not one of the address forms
    (and without an embedded NUL). *)
Definition malformed_address (a : string) : bool :=
  negb (has_nul a) && negb (is_aton_form a).

(** A malformed token: no slash in it, or a malformed address before the
    first slash, or a malformed prefix length after it. *)
Definition malformed_token (tok : string) : bool :=
  let '(a, rest) := span (fun c => negb (Ascii.eqb c "/")) tok in
  match rest with
  | EmptyString => true
  | String _ p => malformed_address a || malformed_prefix p
  end.

(** A line whose first token is [inet] and whose second token is
    malformed. *)
Definition malformed_inet_line (l : string) : bool :=
  match PyStr.split l with
  | item0 :: tok :: _ => String.eqb item0 "inet" && malformed_token tok
  | _ => false
  end.

(** The characters of plain text: ASCII, without the four information
    separators FS, GS, RS and US.  On these [str.split] and [str.strip]
    take the same six characters for whitespace in every version of the
    interpreter (those of Python 3 also take the four separators and
    whitespace beyond ASCII). *)
Definition plain_char (c : ascii) : bool :=
  (ord c <? 128) && negb ((28 <=? ord c) && (ord c <=? 31)).

(** Text that every version of the interpreter reads alike as a number:
    plain characters, no underscore (a separator of digits since Python
    3.6) and at most 4300 characters (the limit of [int()] on the digits
    of a string since Python 3.11). *)
Definition plain_literal (s : string) : bool :=
  string_forall plain_char s
  && negb (string_exists (Ascii.eqb "_") s)
  && (String.length s <=? 4300)%nat.

(** ASCII text: [upper()] and [lower()] change the letters [a] to [z] and
    [A] to [Z] only. *)
Definition is_ascii_text (s : string) : bool :=
  string_forall (fun c => ord c <? 128) s.

(** * Properties *)

(** ** 32-bit values *)

Definition u32 (v : Z) : Prop := 0 <= v < 2 ^ 32.

Definition octet (b : Z) : Prop := 0 <= b < 256.

Lemma lt_pow2_log2 (n v : Z) :
  0 < n -> 0 <= v -> (v < 2 ^ n <-> v = 0 \/ Z.log2 v < n).
Proof.
  intros Hn Hv. destruct (Z.eq_dec v 0) as [-> | Hnz].
  - split; [now left | intros _; apply Z.pow_pos_nonneg; lia].
  - rewrite (Z.log2_lt_pow2 v n) by lia. intuition lia.
Qed.

Lemma land_lt_pow2 (n a b : Z) :
  0 < n -> 0 <= a < 2 ^ n -> 0 <= b -> 0 <= Z.land a b < 2 ^ n.
Proof.
  intros Hn [Ha Han] Hb.
  assert (H0 : 0 <= Z.land a b) by (apply Z.land_nonneg; now left).
  split; [exact H0|].
  apply lt_pow2_log2; try assumption.
  apply lt_pow2_log2 in Han; try assumption.
  destruct Han as [-> | Hl]; [left; apply Z.land_0_l|].
  right. pose proof (Z.log2_land a b Ha Hb). lia.
Qed.

Lemma lor_lt_pow2 (n a b : Z) :
  0 < n -> 0 <= a < 2 ^ n -> 0 <= b < 2 ^ n -> 0 <= Z.lor a b < 2 ^ n.
Proof.
  intros Hn [Ha Han] [Hb Hbn].
  assert (H0 : 0 <= Z.lor a b) by (apply Z.lor_nonneg; now split).
  split; [exact H0|].
  apply lt_pow2_log2; try assumption.
  apply lt_pow2_log2 in Han; try assumption.
  apply lt_pow2_log2 in Hbn; try assumption.
  destruct Han as [-> | Hla]; [rewrite Z.lor_0_l; assumption|].
  destruct Hbn as [-> | Hlb]; [rewrite Z.lor_0_r; now right|].
  right. rewrite Z.log2_lor by assumption. lia.
Qed.

Lemma u32_land (a b : Z) : u32 a -> 0 <= b -> u32 (Z.land a b).
Proof. intros Ha Hb. apply land_lt_pow2; [lia | exact Ha | exact Hb]. Qed.

Lemma octet_land_255 (v : Z) : octet (Z.land v 255).
Proof.
  unfold octet. rewrite Z.land_comm.
  change 256 with (2 ^ 8).
  destruct (Z_lt_le_dec v 0) as [Hneg | Hpos].
  - change 255 with (Z.ones 8). rewrite Z.land_comm, Z.land_ones by lia.
    apply Z.mod_pos_bound. lia.
  - apply land_lt_pow2; lia.
Qed.

Lemma testbit_high_false (v i : Z) :
  u32 v -> 32 <= i -> Z.testbit v i = false.
Proof.
  intros [H0 H1] Hi. apply (lt_pow2_log2 32) in H1; try lia.
  destruct H1 as [-> | Hl]; [apply Z.testbit_0_l|].
  apply Z.bits_above_log2; lia.
Qed.

(** A byte of [v], moved back to its place, keeps the bits of [v] there. *)
Lemma testbit_byte_at (v s i : Z) :
  0 <= s -> 0 <= i ->
  Z.testbit (Z.shiftl (Z.land (Z.shiftr v s) 255) s) i
  = Z.testbit v i && (s <=? i) && (i <? s + 8).
Proof.
  intros Hs Hi.
  rewrite Z.shiftl_spec by assumption.
  destruct (Z.leb_spec s i) as [Hle | Hlt].
  - rewrite Z.land_spec, Z.shiftr_spec by lia.
    replace (i - s + s) with i by lia.
    change 255 with (Z.ones 8). rewrite Z.testbit_ones_nonneg by lia.
    destruct (Z.ltb_spec (i - s) 8), (Z.ltb_spec i (s + 8)); try lia;
      now rewrite ?andb_true_r, ?andb_false_r.
  - rewrite Z.testbit_neg_r by lia. now rewrite andb_false_r.
Qed.

Lemma unpack_be_bytes (v : Z) : u32 v -> struct_unpack_I (be_bytes v) = Ok v.
Proof.
  intros Hv. unfold be_bytes, struct_unpack_I. f_equal.
  apply Z.bits_inj'. intros i Hi.
  rewrite !Z.lor_spec.
  rewrite !testbit_byte_at by lia.
  pose proof (testbit_byte_at v 0 i) as H0.
  rewrite Z.shiftl_0_r, Z.shiftr_0_r in H0. rewrite H0 by lia.
  destruct (Z.ltb_spec i 32) as [Hlt | Hge].
  - destruct (Z.testbit v i); simpl; [|reflexivity].
    destruct (Z.leb_spec 24 i), (Z.leb_spec 16 i), (Z.leb_spec 8 i),
      (Z.leb_spec 0 i), (Z.ltb_spec i (24 + 8)), (Z.ltb_spec i (16 + 8)),
      (Z.ltb_spec i (8 + 8)), (Z.ltb_spec i (0 + 8)); simpl; try reflexivity; lia.
  - rewrite (testbit_high_false v i Hv) by lia. reflexivity.
Qed.

Lemma pack_u32 (v : Z) : u32 v -> struct_pack_I v = Ok (be_bytes v).
Proof.
  intros [H0 H1]. unfold struct_pack_I.
  destruct (Z.leb_spec 0 v); try lia.
  destruct (Z.leb_spec v 4294967295); try lia; reflexivity.
Qed.

(** The dotted-quad string of a 32-bit value. *)
Definition dotted (v : Z) : string := inet_ntoa (be_bytes v).

Lemma inttoip_u32 (v : Z) : u32 v -> inttoip v = Ok (dotted v).
Proof. intros Hv. unfold inttoip. rewrite pack_u32 by assumption. reflexivity. Qed.

(** ** Decimal octets through [inet_aton] *)

Lemma octet_cases (P : Z -> Prop) :
  (forall n : nat, (n < 256)%nat -> P (Z.of_nat n)) ->
  forall b, octet b -> P b.
Proof.
  intros H b [H0 H1]. rewrite <- (Z2Nat.id b) by assumption.
  apply H. lia.
Qed.

Ltac each_octet n H tac :=
  do 256 (destruct n as [|n]; [tac|]); exfalso; lia.

Lemma aton_loop_octet_dot (b : Z) :
  octet b ->
  forall dots parts rest,
    aton_loop (S dots) parts (dec_octet b ++ String "." rest)
    = aton_loop dots (parts ++ [b]) rest.
Proof.
  intros Hb. pattern b. apply octet_cases; [clear b Hb | exact Hb].
  intros n Hn dots parts rest.
  each_octet n Hn reflexivity.
Qed.

Lemma aton_loop_octet_end (b : Z) :
  octet b ->
  forall dots parts,
    aton_loop dots parts (dec_octet b) = Some (parts, b, EmptyString).
Proof.
  intros Hb. pattern b. apply octet_cases; [clear b Hb | exact Hb].
  intros n Hn dots parts.
  each_octet n Hn ltac:(destruct dots; reflexivity).
Qed.

Lemma has_nul_octet (b : Z) : octet b -> has_nul (dec_octet b) = false.
Proof.
  intros Hb. pattern b. apply octet_cases; [clear b Hb | exact Hb].
  intros n Hn. each_octet n Hn reflexivity.
Qed.

Lemma has_nul_app (a b : string) :
  has_nul (a ++ b) = has_nul a || has_nul b.
Proof.
  induction a as [|c a IH]; simpl; [reflexivity|].
  rewrite IH. now rewrite orb_assoc.
Qed.

Lemma be_bytes_octet (b : Z) : octet b -> be_bytes b = [0; 0; 0; b].
Proof.
  intros Hb. pattern b. apply octet_cases; [clear b Hb | exact Hb].
  intros n Hn. each_octet n Hn reflexivity.
Qed.

Lemma inet_aton_ntoa (b3 b2 b1 b0 : Z) :
  octet b3 -> octet b2 -> octet b1 -> octet b0 ->
  inet_aton (inet_ntoa [b3; b2; b1; b0]) = Some [b3; b2; b1; b0].
Proof.
  intros H3 H2 H1 H0. unfold inet_aton, inet_ntoa.
  cbn [map join String.append].
  change (fun s => "." ++ s)%string with (String ".").
  rewrite !aton_loop_octet_dot, aton_loop_octet_end by assumption.
  cbn [app List.length negb].
  assert (Hmax : (aton_max 3 <? b0) = false)
    by (apply Z.ltb_ge; unfold octet in H0; simpl; lia).
  rewrite Hmax, be_bytes_octet by assumption.
  cbn. now rewrite !Z.lor_0_r.
Qed.

Lemma has_nul_ntoa (b3 b2 b1 b0 : Z) :
  octet b3 -> octet b2 -> octet b1 -> octet b0 ->
  has_nul (inet_ntoa [b3; b2; b1; b0]) = false.
Proof.
  intros H3 H2 H1 H0. unfold inet_ntoa. cbn [map join].
  rewrite !has_nul_app, !has_nul_octet by assumption. reflexivity.
Qed.

(** The helper behind the round trip: reading back the dotted form of a
    32-bit value gives the value. *)
Lemma iptoint_dotted (v : Z) : u32 v -> iptoint (dotted v) = Ok v.
Proof.
  intros Hv. unfold iptoint, socket_inet_aton, dotted.
  pose proof (unpack_be_bytes v Hv) as Hu.
  unfold be_bytes in *.
  rewrite has_nul_ntoa, inet_aton_ntoa by apply octet_land_255.
  exact Hu.
Qed.

(** ** The range of [iptoint] *)

Lemma digit_val_nonneg (c : ascii) (d : Z) : digit_val c = Some d -> 0 <= d.
Proof.
  unfold digit_val.
  repeat match goal with
         | |- context [?a <=? ?b] => destruct (Z.leb_spec a b); simpl
         end; intros E; inversion E; lia.
Qed.

Lemma strtoul_digits_nonneg (s : string) :
  forall base acc, 0 <= base -> 0 <= acc -> 0 <= fst (strtoul_digits base acc s).
Proof.
  induction s as [|c s IH]; intros base acc Hb Ha; simpl; [exact Ha|].
  destruct (digit_val c) as [d|] eqn:Hd; [|exact Ha].
  destruct (d <? base); [|exact Ha].
  apply IH; [exact Hb|]. pose proof (digit_val_nonneg c d Hd). nia.
Qed.

Lemma strtoul_nonneg (s : string) : 0 <= fst (strtoul s).
Proof.
  unfold strtoul.
  repeat match goal with
         | |- context [match ?x with _ => _ end] => destruct x
         end; apply strtoul_digits_nonneg; lia.
Qed.

Local Opaque strtoul.

Lemma aton_loop_inv (dots : nat) :
  forall parts cp parts' val rest,
    Forall octet parts ->
    aton_loop dots parts cp = Some (parts', val, rest) ->
    Forall octet parts'
    /\ (List.length parts' <= List.length parts + dots)%nat
    /\ 0 <= val <= 4294967295.
Proof.
  induction dots as [|dots IH]; intros parts cp parts' val rest Hp;
    destruct cp as [|c cp]; simpl; try discriminate;
    destruct (isdigit c); simpl; try discriminate;
    pose proof (strtoul_nonneg (String c cp)) as Hnn;
    destruct (strtoul (String c cp)) as [v endp]; simpl in Hnn;
    destruct (Z.ltb_spec 4294967295 v); try discriminate.
  - destruct endp as [|d endp]; [|destruct (Ascii.eqb_spec d ".")].
    + intros H1; inversion H1; subst. repeat split; auto; lia.
    + subst d. discriminate.
    + assert (Hgo : match String d endp with
                    | String "." _ => @None (list Z * Z * string)
                    | _ => Some (parts, v, String d endp)
                    end = Some (parts, v, String d endp)).
      { destruct d as [[] [] [] [] [] [] [] []]; try reflexivity. congruence. }
      rewrite Hgo. intros H1; inversion H1; subst. repeat split; auto; lia.
  - destruct endp as [|d endp]; [|destruct (Ascii.eqb_spec d ".")].
    + intros H1; inversion H1; subst. repeat split; auto; lia.
    + subst d. destruct (Z.ltb_spec 255 v); try discriminate.
      intros H1. apply IH in H1.
      * rewrite length_app in H1. simpl in H1. intuition lia.
      * apply Forall_app. split; [exact Hp|]. repeat constructor; lia.
    + assert (Hgo : match String d endp with
                    | String "." cp' =>
                        if 255 <? v then None
                        else aton_loop dots (parts ++ [v]) cp'
                    | _ => Some (parts, v, String d endp)
                    end = Some (parts, v, String d endp)).
      { destruct d as [[] [] [] [] [] [] [] []]; try reflexivity. congruence. }
      rewrite Hgo. intros H1; inversion H1; subst. repeat split; auto; lia.
Qed.

Local Transparent strtoul.

Lemma octet_lor (a b : Z) : octet a -> octet b -> octet (Z.lor a b).
Proof.
  unfold octet. change 256 with (2 ^ 8). intros Ha Hb.
  apply lor_lt_pow2; [lia | exact Ha | exact Hb].
Qed.

Lemma octet_0 : octet 0.
Proof. unfold octet; lia. Qed.

Lemma inet_aton_octets (s : string) (b : list Z) :
  inet_aton s = Some b ->
  exists b3 b2 b1 b0,
    b = [b3; b2; b1; b0] /\ octet b3 /\ octet b2 /\ octet b1 /\ octet b0.
Proof.
  unfold inet_aton.
  destruct (aton_loop 3 [] s) as [[[parts val] rest]|] eqn:Hl; [|discriminate].
  apply aton_loop_inv in Hl; [|constructor].
  destruct Hl as (Hp & Hlen & Hval). simpl in Hlen.
  destruct (negb _); [discriminate|].
  destruct (aton_max _ <? val); [discriminate|].
  intros H; injection H as <-.
  unfold be_bytes.
  pose proof (octet_land_255 (Z.shiftr val 24)) as O3.
  pose proof (octet_land_255 (Z.shiftr val 16)) as O2.
  pose proof (octet_land_255 (Z.shiftr val 8)) as O1.
  pose proof (octet_land_255 val) as O0.
  set (c3 := Z.land (Z.shiftr val 24) 255) in *. clearbody c3.
  set (c2 := Z.land (Z.shiftr val 16) 255) in *. clearbody c2.
  set (c1 := Z.land (Z.shiftr val 8) 255) in *. clearbody c1.
  set (c0 := Z.land val 255) in *. clearbody c0.
  pose proof octet_0.
  destruct parts as [|p0 [|p1 [|p2 [|p3 parts]]]]; simpl in Hlen; try lia;
    repeat match goal with
           | H : Forall _ (_ :: _) |- _ => inversion H; subst; clear H
           end;
    simpl; do 4 eexists; (split; [reflexivity|]);
    repeat match goal with |- _ /\ _ => split end;
    try apply octet_lor; assumption.
Qed.

Lemma unpack_octets_u32 (b3 b2 b1 b0 : Z) :
  octet b3 -> octet b2 -> octet b1 -> octet b0 ->
  u32 (Z.lor (Z.shiftl b3 24)
         (Z.lor (Z.shiftl b2 16) (Z.lor (Z.shiftl b1 8) b0))).
Proof.
  unfold octet, u32. intros H3 H2 H1 H0.
  rewrite !Z.shiftl_mul_pow2 by lia.
  repeat apply lor_lt_pow2; lia.
Qed.

Lemma iptoint_u32 (s : string) (v : Z) : iptoint s = Ok v -> u32 v.
Proof.
  unfold iptoint, socket_inet_aton.
  destruct (has_nul s); [discriminate|].
  destruct (inet_aton s) as [b|] eqn:Hb; [|discriminate].
  apply inet_aton_octets in Hb.
  destruct Hb as (b3 & b2 & b1 & b0 & -> & H3 & H2 & H1 & H0).
  simpl. intros H; inversion H. now apply unpack_octets_u32.
Qed.

(** ** The IP codec: round trip *)

(** C5: for every integer [x] in [[0, 2^32)], [iptoint (inttoip x)] is [x]:
    [inttoip] succeeds, and [iptoint] reads the value back, most significant
    byte first in both directions. *)
Theorem iptoint_inttoip (x : Z) :
  0 <= x < 2 ^ 32 ->
  inttoip x = Ok (inet_ntoa (be_bytes x))
  /\ (s <- inttoip x ;; iptoint s) = Ok x.
Proof.
  intros Hx. rewrite (inttoip_u32 x Hx). split; [reflexivity|].
  simpl. apply iptoint_dotted. exact Hx.
Qed.

Lemma iptoint_inttoip_witness :
  0 <= 3232235786 < 2 ^ 32
  /\ inttoip 3232235786 = Ok "192.168.1.10"
  /\ (s <- inttoip 3232235786 ;; iptoint s) = Ok 3232235786.
Proof.
  split; [lia|]. apply (iptoint_inttoip 3232235786). lia.
Defined.

(** ** The prefix mask *)

Lemma prefix_mask_value (p : Z) :
  0 <= p <= 32 -> prefix_mask p = Ok (Z.shiftl (Z.ones p) (32 - p)).
Proof.
  intros Hp. unfold prefix_mask, lshift.
  destruct (Z.ltb_spec p 0); [lia|]. cbn [bind].
  destruct (Z.ltb_spec (32 - p) 0); [lia|].
  rewrite Z.sub_1_r. reflexivity.
Qed.

Lemma prefix_mask_bits (p i : Z) :
  0 <= p <= 32 -> 0 <= i ->
  Z.testbit (Z.shiftl (Z.ones p) (32 - p)) i = (32 - p <=? i) && (i <? 32).
Proof.
  intros Hp Hi. rewrite Z.shiftl_spec by assumption.
  destruct (Z.leb_spec (32 - p) i).
  - rewrite Z.testbit_ones_nonneg by lia.
    destruct (Z.ltb_spec (i - (32 - p)) p), (Z.ltb_spec i 32); try lia; reflexivity.
  - rewrite Z.testbit_neg_r by lia. reflexivity.
Qed.

Lemma prefix_mask_arith (p : Z) :
  0 <= p <= 32 -> Z.shiftl (Z.ones p) (32 - p) = 2 ^ 32 - 2 ^ (32 - p).
Proof.
  intros Hp. rewrite Z.shiftl_mul_pow2, Z.ones_equiv by lia.
  rewrite <- Z.sub_1_r, Z.mul_sub_distr_r, <- Z.pow_add_r by lia.
  replace (p + (32 - p)) with 32 by lia. lia.
Qed.

Lemma prefix_mask_u32 (p : Z) :
  0 <= p <= 32 -> u32 (Z.shiftl (Z.ones p) (32 - p)).
Proof.
  intros Hp. rewrite prefix_mask_arith by assumption. unfold u32.
  assert (0 < 2 ^ (32 - p)) by (apply Z.pow_pos_nonneg; lia).
  assert (2 ^ (32 - p) <= 2 ^ 32) by (apply Z.pow_le_mono_r; lia).
  lia.
Qed.

(** C7: for a prefix length [p] in [[0, 32]] the mask
    [((1 << p) - 1) << (32 - p)] is computed without an exception, fits 32
    bits, and has exactly its top [p] bits set: bit [i] is set if and only
    if [32 - p <= i < 32].  As a number it is [2^32 - 2^(32-p)]. *)
Theorem prefix_mask_top_bits (p : Z) :
  0 <= p <= 32 ->
  exists m,
    prefix_mask p = Ok m
    /\ 0 <= m < 2 ^ 32
    /\ (forall i, 0 <= i -> Z.testbit m i = (32 - p <=? i) && (i <? 32))
    /\ m = 2 ^ 32 - 2 ^ (32 - p).
Proof.
  intros Hp. exists (Z.shiftl (Z.ones p) (32 - p)).
  split; [now apply prefix_mask_value|].
  split; [now apply prefix_mask_u32|].
  split; [intros i Hi; now apply prefix_mask_bits|].
  now apply prefix_mask_arith.
Qed.

Lemma prefix_mask_top_bits_witness :
  0 <= 24 <= 32
  /\ exists m,
       prefix_mask 24 = Ok m
       /\ 0 <= m < 2 ^ 32
       /\ (forall i, 0 <= i -> Z.testbit m i = (32 - 24 <=? i) && (i <? 32))
       /\ m = 2 ^ 32 - 2 ^ (32 - 24).
Proof.
  split; [lia|]. apply (prefix_mask_top_bits 24). lia.
Defined.

Example prefix_mask_24 :
  prefix_mask 24 = Ok 4294967040 /\ inttoip 4294967040 = Ok "255.255.255.0".
Proof. split; reflexivity. Qed.

Example prefix_mask_0 : prefix_mask 0 = Ok 0.
Proof. reflexivity. Qed.

Example prefix_mask_32 : prefix_mask 32 = Ok 4294967295.
Proof. reflexivity. Qed.

Example prefix_mask_33 : prefix_mask 33 = Raise ValueError.
Proof. reflexivity. Qed.

(** ** Dotted quads and [iptoint] *)

Lemma split_on_not_nil (c : ascii) (s : string) : split_on c s <> [].
Proof.
  destruct s as [|a s]; simpl; [discriminate|].
  destruct (Ascii.eqb a c); [discriminate|].
  destruct (split_on c s); discriminate.
Qed.

Lemma join_cons (sep x : string) (l : list string) :
  l <> [] -> join sep (x :: l) = (x ++ sep ++ join sep l)%string.
Proof. destruct l; [congruence | reflexivity]. Qed.

Lemma join_split_on (c : ascii) (s : string) :
  join (String c EmptyString) (split_on c s) = s.
Proof.
  induction s as [|a s IH]; [reflexivity|]. simpl split_on.
  destruct (Ascii.eqb_spec a c) as [-> | Hne].
  - rewrite join_cons by apply split_on_not_nil. rewrite IH. reflexivity.
  - pose proof (split_on_not_nil c s) as Hnn.
    destruct (split_on c s) as [|h t]; [congruence|].
    destruct t as [|h' t].
    + simpl in *. now rewrite IH.
    + rewrite join_cons by discriminate.
      rewrite join_cons in IH by discriminate.
      transitivity (String a (h ++ String c "" ++ join (String c "") (h' :: t)));
        [reflexivity | now rewrite IH].
Qed.

Lemma is_octet_numeral_inv (t : string) :
  is_octet_numeral t = true -> exists b, octet b /\ t = dec_octet b.
Proof.
  unfold is_octet_numeral, octet_numerals. intros H.
  apply existsb_exists in H. destruct H as (x & Hin & Heq).
  apply in_map_iff in Hin. destruct Hin as (n & <- & Hn).
  apply in_seq in Hn. apply String.eqb_eq in Heq.
  exists (Z.of_nat n). split; [unfold octet; lia | exact Heq].
Qed.

Lemma is_octet_numeral_dec (b : Z) :
  octet b -> is_octet_numeral (dec_octet b) = true.
Proof.
  intros Hb. unfold is_octet_numeral, octet_numerals.
  apply existsb_exists. exists (dec_octet b). split; [|apply String.eqb_refl].
  apply in_map_iff. exists (Z.to_nat b). unfold octet in Hb.
  split; [now rewrite Z2Nat.id by lia | apply in_seq; lia].
Qed.

Lemma split_on_octet_dot (b : Z) :
  octet b ->
  forall rest,
    split_on "." (dec_octet b ++ String "." rest)
    = dec_octet b :: split_on "." rest.
Proof.
  intros Hb. pattern b. apply octet_cases; [clear b Hb | exact Hb].
  intros n Hn rest. each_octet n Hn reflexivity.
Qed.

Lemma split_on_octet_end (b : Z) :
  octet b -> split_on "." (dec_octet b) = [dec_octet b].
Proof.
  intros Hb. pattern b. apply octet_cases; [clear b Hb | exact Hb].
  intros n Hn. each_octet n Hn reflexivity.
Qed.

Lemma dotted_quad_ntoa (b3 b2 b1 b0 : Z) :
  octet b3 -> octet b2 -> octet b1 -> octet b0 ->
  dotted_quad (inet_ntoa [b3; b2; b1; b0]) = true.
Proof.
  intros H3 H2 H1 H0. unfold dotted_quad, inet_ntoa.
  cbn [map join String.append].
  change (fun s => "." ++ s)%string with (String ".").
  rewrite !split_on_octet_dot, split_on_octet_end by assumption.
  now rewrite !is_octet_numeral_dec by assumption.
Qed.

Lemma dotted_quad_dotted (v : Z) : dotted_quad (dotted v) = true.
Proof. apply dotted_quad_ntoa; apply octet_land_255. Qed.

Lemma dotted_quad_inv (s : string) :
  dotted_quad s = true ->
  exists b3 b2 b1 b0,
    octet b3 /\ octet b2 /\ octet b1 /\ octet b0
    /\ s = inet_ntoa [b3; b2; b1; b0].
Proof.
  unfold dotted_quad. intros H.
  pose proof (join_split_on "." s) as Hj.
  destruct (split_on "." s) as [|a [|b [|c [|d [|e l]]]]]; try discriminate.
  apply andb_prop in H. destruct H as [H Hd].
  apply andb_prop in H. destruct H as [H Hc].
  apply andb_prop in H. destruct H as [Ha Hb].
  apply is_octet_numeral_inv in Ha, Hb, Hc, Hd.
  destruct Ha as (b3 & O3 & ->), Hb as (b2 & O2 & ->),
    Hc as (b1 & O1 & ->), Hd as (b0 & O0 & ->).
  exists b3, b2, b1, b0. repeat match goal with |- _ /\ _ => split end;
    try assumption.
  symmetry. exact Hj.
Qed.

Lemma iptoint_failure (s : string) :
  match iptoint s with
  | Ok v => 0 <= v < 2 ^ 32
  | Raise e => e = SocketError \/ (e = TypeError /\ has_nul s = true)
  end.
Proof.
  destruct (iptoint s) as [v|e] eqn:H; [exact (iptoint_u32 s v H)|].
  unfold iptoint, socket_inet_aton in H.
  destruct (has_nul s); [inversion H; now right|].
  destruct (inet_aton s) as [b|] eqn:Hb; [|inversion H; now left].
  apply inet_aton_octets in Hb.
  destruct Hb as (b3 & b2 & b1 & b0 & -> & _). discriminate.
Qed.

(** The claim of C4 as it is written, at one string: success on four
    decimal octets, [socket.error] on anything else. *)
Definition iptoint_as_specified (s : string) : Prop :=
  if four_decimal_octets s then exists v, iptoint s = Ok v
  else iptoint s = Raise SocketError.

(** C4, counterexample: ["127.1"] has two dot-separated components, and
    [iptoint] reads it as 127.0.0.1 instead of failing. *)
Lemma iptoint_accepts_two_parts : ~ iptoint_as_specified "127.1".
Proof.
  unfold iptoint_as_specified.
  change (four_decimal_octets "127.1") with false.
  change (iptoint "127.1") with (@Ok Z 2130706433).
  discriminate.
Qed.

Example iptoint_rejects :
  iptoint "" = Raise SocketError
  /\ iptoint "1.2.3.4.5" = Raise SocketError
  /\ iptoint "256.1.1.1" = Raise SocketError
  /\ iptoint "08.1.1.1" = Raise SocketError
  /\ iptoint "1.2.3.x" = Raise SocketError.
Proof. repeat split. Qed.

Example iptoint_other_forms :
  iptoint "127.1" = Ok 2130706433
  /\ iptoint "0x7f.0.0.1" = Ok 2130706433
  /\ iptoint "010.0.0.1" = Ok 134217729
  /\ iptoint "1.2.3" = Ok 16908291.
Proof. repeat split. Qed.

(** ** The structured enumerator *)

Lemma bind_ok {A B : Type} (m : result A) (k : A -> result B) (b : B) :
  bind m k = Ok b -> exists a, m = Ok a /\ k a = Ok b.
Proof. destruct m as [a|e]; simpl; [eauto | discriminate]. Qed.

Lemma delta_same_subnet (pool a m : Z) :
  (Z.lxor (Z.land a m) (Z.land pool m) =? 0) = same_subnet pool a m.
Proof.
  unfold same_subnet.
  destruct (Z.eqb_spec (Z.land pool m) (Z.land a m)) as [-> | Hne].
  - rewrite Z.lxor_nilpotent. reflexivity.
  - apply Z.eqb_neq. intros H. apply Z.lxor_eq in H. congruence.
Qed.

(** The three [inttoip] calls of a match cannot fail. *)
Lemma build_config (iface : option string) (a m : Z) :
  u32 a -> u32 m ->
  (server_s <- inttoip a ;;
   net_s <- inttoip (Z.land a m) ;;
   mask_s <- inttoip m ;;
   Ok (mk_config iface server_s net_s mask_s))
  = Ok (mk_config iface (dotted a) (dotted (Z.land a m)) (dotted m)).
Proof.
  intros Ha Hm.
  rewrite (inttoip_u32 a Ha), (inttoip_u32 m Hm).
  rewrite (inttoip_u32 (Z.land a m)) by (apply u32_land; [exact Ha | apply Hm]).
  reflexivity.
Qed.

Lemma netifaces_inet_loop_cons (pool : Z) (iface : string) (e : inetinfo)
  (l : list inetinfo) :
  entry_well_formed e ->
  netifaces_inet_loop pool iface (e :: l)
  = if entry_matches pool (iface, e) then Ok (record_of_entry (iface, e))
    else netifaces_inet_loop pool iface l.
Proof.
  intros Hwf. unfold entry_matches, record_of_entry, entry_well_formed in *.
  cbn [netifaces_inet_loop fst snd].
  destruct (addr e) as [a|]; [|reflexivity].
  destruct (netmask e) as [m|]; [|reflexivity].
  destruct (Hwf a m eq_refl eq_refl) as [[a' Ha] [m' Hm]].
  rewrite Ha, Hm. cbn [bind].
  rewrite delta_same_subnet.
  destruct (same_subnet pool a' m'); [|reflexivity].
  pose proof (build_config (Some iface) a' m'
                (iptoint_u32 _ _ Ha) (iptoint_u32 _ _ Hm)) as Hb.
  cbn [bind] in Hb |- *.
  destruct (inttoip a'); [|discriminate].
  destruct (inttoip (Z.land a' m')); [|discriminate].
  destruct (inttoip m'); [|discriminate].
  cbn [bind] in Hb |- *. inversion Hb. reflexivity.
Qed.

Lemma entry_matches_record (pool : Z) (e : string * inetinfo) :
  entry_matches pool e = true -> record_of_entry e <> None.
Proof.
  unfold entry_matches, record_of_entry.
  destruct (addr (snd e)); [|discriminate].
  destruct (netmask (snd e)); [|discriminate].
  destruct (iptoint _); [|discriminate].
  destruct (iptoint _); discriminate.
Qed.

Lemma first_match_in_app (pool : Z) (l1 l2 : list (string * inetinfo)) :
  first_match_in pool (l1 ++ l2)
  = match first_match_in pool l1 with
    | Some r => Some r
    | None => first_match_in pool l2
    end.
Proof.
  unfold first_match_in. induction l1 as [|e l1 IH]; [reflexivity|].
  simpl. destruct (entry_matches pool e) eqn:He; [|exact IH].
  apply entry_matches_record in He.
  destruct (record_of_entry e); [reflexivity | congruence].
Qed.

Lemma netifaces_inet_loop_spec (pool : Z) (iface : string) (l : list inetinfo) :
  Forall entry_well_formed l ->
  netifaces_inet_loop pool iface l
  = Ok (first_match_in pool (map (pair iface) l)).
Proof.
  induction 1 as [|e l Hwf _ IH]; [reflexivity|].
  rewrite netifaces_inet_loop_cons by exact Hwf.
  unfold first_match_in in *. cbn [map find].
  destruct (entry_matches pool (iface, e)); [reflexivity | exact IH].
Qed.

Lemma netifaces_iface_loop_spec (nf : Netifaces) (pool : Z) (ifaces : list string) :
  let cands :=
    flat_map
      (fun iface =>
         match dict_get (AF_INET nf) (ifaddresses nf iface) with
         | Some l => map (pair iface) l
         | None => []
         end) ifaces in
  Forall (fun e => entry_well_formed (snd e)) cands ->
  netifaces_iface_loop nf pool ifaces = Ok (first_match_in pool cands).
Proof.
  induction ifaces as [|iface ifaces IH]; intros cands Hwf; [reflexivity|].
  subst cands. cbn [flat_map netifaces_iface_loop] in *.
  apply Forall_app in Hwf. destruct Hwf as [Hwf1 Hwf2].
  rewrite first_match_in_app.
  destruct (dict_get (AF_INET nf) (ifaddresses nf iface)) as [l|].
  - rewrite netifaces_inet_loop_spec.
    + cbn [bind]. destruct (first_match_in pool (map (pair iface) l));
        [reflexivity | now apply IH].
    + clear -Hwf1. induction l as [|e l IHl]; constructor.
      * inversion Hwf1; assumption.
      * apply IHl. inversion Hwf1; assumption.
  - simpl. now apply IH.
Qed.

(** C1: for a target address that the codec reads and an enumeration whose
    address records are well formed, the structured enumerator returns,
    without raising, the record built from the first entry in enumeration
    order that has both fields and whose masked address equals the masked
    target ([None] when there is no such entry).  Entries with a missing
    field never match, and interfaces without IPv4 configuration contribute
    no entry. *)
Theorem netifaces_first_match (nf : Netifaces) (address : string) (target : Z) :
  iptoint address = Ok target ->
  Forall (fun e => entry_well_formed (snd e)) (candidates nf) ->
  _netifaces_get_iface_config (Some nf) address = Ok (first_match nf target).
Proof.
  intros Ht Hwf. unfold _netifaces_get_iface_config. rewrite Ht. cbn [bind].
  now apply netifaces_iface_loop_spec.
Qed.

(** A host with four interfaces: [tun0] has no IPv4 configuration, the
    record of [wlan0] lacks its netmask, [eth0] and [lo] are complete. *)
Definition example_netifaces : Netifaces :=
  mk_netifaces
    ["tun0"; "wlan0"; "eth0"; "lo"]
    (fun iface =>
       if String.eqb iface "tun0" then
         [(17, [mk_inetinfo (Some "00:00:00:00:00:00") None])]
       else if String.eqb iface "wlan0" then
         [(2, [mk_inetinfo (Some "192.168.1.77") None])]
       else if String.eqb iface "eth0" then
         [(17, [mk_inetinfo (Some "52:54:00:12:34:56") None]);
          (2, [mk_inetinfo (Some "192.168.1.10") (Some "255.255.255.0")])]
       else if String.eqb iface "lo" then
         [(2, [mk_inetinfo (Some "127.0.0.1") (Some "255.0.0.0")])]
       else [])
    2.

Lemma netifaces_first_match_witness :
  iptoint "192.168.1.200" = Ok 3232235976
  /\ Forall (fun e => entry_well_formed (snd e)) (candidates example_netifaces)
  /\ _netifaces_get_iface_config (Some example_netifaces) "192.168.1.200"
     = Ok (Some (mk_config (Some "eth0") "192.168.1.10" "192.168.1.0"
                   "255.255.255.0")).
Proof.
  assert (Hwf : Forall (fun e => entry_well_formed (snd e))
                  (candidates example_netifaces)).
  { unfold candidates. cbn.
    repeat (apply Forall_cons;
            [intros a m Ha Hm; cbn in Ha, Hm; try discriminate;
             injection Ha as <-; injection Hm as <-;
             split; eexists; reflexivity|]).
    apply Forall_nil. }
  split; [reflexivity|]. split; [exact Hwf|].
  exact (netifaces_first_match example_netifaces "192.168.1.200" 3232235976
           eq_refl Hwf).
Defined.

Example netifaces_not_found :
  _netifaces_get_iface_config (Some example_netifaces) "10.0.0.5" = Ok None.
Proof. reflexivity. Qed.

(** ** What a returned record looks like *)

(** The record of a match against [pool]: an address and a mask of 32 bits
    with the same network as [pool], rendered as dotted quads. *)
Definition config_shape (pool : Z) (r : iface_config) : Prop :=
  exists s m,
    u32 s /\ u32 m /\ Z.land s m = Z.land pool m
    /\ server r = dotted s /\ net r = dotted (Z.land s m) /\ mask r = dotted m.

Lemma match_config_shape (pool a m : Z) (iface : option string)
  (r : iface_config) :
  u32 a -> u32 m ->
  (Z.lxor (Z.land a m) (Z.land pool m) =? 0) = true ->
  (server_s <- inttoip a ;;
   net_s <- inttoip (Z.land a m) ;;
   mask_s <- inttoip m ;;
   Ok (mk_config iface server_s net_s mask_s)) = Ok r ->
  ifname r = iface /\ config_shape pool r.
Proof.
  intros Ha Hm Hd H. rewrite build_config in H by assumption.
  injection H as <-. split; [reflexivity|].
  exists a, m. apply Z.eqb_eq, Z.lxor_eq in Hd.
  repeat match goal with |- _ /\ _ => split end; auto.
Qed.

Lemma netifaces_inet_loop_shape (pool : Z) (iface : string) (l : list inetinfo)
  (r : iface_config) :
  netifaces_inet_loop pool iface l = Ok (Some r) ->
  ifname r = Some iface /\ config_shape pool r.
Proof.
  induction l as [|e l IH]; cbn [netifaces_inet_loop]; [discriminate|].
  destruct (addr e) as [a|]; [|exact IH].
  destruct (netmask e) as [m|]; [|exact IH].
  intros H. apply bind_ok in H. destruct H as (a' & Ha & H).
  apply bind_ok in H. destruct H as (m' & Hm & H). cbv zeta in H.
  destruct (Z.lxor (Z.land a' m') (Z.land pool m') =? 0) eqn:Hd; [|now apply IH].
  apply iptoint_u32 in Ha, Hm.
  apply bind_ok in H. destruct H as (ss & Hs & H).
  apply bind_ok in H. destruct H as (ns & Hn & H).
  apply bind_ok in H. destruct H as (ms & Hms & H).
  injection H as <-.
  apply (match_config_shape pool a' m' (Some iface)); try assumption.
  rewrite Hs. cbn [bind]. rewrite Hn. cbn [bind]. rewrite Hms. reflexivity.
Qed.

Lemma netifaces_iface_loop_shape (nf : Netifaces) (pool : Z)
  (ifaces : list string) (r : iface_config) :
  netifaces_iface_loop nf pool ifaces = Ok (Some r) ->
  ifname r <> None /\ config_shape pool r.
Proof.
  induction ifaces as [|iface ifaces IH]; cbn [netifaces_iface_loop];
    [discriminate|].
  cbv zeta. destruct (dict_get _ _) as [l|]; [|exact IH].
  intros H. apply bind_ok in H. destruct H as ([c|] & Hl & H); [|now apply IH].
  injection H as <-. apply netifaces_inet_loop_shape in Hl.
  destruct Hl as [Hn Hs]. split; [congruence | exact Hs].
Qed.

Lemma netifaces_shape (nf : option Netifaces) (address : string)
  (r : iface_config) :
  _netifaces_get_iface_config nf address = Ok (Some r) ->
  exists pool,
    iptoint address = Ok pool /\ ifname r <> None /\ config_shape pool r.
Proof.
  unfold _netifaces_get_iface_config. intros H.
  apply bind_ok in H. destruct H as (pool & Hp & H).
  destruct nf as [m|]; [|discriminate].
  exists pool. split; [exact Hp|].
  exact (netifaces_iface_loop_shape m pool (interfaces m) r H).
Qed.

(** ** The textual enumerator, line by line *)

Lemma int_failure (s : string) (e : exn) :
  PyStr.int s = Raise e -> e = ValueError.
Proof.
  unfold PyStr.int.
  match goal with |- context [match ?x with Some _ => _ | None => _ end] =>
    destruct x end; [discriminate|].
  intros H; now injection H as <-.
Qed.

Lemma prefix_mask_inv (p m : Z) :
  prefix_mask p = Ok m -> 0 <= p <= 32 /\ m = Z.shiftl (Z.ones p) (32 - p).
Proof.
  unfold prefix_mask, lshift.
  destruct (Z.ltb_spec p 0); [discriminate|]. cbn [bind].
  destruct (Z.ltb_spec (32 - p) 0); [discriminate|].
  intros E; injection E as <-. split; [lia|]. now rewrite Z.sub_1_r.
Qed.

Lemma prefix_mask_out_of_range (p : Z) :
  (0 <=? p) && (p <=? 32) = false -> prefix_mask p = Raise ValueError.
Proof.
  unfold prefix_mask, lshift. intros E.
  destruct (Z.ltb_spec p 0); [reflexivity|]. cbn [bind].
  destruct (Z.ltb_spec (32 - p) 0); [reflexivity|].
  destruct (Z.leb_spec 0 p), (Z.leb_spec p 32); try discriminate; lia.
Qed.

(** A header line reads its second token, whatever else the line holds. *)
Lemma iproute_line_header (pool : Z) (iface : option string) (l : string) :
  header_line l = true ->
  iproute_line pool iface l
  = match nth_error (PyStr.split l) 1 with
    | None => Raise IndexError
    | Some item1 => Ok (Continue (Some (drop_last item1)))
    end.
Proof.
  unfold header_line, iproute_line. cbv zeta.
  destruct (PyStr.split l) as [|item0 items]; [discriminate|].
  intros ->. reflexivity.
Qed.

Lemma iproute_line_continue (pool : Z) (iface iface' : option string)
  (l : string) :
  iproute_line pool iface l = Ok (Continue iface') ->
  (header_line l = true /\ iface' <> None)
  \/ (header_line l = false /\ iface' = iface).
Proof.
  destruct (header_line l) eqn:Hh.
  - rewrite iproute_line_header by exact Hh.
    destruct (nth_error _ 1); [|discriminate].
    intros H; injection H as <-. left. split; [reflexivity | discriminate].
  - intros H. right. split; [reflexivity|].
    unfold header_line, iproute_line in *. cbv zeta in H.
    destruct (PyStr.split l) as [|item0 items]; [now injection H as <-|].
    rewrite Hh in H.
    destruct (String.eqb item0 "inet"); [|now injection H as <-].
    destruct (nth_error _ 1) as [item1|]; [|discriminate].
    destruct (split_once "/" item1) as [|saddr [|smasklen [|? ?]]];
      try discriminate.
    apply bind_ok in H. destruct H as (a & _ & H).
    apply bind_ok in H. destruct H as (p & _ & H).
    apply bind_ok in H. destruct H as (m & _ & H).
    destruct (_ =? 0); [|now injection H as <-].
    apply bind_ok in H. destruct H as (? & _ & H).
    apply bind_ok in H. destruct H as (? & _ & H).
    apply bind_ok in H. destruct H as (? & _ & H). discriminate.
Qed.

Lemma iproute_line_return (pool : Z) (iface : option string) (l : string)
  (r : iface_config) :
  iproute_line pool iface l = Ok (Return r) ->
  header_line l = false /\ ifname r = iface /\ config_shape pool r.
Proof.
  destruct (header_line l) eqn:Hh.
  - rewrite iproute_line_header by exact Hh.
    destruct (nth_error _ 1); discriminate.
  - intros H. split; [reflexivity|].
    unfold header_line, iproute_line in *. cbv zeta in H.
    destruct (PyStr.split l) as [|item0 items]; [discriminate|].
    rewrite Hh in H.
    destruct (String.eqb item0 "inet"); [|discriminate].
    destruct (nth_error _ 1) as [item1|]; [|discriminate].
    destruct (split_once "/" item1) as [|saddr [|smasklen [|? ?]]];
      try discriminate.
    apply bind_ok in H. destruct H as (a & Ha & H).
    apply bind_ok in H. destruct H as (p & _ & H).
    apply bind_ok in H. destruct H as (m & Hm & H).
    apply iptoint_u32 in Ha. apply prefix_mask_inv in Hm.
    destruct Hm as [Hp ->].
    destruct (_ =? 0) eqn:Hd; [|discriminate].
    apply bind_ok in H. destruct H as (ss & Hs & H).
    apply bind_ok in H. destruct H as (ns & Hn & H).
    apply bind_ok in H. destruct H as (ms & Hms & H).
    injection H as <-.
    apply (match_config_shape pool a (Z.shiftl (Z.ones p) (32 - p)) iface);
      try assumption; [now apply prefix_mask_u32|].
    rewrite Hs. cbn [bind]. rewrite Hn. cbn [bind]. rewrite Hms. reflexivity.
Qed.

(** ** The textual enumerator, the whole loop *)

Lemma iproute_loop_shape (pool : Z) (iplines : list string) :
  forall iface r,
    iproute_loop pool iface iplines = Ok (Some r) -> config_shape pool r.
Proof.
  induction iplines as [|l iplines IH]; intros iface r; cbn [iproute_loop];
    [discriminate|].
  intros H. apply bind_ok in H. destruct H as ([iface'|c] & Hl & H).
  - now apply (IH iface').
  - injection H as <-. now apply iproute_line_return in Hl.
Qed.

(** Lines after a prefix that neither returned nor raised are read with the
    interface name the prefix left; a prefix that returned or raised decides
    the call. *)
Lemma iproute_loop_app (pool : Z) (pre rest : list string) :
  forall iface,
    iproute_loop pool iface (pre ++ rest)
    = match iproute_loop pool iface pre with
      | Ok None => iproute_loop pool (iface_after pool iface pre) rest
      | decided => decided
      end.
Proof.
  induction pre as [|l pre IH]; intros iface; [reflexivity|].
  cbn [app iproute_loop iface_after].
  destruct (iproute_line pool iface l) as [[iface'|c]|e]; cbn [bind];
    [apply IH | reflexivity | reflexivity].
Qed.

Lemma iproute_shape (check_output : result string) (address : string)
  (r : iface_config) :
  _iproute_get_iface_config check_output address = Ok (Some r) ->
  exists pool, iptoint address = Ok pool /\ config_shape pool r.
Proof.
  unfold _iproute_get_iface_config. intros H.
  apply bind_ok in H. destruct H as (pool & Hp & H).
  apply bind_ok in H. destruct H as (output & _ & H).
  exists pool. split; [exact Hp|]. now apply iproute_loop_shape in H.
Qed.

(** ** The membership invariant of a record *)

Lemma config_shape_membership (pool : Z) (r : iface_config) :
  config_shape pool r ->
  exists s n m,
    iptoint (server r) = Ok s /\ iptoint (net r) = Ok n
    /\ iptoint (mask r) = Ok m /\ n = Z.land s m /\ n = Z.land pool m.
Proof.
  intros (s & m & Hs & Hm & Heq & -> & -> & ->).
  exists s, (Z.land s m), m.
  rewrite !iptoint_dotted; try assumption;
    [|apply u32_land; [exact Hs | apply Hm]].
  repeat match goal with |- _ /\ _ => split end; auto.
Qed.

(** C2: whenever one of the two enumerators returns a record [r] for the
    target address [address], the target reads as some [t] and the fields of
    [r], read back through [iptoint], satisfy [net = server & mask] and
    [net = t & mask]. *)
Theorem record_membership (nf : option Netifaces) (check_output : result string)
  (address : string) (r : iface_config) :
  _netifaces_get_iface_config nf address = Ok (Some r)
  \/ _iproute_get_iface_config check_output address = Ok (Some r) ->
  exists t s n m,
    iptoint address = Ok t
    /\ iptoint (server r) = Ok s
    /\ iptoint (net r) = Ok n
    /\ iptoint (mask r) = Ok m
    /\ n = Z.land s m
    /\ n = Z.land t m.
Proof.
  intros [H | H].
  - apply netifaces_shape in H. destruct H as (pool & Hp & _ & Hs).
    apply config_shape_membership in Hs.
    destruct Hs as (s & n & m & H1 & H2 & H3 & H4 & H5).
    exists pool, s, n, m. auto 10.
  - apply iproute_shape in H. destruct H as (pool & Hp & Hs).
    apply config_shape_membership in Hs.
    destruct Hs as (s & n & m & H1 & H2 & H3 & H4 & H5).
    exists pool, s, n, m. auto 10.
Qed.

(** The stanzas of the specification's example. *)
Definition eth0_lo_output : string :=
  "2: eth0: <BROADCAST,MULTICAST,UP,LOWER_UP> mtu 1500 qdisc fq_codel
    inet 192.168.1.10/24 brd 192.168.1.255 scope global eth0
3: lo: <LOOPBACK,UP,LOWER_UP> mtu 65536 qdisc noqueue

    inet 127.0.0.1/8 scope host lo
".

Example iproute_eth0 :
  _iproute_get_iface_config (Ok eth0_lo_output) "192.168.1.50"
  = Ok (Some (mk_config (Some "eth0") "192.168.1.10" "192.168.1.0"
                "255.255.255.0")).
Proof. reflexivity. Qed.

Example iproute_lo :
  _iproute_get_iface_config (Ok eth0_lo_output) "127.0.0.2"
  = Ok (Some (mk_config (Some "lo") "127.0.0.1" "127.0.0.0" "255.0.0.0")).
Proof. reflexivity. Qed.

Example iproute_not_found :
  _iproute_get_iface_config (Ok eth0_lo_output) "10.0.0.5" = Ok None.
Proof. reflexivity. Qed.

Lemma record_membership_witness :
  (_netifaces_get_iface_config None "127.0.0.2"
   = Ok (Some (mk_config (Some "lo") "127.0.0.1" "127.0.0.0" "255.0.0.0"))
   \/ _iproute_get_iface_config (Ok eth0_lo_output) "127.0.0.2"
      = Ok (Some (mk_config (Some "lo") "127.0.0.1" "127.0.0.0" "255.0.0.0")))
  /\ exists t s n m,
       iptoint "127.0.0.2" = Ok t
       /\ iptoint "127.0.0.1" = Ok s
       /\ iptoint "127.0.0.0" = Ok n
       /\ iptoint "255.0.0.0" = Ok m
       /\ n = Z.land s m
       /\ n = Z.land t m.
Proof.
  split; [right; reflexivity|].
  apply (record_membership None (Ok eth0_lo_output) "127.0.0.2"
           (mk_config (Some "lo") "127.0.0.1" "127.0.0.0" "255.0.0.0")).
  right. reflexivity.
Defined.

(** ** Header lines with a single token *)

(** C10: a line whose first token ends with a colon has its second token
    read unconditionally, so the line's outcome is decided by that access
    alone; on a line that is a single colon-terminated token the access is
    out of range, and the whole enumeration of the output ["lo:"] fails with
    [IndexError], which is neither the failure of the command, nor one of
    the exceptions of a malformed [inet] token, nor "not found". *)
Theorem iproute_header_second_token (pool : Z) (iface : option string)
  (l : string) :
  header_line l = true ->
  iproute_line pool iface l
  = match nth_error (PyStr.split l) 1 with
    | None => Raise IndexError
    | Some item1 => Ok (Continue (Some (drop_last item1)))
    end
  /\ (List.length (PyStr.split l) = 1%nat ->
      iproute_line pool iface l = Raise IndexError)
  /\ _iproute_get_iface_config (Ok "lo:") "10.0.0.2" = Raise IndexError
  /\ ~ malformed_output_error IndexError
  /\ IndexError <> CalledProcessError.
Proof.
  intros Hh. pose proof (iproute_line_header pool iface l Hh) as Hl.
  split; [exact Hl|]. split.
  - intros Hlen. rewrite Hl.
    destruct (PyStr.split l) as [|item0 [|item1 items]]; try discriminate.
    reflexivity.
  - split; [reflexivity|]. split; [|discriminate].
    unfold malformed_output_error. intros [H | [H | H]]; discriminate.
Qed.

Lemma iproute_header_second_token_witness :
  header_line "lo:" = true
  /\ iproute_line 167772162 None "lo:" = Raise IndexError.
Proof.
  split; [reflexivity|].
  exact (proj1 (iproute_header_second_token 167772162 None "lo:" eq_refl)).
Defined.

(** ** Malformed [inet] lines *)

Lemma endswith_inet : endswith ":" "inet" = false.
Proof. reflexivity. Qed.

(** The claim of C3 as it is written, at one output and one target: a
    malformed [inet] line anywhere in the output makes the call fail. *)
Definition textual_strict_as_specified (output address : string) : Prop :=
  existsb malformed_inet_line (iplines_of output) = true ->
  exists e,
    _iproute_get_iface_config (Ok output) address = Raise e
    /\ malformed_output_error e.

Definition eth0_then_malformed : string :=
  "2: eth0: <BROADCAST,MULTICAST,UP,LOWER_UP> mtu 1500
    inet 192.168.1.10/24 brd 192.168.1.255 scope global eth0
    inet 192.168.1.11/xx scope global secondary eth0
".

(** C3, counterexample: the stanza of [eth0] matches the target before the
    malformed [inet] line is read, and the call returns its record. *)
Lemma textual_match_before_malformed :
  ~ textual_strict_as_specified eth0_then_malformed "192.168.1.50".
Proof.
  unfold textual_strict_as_specified. intros H.
  destruct (H eq_refl) as (e & He & _).
  change (_iproute_get_iface_config (Ok eth0_then_malformed) "192.168.1.50")
    with (@Ok (option iface_config)
            (Some (mk_config (Some "eth0") "192.168.1.10" "192.168.1.0"
                     "255.255.255.0"))) in He.
  discriminate.
Qed.

(** ** The fields of a result *)

Lemma config_shape_dotted (pool : Z) (r : iface_config) :
  config_shape pool r ->
  dotted_quad (server r) = true /\ dotted_quad (net r) = true
  /\ dotted_quad (mask r) = true.
Proof.
  intros (s & m & _ & _ & _ & -> & -> & ->).
  repeat split; apply dotted_quad_dotted.
Qed.

(** The returning line of a loop, and when the record's [ifname] is
    [None]: when the loop started with [None] and no header line came
    before the returning line. *)
Lemma iproute_loop_ifname (pool : Z) (iplines : list string) :
  forall iface r,
    iproute_loop pool iface iplines = Ok (Some r) ->
    exists pre l post,
      iplines = (pre ++ l :: post)%list
      /\ iproute_loop pool iface pre = Ok None
      /\ iproute_loop pool iface (pre ++ [l]) = Ok (Some r)
      /\ (ifname r = None <->
          iface = None /\ existsb header_line pre = false).
Proof.
  induction iplines as [|l0 iplines IH]; intros iface r; cbn [iproute_loop];
    [discriminate|].
  intros H. apply bind_ok in H. destruct H as ([iface'|c] & Hl & H).
  - destruct (IH iface' r H) as (pre & l & post & -> & Hpre & Hret & Hname).
    exists (l0 :: pre), l, post. cbn [app iproute_loop existsb].
    rewrite Hl. cbn [bind].
    split; [reflexivity|]. split; [exact Hpre|]. split; [exact Hret|].
    rewrite Hname. apply iproute_line_continue in Hl.
    destruct Hl as [[Hh Hne] | [Hh ->]]; rewrite Hh; cbn [orb].
    + split; [intros [Hn _]; congruence | intros [_ Hf]; discriminate].
    + reflexivity.
  - injection H as <-. exists [], l0, iplines. cbn [app iproute_loop existsb].
    rewrite Hl. cbn [bind].
    split; [reflexivity|]. split; [reflexivity|]. split; [reflexivity|].
    apply iproute_line_return in Hl. destruct Hl as (_ & -> & _).
    split; [intros ->; now split | now intros [-> _]].
Qed.

(** The fields of a record as the claim of C9 has them: four strings. *)
Definition config_all_strings (r : iface_config) : Prop :=
  ifname r <> None
  /\ dotted_quad (server r) = true
  /\ dotted_quad (net r) = true
  /\ dotted_quad (mask r) = true.

Definition result_as_specified (netifaces : option Netifaces)
  (check_output : result string) (address : option string) : Prop :=
  forall r,
    get_iface_config netifaces check_output address = Ok (Some r) ->
    config_all_strings r.

(** C9, counterexample: without [netifaces], on an output whose first line
    is an [inet] line, the record's [ifname] is [None], not a string. *)
Lemma textual_ifname_none :
  ~ result_as_specified None (Ok "inet 10.0.0.1/8 scope global")
      (Some "10.1.2.3").
Proof.
  intros H.
  destruct (H (mk_config None "10.0.0.1" "10.0.0.0" "255.0.0.0") eq_refl)
    as [Hn _].
  now apply Hn.
Qed.

(** C9, amended: every record returned by [get_iface_config] has the four
    fields; [server], [net] and [mask] hold dotted-quad strings; [ifname]
    holds a string when the structured enumerator is used and, in the
    textual enumerator, when some header line comes before the [inet] line
    that matches; it holds [None] exactly when no header line does. *)
Theorem result_fields (netifaces : option Netifaces)
  (check_output : result string) (address : option string) (r : iface_config) :
  get_iface_config netifaces check_output address = Ok (Some r) ->
  dotted_quad (server r) = true
  /\ dotted_quad (net r) = true
  /\ dotted_quad (mask r) = true
  /\ match netifaces with
     | Some _ => ifname r <> None
     | None =>
         exists output pool pre l post,
           check_output = Ok output
           /\ iplines_of output = (pre ++ l :: post)%list
           /\ iproute_loop pool None pre = Ok None
           /\ iproute_loop pool None (pre ++ [l]) = Ok (Some r)
           /\ (ifname r = None <-> existsb header_line pre = false)
     end.
Proof.
  unfold get_iface_config, get_iface_config_with.
  destruct address as [a|]; [|discriminate].
  destruct (is_empty a); [discriminate|].
  destruct netifaces as [m|]; cbn [negb]; intros H.
  - apply netifaces_shape in H. destruct H as (pool & _ & Hn & Hs).
    apply config_shape_dotted in Hs. tauto.
  - pose proof (iproute_shape _ _ _ H) as (pool' & _ & Hs).
    apply config_shape_dotted in Hs.
    destruct Hs as (H1 & H2 & H3). do 3 (split; [assumption|]).
    unfold _iproute_get_iface_config in H.
    apply bind_ok in H. destruct H as (pool & _ & H).
    apply bind_ok in H. destruct H as (output & -> & H).
    apply iproute_loop_ifname in H.
    destruct H as (pre & l & post & Hl & Hpre & Hret & Hname).
    exists output, pool, pre, l, post.
    do 4 (split; [assumption || reflexivity|]).
    rewrite Hname. split; [now intros [_ Hf] | now split].
Qed.

Lemma result_fields_witness :
  get_iface_config None (Ok eth0_lo_output) (Some "127.0.0.2")
  = Ok (Some (mk_config (Some "lo") "127.0.0.1" "127.0.0.0" "255.0.0.0"))
  /\ dotted_quad "127.0.0.1" = true
  /\ dotted_quad "127.0.0.0" = true
  /\ dotted_quad "255.0.0.0" = true.
Proof.
  split; [reflexivity|].
  pose proof (result_fields None (Ok eth0_lo_output) (Some "127.0.0.2")
                (mk_config (Some "lo") "127.0.0.1" "127.0.0.0" "255.0.0.0")
                eq_refl) as (H1 & H2 & H3 & _).
  exact (conj H1 (conj H2 H3)).
Defined.

(** ** The orchestrator *)

(** C8: for an absent or empty target address [get_iface_config] returns
    [None] without raising, and without calling a strategy: the result is
    the same whatever the two strategies are, even strategies that would
    always raise, whether [netifaces] was imported or not, and whatever
    running the command would give. *)
Theorem get_iface_config_empty (address : option string) :
  address = None \/ address = Some "" ->
  (forall structured textual have_netifaces,
     get_iface_config_with structured textual have_netifaces address = Ok None)
  /\ (forall netifaces check_output,
        get_iface_config netifaces check_output address = Ok None).
Proof.
  intros [-> | ->]; split; reflexivity.
Qed.

Lemma get_iface_config_empty_witness :
  (Some "" = None \/ Some "" = Some "")
  /\ get_iface_config_with (fun _ => Raise AttributeError)
       (fun _ => Raise CalledProcessError) false (Some "") = Ok None
  /\ get_iface_config None (Raise CalledProcessError) (Some "") = Ok None.
Proof.
  split; [right; reflexivity|].
  destruct (get_iface_config_empty (Some "") (or_intror eq_refl)) as [H1 H2].
  split; [apply H1 | apply H2].
Defined.

(** The claim of C6 as it is written, at one host and one target: the
    caller gets what the strategy chosen by the presence of [netifaces]
    gives, and nothing about its absence. *)
Definition strategy_as_specified (h : host) (a : string) : Prop :=
  import_and_get_iface_config h (Some a)
  = match netifaces_pkg h with
    | Some m => _netifaces_get_iface_config (Some m) a
    | None => _iproute_get_iface_config (ip_address_show h) a
    end.

(** A Darwin host without [netifaces], on which [ip address show] runs. *)
Definition darwin_host : host :=
  mk_host "Darwin" None (Ok eth0_lo_output).

(** C6, counterexample: on Darwin the absence of [netifaces] reaches the
    caller as [ImportError], although the textual enumerator would have
    resolved the target. *)
Lemma darwin_import_error : ~ strategy_as_specified darwin_host "192.168.1.50".
Proof.
  unfold strategy_as_specified.
  change (import_and_get_iface_config darwin_host (Some "192.168.1.50"))
    with (@Raise (option iface_config) ImportError).
  change (_iproute_get_iface_config (ip_address_show darwin_host)
            "192.168.1.50")
    with (@Ok (option iface_config)
            (Some (mk_config (Some "eth0") "192.168.1.10" "192.168.1.0"
                     "255.255.255.0"))).
  cbn [netifaces_pkg darwin_host]. discriminate.
Qed.

(** C6, amended: for a non-empty target address, [get_iface_config]
    selects one strategy for the whole call, the structured enumerator when
    the global [netifaces] is the imported package and the textual one when
    it is [None], and its result is that strategy's result.  The absence of
    the package is not an error on a host whose system name is not Darwin;
    on Darwin the import guard raises [ImportError] before any call. *)
Theorem get_iface_config_strategy (h : host) (a : string) :
  a <> "" ->
  (forall netifaces check_output,
     get_iface_config netifaces check_output (Some a)
     = match netifaces with
       | Some m => _netifaces_get_iface_config (Some m) a
       | None => _iproute_get_iface_config check_output a
       end)
  /\ import_and_get_iface_config h (Some a)
     = match netifaces_pkg h with
       | Some m => _netifaces_get_iface_config (Some m) a
       | None =>
           if String.eqb (lower (uname_sysname h)) "darwin"
           then Raise ImportError
           else _iproute_get_iface_config (ip_address_show h) a
       end.
Proof.
  intros Ha.
  assert (He : is_empty a = false) by (destruct a; [congruence | reflexivity]).
  assert (Hg : forall netifaces check_output,
             get_iface_config netifaces check_output (Some a)
             = match netifaces with
               | Some m => _netifaces_get_iface_config (Some m) a
               | None => _iproute_get_iface_config check_output a
               end).
  { intros nf co. unfold get_iface_config, get_iface_config_with.
    rewrite He. destruct nf; reflexivity. }
  split; [exact Hg|].
  unfold import_and_get_iface_config, import_netifaces.
  destruct (netifaces_pkg h) as [m|]; cbn [bind]; [apply Hg|].
  destruct (String.eqb (lower (uname_sysname h)) "darwin"); cbn [bind];
    [reflexivity | apply Hg].
Qed.

Definition linux_host : host :=
  mk_host "Linux" None (Ok eth0_lo_output).

Lemma get_iface_config_strategy_witness :
  "192.168.1.50" <> ""
  /\ import_and_get_iface_config linux_host (Some "192.168.1.50")
     = Ok (Some (mk_config (Some "eth0") "192.168.1.10" "192.168.1.0"
                   "255.255.255.0")).
Proof.
  assert (Hne : "192.168.1.50" <> "") by discriminate.
  split; [exact Hne|].
  exact (proj2 (get_iface_config_strategy linux_host "192.168.1.50" Hne)).
Defined.

Example structured_when_available :
  import_and_get_iface_config
    (mk_host "Darwin" (Some example_netifaces) (Raise CalledProcessError))
    (Some "192.168.1.200")
  = Ok (Some (mk_config (Some "eth0") "192.168.1.10" "192.168.1.0"
                "255.255.255.0")).
Proof. reflexivity. Qed.

(** * Further properties of the codec *)

Lemma octet_testbit_high (b j : Z) : octet b -> 8 <= j -> Z.testbit b j = false.
Proof.
  intros [H0 H1] Hj. change 256 with (2 ^ 8) in H1.
  apply (lt_pow2_log2 8) in H1; try lia.
  destruct H1 as [-> | Hl]; [apply Z.testbit_0_l|].
  apply Z.bits_above_log2; lia.
Qed.

Lemma testbit_below (b j : Z) : j < 0 -> Z.testbit b j = false.
Proof. intros Hj. now apply Z.testbit_neg_r. Qed.

(** The byte at shift [s] of four packed octets. *)
Lemma packed_byte (b3 b2 b1 b0 s : Z) :
  octet b3 -> octet b2 -> octet b1 -> octet b0 ->
  0 <= s ->
  forall i, 0 <= i ->
    Z.testbit
      (Z.land
         (Z.shiftr
            (Z.lor (Z.shiftl b3 24)
               (Z.lor (Z.shiftl b2 16) (Z.lor (Z.shiftl b1 8) b0))) s) 255) i
    = (i <? 8)
      && (Z.testbit b3 (i + s - 24) || Z.testbit b2 (i + s - 16)
          || Z.testbit b1 (i + s - 8) || Z.testbit b0 (i + s)).
Proof.
  intros O3 O2 O1 O0 Hs i Hi.
  rewrite Z.land_spec, Z.shiftr_spec by assumption.
  rewrite !Z.lor_spec, !Z.shiftl_spec by lia.
  change 255 with (Z.ones 8). rewrite Z.testbit_ones_nonneg by lia.
  destruct (i <? 8); rewrite ?andb_true_r, ?andb_false_r, ?orb_assoc;
    reflexivity.
Qed.

Lemma be_bytes_unpack (b3 b2 b1 b0 : Z) :
  octet b3 -> octet b2 -> octet b1 -> octet b0 ->
  be_bytes (Z.lor (Z.shiftl b3 24)
              (Z.lor (Z.shiftl b2 16) (Z.lor (Z.shiftl b1 8) b0)))
  = [b3; b2; b1; b0].
Proof.
  intros O3 O2 O1 O0. unfold be_bytes.
  pose proof (packed_byte b3 b2 b1 b0 0 O3 O2 O1 O0) as P0.
  rewrite Z.shiftr_0_r in P0.
  repeat f_equal; apply Z.bits_inj'; intros i Hi;
    rewrite ?P0, ?packed_byte by (assumption || lia);
    (destruct (Z.ltb_spec i 8);
     [ rewrite ?(testbit_below _ (i + 0 - 24)), ?(testbit_below _ (i + 0 - 16)),
         ?(testbit_below _ (i + 0 - 8)), ?(testbit_below _ (i + 8 - 24)),
         ?(testbit_below _ (i + 8 - 16)), ?(testbit_below _ (i + 16 - 24))
         by lia;
       rewrite ?(octet_testbit_high b0 (i + 24)), ?(octet_testbit_high b0 (i + 16)),
         ?(octet_testbit_high b0 (i + 8)), ?(octet_testbit_high b1 (i + 24 - 8)),
         ?(octet_testbit_high b1 (i + 16 - 8)), ?(octet_testbit_high b2 (i + 24 - 16))
         by (assumption || lia);
       cbn [andb orb]; rewrite ?orb_false_r;
       f_equal; lia
     | cbn [andb]; symmetry; apply octet_testbit_high; assumption || lia ]).
Qed.

(** X1: [inttoip] succeeds exactly on the integers of [[0, 2^32)], where its
    result is a dotted quad; on any other integer it raises
    [struct.error]. *)
Theorem inttoip_domain (x : Z) :
  match inttoip x with
  | Ok s => 0 <= x < 2 ^ 32 /\ dotted_quad s = true
  | Raise e => e = StructError /\ ~ (0 <= x < 2 ^ 32)
  end.
Proof.
  unfold inttoip, struct_pack_I.
  destruct (Z.leb_spec 0 x); cbn [andb bind].
  - destruct (Z.leb_spec x 4294967295); cbn [bind].
    + split; [lia | apply dotted_quad_dotted].
    + split; [reflexivity | lia].
  - split; [reflexivity | lia].
Qed.

(** X2: [inttoip] is injective: two integers with the same dotted form are
    equal. *)
Theorem inttoip_injective (x y : Z) (s : string) :
  inttoip x = Ok s -> inttoip y = Ok s -> x = y.
Proof.
  intros Hx Hy.
  pose proof (inttoip_domain x) as Dx. rewrite Hx in Dx.
  pose proof (inttoip_domain y) as Dy. rewrite Hy in Dy.
  destruct Dx as [Ux _], Dy as [Uy _].
  rewrite (inttoip_u32 x Ux) in Hx. rewrite (inttoip_u32 y Uy) in Hy.
  injection Hx as <-. injection Hy as Hd.
  pose proof (iptoint_dotted x Ux) as Rx.
  pose proof (iptoint_dotted y Uy) as Ry.
  rewrite Hd in Ry. congruence.
Qed.

Lemma inttoip_injective_witness :
  inttoip 3232235786 = Ok "192.168.1.10"
  /\ inttoip (3232235776 + 10) = Ok "192.168.1.10"
  /\ 3232235786 = 3232235776 + 10.
Proof.
  split; [reflexivity|]. split; [reflexivity|].
  exact (inttoip_injective 3232235786 (3232235776 + 10) "192.168.1.10"
           eq_refl eq_refl).
Defined.

(** X3: the other round trip: a dotted quad read by [iptoint] and written
    by [inttoip] is the same string. *)
Theorem inttoip_iptoint (s : string) :
  dotted_quad s = true -> (v <- iptoint s ;; inttoip v) = Ok s.
Proof.
  intros H. apply dotted_quad_inv in H.
  destruct H as (b3 & b2 & b1 & b0 & O3 & O2 & O1 & O0 & ->).
  unfold iptoint, socket_inet_aton.
  rewrite has_nul_ntoa, inet_aton_ntoa by assumption.
  cbn [bind struct_unpack_I].
  rewrite inttoip_u32 by (now apply unpack_octets_u32).
  unfold dotted. now rewrite be_bytes_unpack.
Qed.

Lemma inttoip_iptoint_witness :
  dotted_quad "10.0.255.1" = true
  /\ (v <- iptoint "10.0.255.1" ;; inttoip v) = Ok "10.0.255.1".
Proof.
  split; [reflexivity|]. apply (inttoip_iptoint "10.0.255.1"). reflexivity.
Defined.

(** X4: whatever form [iptoint] accepts, writing its result with [inttoip]
    succeeds and gives a dotted quad that reads as the same address: the
    codec normalises ["127.1"] to ["127.0.0.1"]. *)
Theorem inttoip_normalises (s : string) (v : Z) :
  iptoint s = Ok v ->
  exists s',
    inttoip v = Ok s' /\ dotted_quad s' = true /\ iptoint s' = Ok v.
Proof.
  intros H. apply iptoint_u32 in H. exists (dotted v).
  split; [now apply inttoip_u32|].
  split; [apply dotted_quad_dotted | now apply iptoint_dotted].
Qed.

Lemma inttoip_normalises_witness :
  iptoint "127.1" = Ok 2130706433
  /\ exists s',
       inttoip 2130706433 = Ok s' /\ dotted_quad s' = true
       /\ iptoint s' = Ok 2130706433.
Proof.
  split; [reflexivity|].
  apply (inttoip_normalises "127.1" 2130706433). reflexivity.
Defined.

(** * Further properties of the prefix mask *)

(** X5: among the integers of magnitude up to a million (shift counts
    that the interpreter carries out, whatever its version and the memory
    it has), the mask computation succeeds exactly for the prefix lengths
    of [[0, 32]]; every other one, negative or above 32, raises
    [ValueError]. *)
Theorem prefix_mask_domain (p : Z) :
  - 1000000 <= p <= 1000000 ->
  match prefix_mask p with
  | Ok m => 0 <= p <= 32 /\ m = 2 ^ 32 - 2 ^ (32 - p)
  | Raise e => e = ValueError /\ ~ (0 <= p <= 32)
  end.
Proof.
  intros _. destruct (prefix_mask p) as [m|e] eqn:H.
  - apply prefix_mask_inv in H. destruct H as [Hp ->].
    split; [exact Hp | now apply prefix_mask_arith].
  - destruct ((0 <=? p) && (p <=? 32)) eqn:Hr.
    + apply andb_prop in Hr. destruct Hr as [H0 H1].
      apply Z.leb_le in H0, H1.
      rewrite prefix_mask_value in H by lia. discriminate.
    + rewrite (prefix_mask_out_of_range p Hr) in H. injection H as <-.
      split; [reflexivity|]. intros [H0 H1].
      apply Z.leb_le in H0, H1. rewrite H0, H1 in Hr. discriminate.
Qed.

Lemma prefix_mask_domain_witness :
  - 1000000 <= 33 <= 1000000
  /\ match prefix_mask 33 with
     | Ok m => 0 <= 33 <= 32 /\ m = 2 ^ 32 - 2 ^ (32 - 33)
     | Raise e => e = ValueError /\ ~ (0 <= 33 <= 32)
     end.
Proof.
  split; [lia | apply (prefix_mask_domain 33); lia].
Defined.

Lemma prefix_mask_nested_bits (p q : Z) :
  0 <= p <= q -> q <= 32 ->
  Z.land (Z.shiftl (Z.ones p) (32 - p)) (Z.shiftl (Z.ones q) (32 - q))
  = Z.shiftl (Z.ones p) (32 - p).
Proof.
  intros Hp Hq. apply Z.bits_inj'. intros i Hi.
  rewrite Z.land_spec, !prefix_mask_bits by lia.
  destruct (Z.leb_spec (32 - p) i), (Z.leb_spec (32 - q) i), (Z.ltb_spec i 32);
    cbn; try reflexivity; lia.
Qed.

(** X6: masks are nested: for prefix lengths [p <= q], two addresses in the
    same network under the mask of [q] are in the same network under the
    mask of [p]. *)
Theorem prefix_mask_nested (p q mp mq a t : Z) :
  0 <= p <= q -> q <= 32 ->
  prefix_mask p = Ok mp -> prefix_mask q = Ok mq ->
  Z.land a mq = Z.land t mq -> Z.land a mp = Z.land t mp.
Proof.
  intros Hp Hq Hmp Hmq Heq.
  apply prefix_mask_inv in Hmp, Hmq. destruct Hmp as [_ ->], Hmq as [_ ->].
  rewrite <- (prefix_mask_nested_bits p q Hp Hq).
  rewrite (Z.land_comm (Z.shiftl (Z.ones p) _)), !Z.land_assoc.
  now rewrite Heq.
Qed.

Lemma prefix_mask_nested_witness :
  Z.land 3232235786 4294967040 = Z.land 3232235826 4294967040
  /\ Z.land 3232235786 4294901760 = Z.land 3232235826 4294901760.
Proof.
  split; [reflexivity|].
  apply (prefix_mask_nested 16 24 4294901760 4294967040 3232235786 3232235826);
    try reflexivity; lia.
Defined.

(** * Further properties of the enumerators *)

(** X7: the target address is read before anything else: when [iptoint]
    rejects it, both enumerators raise the codec's exception whatever the
    host's interfaces are and whether or not the command could run, and so
    does [get_iface_config] unless the address is the empty string. *)
Theorem address_error_first (netifaces : option Netifaces)
  (check_output : result string) (address : string) (e : exn) :
  iptoint address = Raise e ->
  _netifaces_get_iface_config netifaces address = Raise e
  /\ _iproute_get_iface_config check_output address = Raise e
  /\ get_iface_config netifaces check_output (Some address)
     = if is_empty address then Ok None else Raise e.
Proof.
  intros H.
  assert (H1 : _netifaces_get_iface_config netifaces address = Raise e)
    by (unfold _netifaces_get_iface_config; now rewrite H).
  assert (H2 : _iproute_get_iface_config check_output address = Raise e)
    by (unfold _iproute_get_iface_config; now rewrite H).
  split; [exact H1|]. split; [exact H2|].
  unfold get_iface_config, get_iface_config_with.
  destruct (is_empty address); [reflexivity|].
  destruct netifaces; cbn [negb]; assumption.
Qed.

Lemma address_error_first_witness :
  iptoint "192.168.1.256" = Raise SocketError
  /\ get_iface_config (Some example_netifaces) (Raise CalledProcessError)
       (Some "192.168.1.256")
     = Raise SocketError.
Proof.
  split; [reflexivity|].
  exact (proj2 (proj2 (address_error_first (Some example_netifaces)
                         (Raise CalledProcessError) "192.168.1.256"
                         SocketError eq_refl))).
Defined.

Lemma iproute_line_ignored (pool : Z) (iface : option string) (l : string) :
  ignored_line l = true -> iproute_line pool iface l = Ok (Continue iface).
Proof.
  unfold ignored_line, iproute_line. cbv zeta.
  destruct (PyStr.split l) as [|item0 items]; [reflexivity|].
  intros H. apply andb_prop in H. destruct H as [H1 H2].
  apply negb_true_iff in H1, H2. now rewrite H1, H2.
Qed.

(** X8: only header lines and [inet] lines count: the loop gives the same
    outcome on the lines of the output and on those lines with every blank
    line and every line of another kind ([link/ether], [inet6],
    [valid_lft], ...) removed. *)
Theorem iproute_loop_ignores (pool : Z) (iplines : list string) :
  forall iface,
    iproute_loop pool iface iplines
    = iproute_loop pool iface
        (filter (fun l => negb (ignored_line l)) iplines).
Proof.
  induction iplines as [|l iplines IH]; intros iface; [reflexivity|].
  cbn [filter]. destruct (ignored_line l) eqn:Hi; cbn [negb iproute_loop].
  - rewrite (iproute_line_ignored pool iface l Hi). cbn [bind]. apply IH.
  - destruct (iproute_line pool iface l) as [[iface'|c]|e]; cbn [bind];
      [apply IH | reflexivity | reflexivity].
Qed.

Example iproute_loop_ignores_ex :
  filter (fun l => negb (ignored_line l))
    (iplines_of
       "1: lo: <LOOPBACK,UP,LOWER_UP> mtu 65536
    link/loopback 00:00:00:00:00:00 brd 00:00:00:00:00:00
    inet 127.0.0.1/8 scope host lo
       valid_lft forever preferred_lft forever

    inet6 ::1/128 scope host
")
  = ["1: lo: <LOOPBACK,UP,LOWER_UP> mtu 65536";
     "inet 127.0.0.1/8 scope host lo"].
Proof. reflexivity. Qed.

(** X9: a mask of zero bits matches every target: an [inet] line with
    prefix length 0, and an address record whose netmask reads as 0, are
    returned for any target, with network and mask ["0.0.0.0"]; the
    enumerators do not guard against it. *)
Theorem zero_mask_matches_all (pool a : Z) :
  forall (iface : option string) (name : string) (l : string)
    (tok saddr smasklen : string) (items : list string)
    (e : inetinfo) (rest : list inetinfo) (addr_s netmask_s : string),
  PyStr.split l = "inet" :: tok :: items ->
  split_once "/" tok = [saddr; smasklen] ->
  iptoint saddr = Ok a -> PyStr.int smasklen = Ok 0 ->
  addr e = Some addr_s -> netmask e = Some netmask_s ->
  iptoint addr_s = Ok a -> iptoint netmask_s = Ok 0 ->
  iproute_line pool iface l
  = Ok (Return (mk_config iface (inet_ntoa (be_bytes a)) "0.0.0.0" "0.0.0.0"))
  /\ netifaces_inet_loop pool name (e :: rest)
     = Ok (Some (mk_config (Some name) (inet_ntoa (be_bytes a)) "0.0.0.0"
                   "0.0.0.0")).
Proof.
  intros iface name l tok saddr smasklen items e rest addr_s netmask_s
    Hsplit Htok Ha Hp Hae Hme Has Hms.
  pose proof (iptoint_u32 _ _ Ha) as Ua.
  assert (U0 : u32 0) by (unfold u32; lia).
  pose proof (build_config iface a 0 Ua U0) as B1.
  pose proof (build_config (Some name) a 0 Ua U0) as B2.
  rewrite Z.land_0_r in B1, B2.
  split.
  - unfold iproute_line. cbv zeta. rewrite Hsplit.
    rewrite endswith_inet, String.eqb_refl. cbn [nth_error].
    rewrite Htok, Ha, Hp. cbn [bind].
    change (prefix_mask 0) with (@Ok Z 0). cbn [bind].
    rewrite !Z.land_0_r. cbn [Z.lxor Z.eqb].
    cbn [bind] in B1 |- *.
    destruct (inttoip a); [|discriminate]. cbn [bind] in B1 |- *.
    destruct (inttoip 0); [|discriminate]. cbn [bind] in B1 |- *.
    now injection B1 as -> ->.
  - cbn [netifaces_inet_loop]. rewrite Hae, Hme, Has, Hms. cbn [bind].
    rewrite !Z.land_0_r. cbn [Z.lxor Z.eqb].
    cbn [bind] in B2 |- *.
    destruct (inttoip a); [|discriminate]. cbn [bind] in B2 |- *.
    destruct (inttoip 0); [|discriminate]. cbn [bind] in B2 |- *.
    now injection B2 as -> ->.
Qed.

Lemma zero_mask_matches_all_witness :
  iproute_line 3232235826 (Some "eth0") "inet 10.9.8.7/0 scope global eth0"
  = Ok (Return (mk_config (Some "eth0") "10.9.8.7" "0.0.0.0" "0.0.0.0")).
Proof.
  exact (proj1 (zero_mask_matches_all 3232235826 168364039 (Some "eth0") "eth0"
                  "inet 10.9.8.7/0 scope global eth0" "10.9.8.7/0" "10.9.8.7"
                  "0" ["scope"; "global"; "eth0"]
                  (mk_inetinfo (Some "10.9.8.7") (Some "0.0.0.0")) []
                  "10.9.8.7" "0.0.0.0"
                  eq_refl eq_refl eq_refl eq_refl eq_refl eq_refl eq_refl
                  eq_refl)).
Defined.

Lemma netifaces_inet_loop_app (pool : Z) (iface : string)
  (pre rest : list inetinfo) :
  Forall entry_well_formed pre ->
  first_match_in pool (map (pair iface) pre) = None ->
  netifaces_inet_loop pool iface (pre ++ rest)
  = netifaces_inet_loop pool iface rest.
Proof.
  induction 1 as [|e pre Hwf _ IH]; [reflexivity|].
  unfold first_match_in. cbn [map find app].
  rewrite netifaces_inet_loop_cons by exact Hwf.
  destruct (entry_matches pool (iface, e)) eqn:He.
  - intros Hn. apply entry_matches_record in He. congruence.
  - exact IH.
Qed.

Lemma netifaces_iface_loop_app (nf : Netifaces) (pool : Z)
  (l1 l2 : list string) :
  netifaces_iface_loop nf pool (l1 ++ l2)
  = match netifaces_iface_loop nf pool l1 with
    | Ok None => netifaces_iface_loop nf pool l2
    | decided => decided
    end.
Proof.
  induction l1 as [|iface l1 IH]; [reflexivity|].
  cbn [app netifaces_iface_loop]. cbv zeta.
  destruct (dict_get (AF_INET nf) (ifaddresses nf iface)) as [l|];
    [|exact IH].
  destruct (netifaces_inet_loop pool iface l) as [[r|]|e]; cbn [bind];
    [reflexivity | exact IH | reflexivity].
Qed.

(** X10: an address record that has both fields but whose address or
    netmask the codec cannot read is not skipped.  Whichever interface it
    belongs to: when the loop over the interfaces before that one ends
    without a match, and the records before it in its own list are read
    and do not match, the structured enumerator raises the codec's
    exception, whatever records and interfaces follow. *)
Theorem netifaces_unreadable_entry (nf : Netifaces) (address : string)
  (pool : Z) (before : list string) (iface : string) (after : list string)
  (pre post : list inetinfo) (e : inetinfo) (a m : string) (err : exn) :
  iptoint address = Ok pool ->
  interfaces nf = (before ++ iface :: after)%list ->
  netifaces_iface_loop nf pool before = Ok None ->
  dict_get (AF_INET nf) (ifaddresses nf iface) = Some (pre ++ e :: post)%list ->
  Forall entry_well_formed pre ->
  first_match_in pool (map (pair iface) pre) = None ->
  addr e = Some a -> netmask e = Some m ->
  iptoint a = Raise err
  \/ ((exists v, iptoint a = Ok v) /\ iptoint m = Raise err) ->
  _netifaces_get_iface_config (Some nf) address = Raise err.
Proof.
  intros Hp Hi Hb Hd Hwf Hnone Ha Hm Herr.
  unfold _netifaces_get_iface_config. rewrite Hp. cbn [bind].
  rewrite Hi, netifaces_iface_loop_app, Hb.
  cbn [netifaces_iface_loop]. cbv zeta. rewrite Hd.
  rewrite netifaces_inet_loop_app by assumption.
  cbn [netifaces_inet_loop]. rewrite Ha, Hm.
  destruct Herr as [-> | [[v ->] ->]]; reflexivity.
Qed.

Definition bad_mask_netifaces : Netifaces :=
  mk_netifaces
    ["lo"; "dummy0"; "eth0"; "eth1"]
    (fun iface =>
       if String.eqb iface "lo" then
         [(2, [mk_inetinfo (Some "127.0.0.1") (Some "255.0.0.0")])]
       else if String.eqb iface "dummy0" then
         [(17, [mk_inetinfo (Some "8a:1f:00:00:00:01") None])]
       else if String.eqb iface "eth0" then
         [(2, [mk_inetinfo (Some "10.0.0.1") (Some "255.0.0.0");
               mk_inetinfo (Some "172.16.0.1") (Some "255.255.0.0/16")])]
       else
         [(2, [mk_inetinfo (Some "192.168.1.10") (Some "255.255.255.0")])])
    2.

Lemma netifaces_unreadable_entry_witness :
  iptoint "192.168.1.50" = Ok 3232235826
  /\ netifaces_iface_loop bad_mask_netifaces 3232235826 ["lo"; "dummy0"]
     = Ok None
  /\ _netifaces_get_iface_config (Some bad_mask_netifaces) "192.168.1.50"
     = Raise SocketError.
Proof.
  split; [reflexivity|]. split; [reflexivity|].
  apply (netifaces_unreadable_entry bad_mask_netifaces "192.168.1.50"
           3232235826 ["lo"; "dummy0"] "eth0" ["eth1"]
           [mk_inetinfo (Some "10.0.0.1") (Some "255.0.0.0")] []
           (mk_inetinfo (Some "172.16.0.1") (Some "255.255.0.0/16"))
           "172.16.0.1" "255.255.0.0/16" SocketError);
    try reflexivity.
  - apply Forall_cons; [|apply Forall_nil].
    intros a m Ha Hm. cbn in Ha, Hm.
    injection Ha as <-. injection Hm as <-. split; eexists; reflexivity.
  - right. split; [eexists|]; reflexivity.
Defined.

(** ** The interface name of a textual record *)

Lemma iproute_loop_none_app (pool : Z) (pre rest : list string) :
  forall iface,
    iproute_loop pool iface (pre ++ rest) = Ok None ->
    iproute_loop pool iface pre = Ok None
    /\ iproute_loop pool (iface_after pool iface pre) rest = Ok None
    /\ iface_after pool iface (pre ++ rest)
       = iface_after pool (iface_after pool iface pre) rest.
Proof.
  induction pre as [|l pre IH]; intros iface; [now auto|].
  cbn [app iproute_loop iface_after].
  destruct (iproute_line pool iface l) as [[iface'|c]|e]; cbn [bind];
    try discriminate.
  apply IH.
Qed.

Lemma iface_after_no_header (pool : Z) (lines : list string) :
  forall iface,
    iproute_loop pool iface lines = Ok None ->
    existsb header_line lines = false ->
    iface_after pool iface lines = iface.
Proof.
  induction lines as [|l lines IH]; intros iface; [reflexivity|].
  cbn [iproute_loop iface_after existsb].
  destruct (iproute_line pool iface l) as [[iface'|c]|e] eqn:Hl; cbn [bind];
    try discriminate.
  intros Hloop Hh. apply orb_false_iff in Hh. destruct Hh as [Hh1 Hh2].
  apply iproute_line_continue in Hl.
  destruct Hl as [[Hh _] | [_ ->]]; [congruence|]. now apply IH.
Qed.

(** X11: the [ifname] of a textual record comes from the nearest header
    line above the [inet] line that matches: it is the second token of that
    header without its last character, whatever headers came earlier. *)
Theorem textual_ifname_nearest_header (pool : Z) (iface0 : option string)
  (pre1 pre2 : list string) (h l item1 : string) (r : iface_config) :
  header_line h = true ->
  nth_error (PyStr.split h) 1 = Some item1 ->
  existsb header_line pre2 = false ->
  iproute_loop pool iface0 (pre1 ++ h :: pre2) = Ok None ->
  iproute_loop pool iface0 ((pre1 ++ h :: pre2) ++ [l]) = Ok (Some r) ->
  ifname r = Some (drop_last item1).
Proof.
  intros Hh Hitem Hno Hpre Hret.
  rewrite iproute_loop_app, Hpre in Hret.
  cbn [iproute_loop] in Hret.
  apply bind_ok in Hret. destruct Hret as ([iface'|c] & Hl & Hret);
    [discriminate|].
  injection Hret as ->. apply iproute_line_return in Hl.
  destruct Hl as (_ & -> & _).
  destruct (iproute_loop_none_app pool pre1 (h :: pre2) iface0 Hpre)
    as (_ & Hrest & ->).
  cbn [iproute_loop iface_after] in Hrest |- *.
  rewrite (iproute_line_header pool _ h Hh), Hitem in Hrest |- *.
  cbn [bind] in Hrest. now apply iface_after_no_header.
Qed.

Lemma textual_ifname_nearest_header_witness :
  iproute_loop 2130706434 None
    ((["2: eth0: <BROADCAST,MULTICAST,UP,LOWER_UP> mtu 1500";
       "inet 192.168.1.10/24 brd 192.168.1.255 scope global eth0"]
      ++ "3: lo: <LOOPBACK,UP,LOWER_UP> mtu 65536"
         :: ["link/loopback 00:00:00:00:00:00 brd 00:00:00:00:00:00"])
     ++ ["inet 127.0.0.1/8 scope host lo"])
  = Ok (Some (mk_config (Some "lo") "127.0.0.1" "127.0.0.0" "255.0.0.0"))
  /\ Some "lo" = Some (drop_last "lo:").
Proof.
  split; [reflexivity|].
  exact (textual_ifname_nearest_header 2130706434 None
           ["2: eth0: <BROADCAST,MULTICAST,UP,LOWER_UP> mtu 1500";
            "inet 192.168.1.10/24 brd 192.168.1.255 scope global eth0"]
           ["link/loopback 00:00:00:00:00:00 brd 00:00:00:00:00:00"]
           "3: lo: <LOOPBACK,UP,LOWER_UP> mtu 65536"
           "inet 127.0.0.1/8 scope host lo" "lo:"
           (mk_config (Some "lo") "127.0.0.1" "127.0.0.0" "255.0.0.0")
           eq_refl eq_refl eq_refl eq_refl eq_refl).
Defined.

(** * Value coercion *)

Lemma str_in_In (x : string) (l : list string) : str_in x l = true <-> In x l.
Proof.
  unfold str_in. rewrite existsb_exists. split.
  - intros (y & Hy & He). apply String.eqb_eq in He. now subst.
  - intros H. exists x. split; [exact H | apply String.eqb_refl].
Qed.

Lemma str_in_not_In (x : string) (l : list string) :
  str_in x l = false <-> ~ In x l.
Proof.
  rewrite <- str_in_In. destruct (str_in x l); split; congruence.
Qed.

(** X12: [to_bool] returns [True] exactly for the boolean [True], for a
    non-zero integer when [allow_int] is set, and for a string whose
    lower-case form is one of the seven true words; [permissive] plays no
    part in it.  In particular, with the default flags an integer, even 1,
    is never [True]. *)
Theorem to_bool_true_iff (value : pyvalue) (permissive allow_int : bool) :
  to_bool value permissive allow_int = Ok true
  <-> match value with
      | PNone => False
      | PBool b => b = true
      | PInt n => allow_int = true /\ n <> 0
      | PStr s => In (lower s) TRUE_BOOLEANS
      end.
Proof.
  destruct value as [|b|n|s]; cbn [to_bool].
  - split; [discriminate | contradiction].
  - split; [intros H; now injection H | intros ->; reflexivity].
  - destruct allow_int.
    + destruct (Z.eqb_spec n 0); cbn [negb]; split;
        try discriminate; try (intros [_ H]; congruence); auto.
    + destruct permissive; split; try discriminate; intros [H _]; discriminate.
  - rewrite <- str_in_In.
    destruct (str_in (lower s) TRUE_BOOLEANS); [split; reflexivity|].
    destruct (permissive || str_in (lower s) FALSE_BOOLEANS); split; discriminate.
Qed.

(** X13: [to_bool] raises only [ValueError], only when [permissive] is
    off, and then exactly for an integer without [allow_int] and for a
    string whose lower-case form is neither a true word nor a false word;
    with [permissive] on (the default) it never raises. *)
Theorem to_bool_raises_iff (value : pyvalue) (permissive allow_int : bool)
  (e : exn) :
  to_bool value permissive allow_int = Raise e
  <-> e = ValueError /\ permissive = false
      /\ match value with
         | PNone | PBool _ => False
         | PInt _ => allow_int = false
         | PStr s =>
             ~ In (lower s) TRUE_BOOLEANS /\ ~ In (lower s) FALSE_BOOLEANS
         end.
Proof.
  destruct value as [|b|n|s]; cbn [to_bool].
  - split; [discriminate | tauto].
  - split; [discriminate | tauto].
  - destruct allow_int, permissive; split; try discriminate;
      try (intros (_ & H1 & H2); discriminate).
    + intros H; injection H as <-. auto.
    + intros (-> & _). reflexivity.
  - rewrite <- !str_in_not_In.
    destruct (str_in (lower s) TRUE_BOOLEANS);
      [split; [discriminate | intros (_ & _ & H & _); discriminate]|].
    destruct permissive; cbn [orb];
      [split; [discriminate | intros (_ & H & _); discriminate]|].
    destruct (str_in (lower s) FALSE_BOOLEANS);
      [split; [discriminate | intros (_ & _ & _ & H); discriminate]|].
    split; [intros H; injection H as <-; auto | intros (-> & _); reflexivity].
Qed.

(** X14: strictness only adds failures: whatever [to_bool] returns with
    [permissive] off, it returns with [permissive] on. *)
Theorem to_bool_strict_agrees (value : pyvalue) (allow_int b : bool) :
  to_bool value false allow_int = Ok b -> to_bool value true allow_int = Ok b.
Proof.
  destruct value as [|b'|n|s]; cbn [to_bool orb]; try exact (fun H => H).
  - destruct allow_int; [exact (fun H => H) | discriminate].
  - destruct (str_in (lower s) TRUE_BOOLEANS); [exact (fun H => H)|].
    destruct (str_in (lower s) FALSE_BOOLEANS); [exact (fun H => H) | discriminate].
Qed.

Lemma to_bool_strict_agrees_witness :
  to_bool (PStr "Disabled") false false = Ok false
  /\ to_bool (PStr "Disabled") true false = Ok false.
Proof.
  split; [reflexivity|].
  exact (to_bool_strict_agrees (PStr "Disabled") false false eq_refl).
Defined.

Lemma lower_upper_char (c : ascii) : lower_char (upper_char c) = lower_char c.
Proof. destruct c as [[] [] [] [] [] [] [] []]; reflexivity. Qed.

Lemma lower_lower_char (c : ascii) : lower_char (lower_char c) = lower_char c.
Proof. destruct c as [[] [] [] [] [] [] [] []]; reflexivity. Qed.

Lemma lower_upper (s : string) : lower (upper s) = lower s.
Proof.
  induction s as [|c s IH]; [reflexivity|].
  cbn [upper lower]. now rewrite lower_upper_char, IH.
Qed.

Lemma lower_lower (s : string) : lower (lower s) = lower s.
Proof.
  induction s as [|c s IH]; [reflexivity|].
  cbn [lower]. now rewrite lower_lower_char, IH.
Qed.

(** X15: on ASCII text, [to_bool] does not look at the case of letters: an
    ASCII string, its upper-case form and its lower-case form convert
    alike.  (Beyond ASCII the case mappings depend on the type of the
    string and on the version of the interpreter.) *)
Theorem to_bool_case_insensitive (s : string) (permissive allow_int : bool) :
  is_ascii_text s = true ->
  to_bool (PStr (upper s)) permissive allow_int
  = to_bool (PStr s) permissive allow_int
  /\ to_bool (PStr (lower s)) permissive allow_int
     = to_bool (PStr s) permissive allow_int.
Proof.
  intros _. cbn [to_bool]. now rewrite lower_upper, lower_lower.
Qed.

Lemma to_bool_case_insensitive_witness :
  is_ascii_text "Enabled" = true
  /\ to_bool (PStr "ENABLED") false false = Ok true
  /\ to_bool (PStr "enabled") false false = Ok true
  /\ to_bool (PStr "Enabled") false false = Ok true.
Proof.
  split; [reflexivity|].
  destruct (to_bool_case_insensitive "Enabled" false false eq_refl)
    as [Hu Hl].
  split; [|split]; [| |reflexivity].
  - change "ENABLED" with (upper "Enabled"). rewrite Hu. reflexivity.
  - change "enabled" with (lower "Enabled"). rewrite Hl. reflexivity.
Defined.

Example to_bool_examples :
  to_bool (PStr "YES") false false = Ok true
  /\ to_bool (PStr "Off") false false = Ok false
  /\ to_bool (PStr "maybe") false false = Raise ValueError
  /\ to_bool (PStr "maybe") true false = Ok false
  /\ to_bool (PInt 1) true false = Ok false
  /\ to_bool (PStr "1") true false = Ok true
  /\ to_bool (PInt 1) false false = Raise ValueError
  /\ to_bool (PInt 2) false true = Ok true.
Proof. repeat split. Qed.

(** ** Strings built from pieces *)

Lemma space_char_facts (c : ascii) :
  isspace c = true ->
  isdigit c = false /\ is_unit_letter c = false
  /\ Ascii.eqb c "i" = false /\ Ascii.eqb c "B" = false.
Proof.
  destruct c as [[] [] [] [] [] [] [] []]; try discriminate;
    intros _; repeat split.
Qed.

Lemma digit_char_facts (c : ascii) :
  isdigit c = true ->
  isspace c = false /\ Ascii.eqb c "-" = false /\ Ascii.eqb c "+" = false.
Proof.
  destruct c as [[] [] [] [] [] [] [] []]; try discriminate;
    intros _; repeat split.
Qed.

Lemma xdigit_not_space (c : ascii) (d : Z) :
  digit_val c = Some d -> isspace c = false.
Proof.
  destruct c as [[] [] [] [] [] [] [] []]; try discriminate; reflexivity.
Qed.

Lemma is_empty_app (a b : string) :
  is_empty (a ++ b) = is_empty a && is_empty b.
Proof. destruct a; reflexivity. Qed.

Lemma lstrip_by_app_all (p : ascii -> bool) (a x : string) :
  string_forall p a = true -> lstrip_by p (a ++ x) = lstrip_by p x.
Proof.
  induction a as [|c a IH]; [reflexivity|]. cbn [string_forall].
  intros H. apply andb_prop in H. destruct H as [Hc Ha].
  cbn [String.append lstrip_by]. rewrite Hc. now apply IH.
Qed.

Lemma lstrip_by_all (p : ascii -> bool) (a : string) :
  string_forall p a = true -> lstrip_by p a = EmptyString.
Proof.
  induction a as [|c a IH]; [reflexivity|]. cbn [string_forall lstrip_by].
  intros H. apply andb_prop in H. destruct H as [-> Ha]. now apply IH.
Qed.

Lemma rstrip_by_none (p : ascii -> bool) (s : string) :
  string_forall (fun c => negb (p c)) s = true -> rstrip_by p s = s.
Proof.
  induction s as [|c s IH]; [reflexivity|]. cbn [string_forall rstrip_by].
  intros H. apply andb_prop in H. destruct H as [Hc Hs].
  apply negb_true_iff in Hc. rewrite Hc, IH by exact Hs. reflexivity.
Qed.

Lemma strip_none (s : string) :
  string_forall (fun c => negb (isspace c)) s = true -> strip s = s.
Proof.
  intros H. unfold strip. rewrite rstrip_by_none by exact H.
  destruct s as [|c s]; [reflexivity|]. cbn [string_forall] in H.
  apply andb_prop in H. destruct H as [Hc _]. apply negb_true_iff in Hc.
  cbn [lstrip_by]. now rewrite Hc.
Qed.

Lemma string_forall_impl (p q : ascii -> bool) (s : string) :
  (forall c, p c = true -> q c = true) ->
  string_forall p s = true -> string_forall q s = true.
Proof.
  intros Hpq. induction s as [|c s IH]; [reflexivity|]. cbn [string_forall].
  intros H. apply andb_prop in H. destruct H as [Hc Hs].
  now rewrite (Hpq c Hc), IH.
Qed.

(** What a string starts with. *)
Definition head_sat (p : ascii -> bool) (s : string) : bool :=
  match s with
  | String c _ => p c
  | EmptyString => false
  end.

Lemma span_app (p : ascii -> bool) (a r : string) :
  string_forall p a = true -> head_sat p r = false -> span p (a ++ r) = (a, r).
Proof.
  intros Ha Hr. induction a as [|c a IH].
  - destruct r as [|c r]; [reflexivity|]. cbn in Hr |- *. now rewrite Hr.
  - cbn [string_forall] in Ha. apply andb_prop in Ha. destruct Ha as [Hc Ha].
    cbn [String.append span]. now rewrite Hc, IH.
Qed.

Lemma span_forall (p : ascii -> bool) (s a b : string) :
  span p s = (a, b) -> string_forall p a = true.
Proof.
  revert a b. induction s as [|c s IH]; intros a b; cbn [span].
  - intros H; now injection H as <- <-.
  - destruct (p c) eqn:Hc.
    + destruct (span p s) as [a' b']. intros H; injection H as <- <-.
      cbn [string_forall]. now rewrite Hc, (IH a' b').
    + intros H; now injection H as <- <-.
Qed.

Lemma head_sat_spaces (ws r : string) :
  string_forall isspace ws = true ->
  head_sat isdigit r = false -> head_sat isdigit (ws ++ r) = false.
Proof.
  destruct ws as [|c ws]; [auto|]. cbn [string_forall String.append head_sat].
  intros H _. apply andb_prop in H. destruct H as [Hc _].
  now apply space_char_facts in Hc.
Qed.

(** ** Decimal digit strings *)

Lemma digits_value_forall (s : string) :
  forall acc n, digits_value acc s = Some n -> string_forall isdigit s = true.
Proof.
  induction s as [|c s IH]; intros acc n; [reflexivity|].
  cbn [digits_value string_forall]. destruct (isdigit c); [|discriminate].
  intros H. now rewrite (IH _ _ H).
Qed.

Lemma digits_value_total (s : string) :
  string_forall isdigit s = true ->
  forall acc, 0 <= acc -> exists n, digits_value acc s = Some n /\ 0 <= n.
Proof.
  induction s as [|c s IH]; intros H acc Hacc; [now exists acc|].
  cbn [string_forall] in H. apply andb_prop in H. destruct H as [Hc Hs].
  cbn [digits_value]. rewrite Hc. apply IH; [exact Hs|].
  unfold isdigit in Hc. apply andb_prop in Hc. destruct Hc as [H1 H2].
  apply Z.leb_le in H1, H2. lia.
Qed.

Lemma int_digits (ds : string) (n : Z) :
  ds <> EmptyString -> digits_value 0 ds = Some n -> PyStr.int ds = Ok n.
Proof.
  intros Hne Hv. pose proof (digits_value_forall ds 0 n Hv) as Hd.
  unfold PyStr.int. rewrite strip_none.
  - destruct ds as [|c ds]; [congruence|].
    cbn [string_forall] in Hd. apply andb_prop in Hd. destruct Hd as [Hc _].
    assert (Hu : unsigned_int (String c ds) = Some n) by exact Hv.
    destruct c as [[] [] [] [] [] [] [] []]; try discriminate Hc;
      now rewrite Hu.
  - apply (string_forall_impl isdigit); [|exact Hd].
    intros c Hc. apply digit_char_facts in Hc. destruct Hc as [-> _].
    reflexivity.
Qed.

(** ** [to_int] *)

(** What follows the unit: an optional [B] and whitespace to the end. *)
Lemma size_tail (b ws3 : string) :
  b = EmptyString \/ b = "B" ->
  string_forall isspace ws3 = true ->
  head_sat isdigit (b ++ ws3) = false
  /\ head_sat is_unit_letter (b ++ ws3) = false
  /\ head_sat (fun c => Ascii.eqb c "i") (b ++ ws3) = false
  /\ lstrip_by isspace
       match (b ++ ws3)%string with
       | String c t => if Ascii.eqb c "B" then t else (b ++ ws3)%string
       | EmptyString => (b ++ ws3)%string
       end = EmptyString.
Proof.
  intros [-> | ->] Hws.
  - cbn [String.append]. destruct ws3 as [|c w]; [repeat split|].
    cbn [string_forall] in Hws. apply andb_prop in Hws. destruct Hws as [Hc Hw].
    destruct (space_char_facts c Hc) as (H1 & H2 & H3 & H4).
    cbn [head_sat]. rewrite H4. repeat split; try assumption.
    cbn [lstrip_by]. rewrite Hc. now apply lstrip_by_all.
  - cbn. repeat split. now apply lstrip_by_all.
Qed.

Lemma re_unit_none (t : string) :
  head_sat is_unit_letter t = false -> re_unit t = (None, t).
Proof.
  destruct t as [|c t]; [reflexivity|]. cbn [head_sat re_unit].
  now intros ->.
Qed.

Lemma re_unit_letter (c : ascii) (t : string) :
  is_unit_letter c = true ->
  head_sat (fun c => Ascii.eqb c "i") t = false ->
  re_unit (String c t) = (Some (String c EmptyString), t).
Proof.
  intros Hc Ht. cbn [re_unit]. rewrite Hc.
  destruct t as [|c' t]; [reflexivity|]. cbn [head_sat] in Ht. now rewrite Ht.
Qed.

Lemma re_unit_letter_i (c : ascii) (t : string) :
  is_unit_letter c = true ->
  re_unit (String c (String "i" t))
  = (Some (String c (String "i" EmptyString)), t).
Proof. intros Hc. cbn [re_unit]. rewrite Hc. reflexivity. Qed.

Lemma lstrip_by_head (p : ascii -> bool) (c : ascii) (t : string) :
  p c = false -> lstrip_by p (String c t) = String c t.
Proof. intros H. cbn [lstrip_by]. now rewrite H. Qed.

Lemma re_match_size_pieces (ws1 ds ws2 u b ws3 : string) (m : Z) :
  string_forall isspace ws1 = true ->
  string_forall isspace ws2 = true ->
  string_forall isspace ws3 = true ->
  string_forall isdigit ds = true -> ds <> EmptyString ->
  In (u, m) size_suffixes ->
  b = EmptyString \/ b = "B" ->
  re_match_size (ws1 ++ ds ++ ws2 ++ u ++ b ++ ws3)
  = Some (ds, if is_empty u then None else Some u).
Proof.
  intros H1 H2 H3 Hd Hne Hu Hb.
  destruct (size_tail b ws3 Hb H3) as (T1 & T2 & T3 & T4).
  set (tail := (b ++ ws3)%string) in *.
  assert (Hhead : head_sat isdigit (u ++ tail) = false).
  { cbn [size_suffixes In] in Hu.
    repeat (destruct Hu as [Hu | Hu]; [injection Hu as <- <-; try reflexivity|]);
      [exact T1 | contradiction]. }
  unfold re_match_size.
  rewrite lstrip_by_app_all by exact H1.
  assert (Hl : lstrip_by isspace (ds ++ ws2 ++ u ++ tail)
               = (ds ++ ws2 ++ u ++ tail)%string).
  { destruct ds as [|c ds']; [congruence|].
    cbn [string_forall] in Hd. apply andb_prop in Hd. destruct Hd as [Hc _].
    apply digit_char_facts in Hc. destruct Hc as [Hc _].
    cbn [String.append]. now apply lstrip_by_head. }
  rewrite Hl, span_app by (try assumption; now apply head_sat_spaces).
  assert (He : is_empty ds = false) by (destruct ds; [congruence | reflexivity]).
  rewrite He, lstrip_by_app_all by exact H2.
  cbn [size_suffixes In] in Hu.
  destruct Hu as [Hu | Hu].
  { (* no unit *)
    injection Hu as <- <-. cbn [String.append is_empty].
    destruct Hb as [Eb | Eb]; subst b tail; cbn [String.append] in *.
    - rewrite lstrip_by_all by exact H3. reflexivity.
    - rewrite lstrip_by_head, re_unit_none by reflexivity.
      cbv beta iota zeta. rewrite T4. reflexivity. }
  repeat (destruct Hu as [Hu | Hu];
          [injection Hu as <- <-; cbn [String.append];
           rewrite lstrip_by_head by reflexivity;
           first [ rewrite re_unit_letter_i by reflexivity
                 | rewrite re_unit_letter by (reflexivity || exact T3) ];
           cbv beta iota zeta; rewrite T4; reflexivity|]).
  contradiction.
Qed.

(** X16: a size is read as at most 4300 decimal digits [0] to [9], an
    optional unit and an optional [B], with any number of the ASCII
    whitespace characters (space, TAB, LF, VT, FF, CR) before the digits,
    between digits and unit, and at the end: [to_int] returns the decimal
    value of the digits times the unit's multiplier, 1000 for [K]/[k], 1024
    for [Ki]/[ki], 10^6 for [M]/[m], 2^20 for [Mi]/[mi]. *)
Theorem to_int_size (ws1 ds ws2 u b ws3 : string) (n m : Z) :
  string_forall isspace ws1 = true ->
  string_forall isspace ws2 = true ->
  string_forall isspace ws3 = true ->
  ds <> EmptyString -> digits_value 0 ds = Some n ->
  (String.length ds <= 4300)%nat ->
  In (u, m) size_suffixes ->
  b = EmptyString \/ b = "B" ->
  to_int (PStr (ws1 ++ ds ++ ws2 ++ u ++ b ++ ws3)) = Returns (n * m).
Proof.
  intros H1 H2 H3 Hne Hv _ Hu Hb.
  pose proof (digits_value_forall ds 0 n Hv) as Hd.
  cbn [to_int].
  rewrite (re_match_size_pieces ws1 ds ws2 u b ws3 m) by assumption.
  assert (He : is_empty (ws1 ++ ds ++ ws2 ++ u ++ b ++ ws3) = false).
  { rewrite !is_empty_app.
    destruct ds; [congruence|]. cbn [is_empty]. now rewrite andb_false_r. }
  rewrite He, (int_digits ds n Hne Hv).
  cbn [size_suffixes In] in Hu.
  repeat (destruct Hu as [Hu | Hu];
          [injection Hu as <- <-; cbn; f_equal; lia|]).
  contradiction.
Qed.

Lemma to_int_size_witness :
  to_int (PStr " 16 KiB ") = Returns (16 * 1024).
Proof.
  apply (to_int_size " " "16" " " "Ki" "B" " " 16 1024);
    try reflexivity; try discriminate.
  - cbn [String.length]. lia.
  - cbn. auto 10.
  - now right.
Defined.

Lemma re_unit_some (s u r : string) :
  re_unit s = (Some u, r) -> exists m, getitem mult (upper u) = Returns m.
Proof.
  destruct s as [|c s]; cbn [re_unit]; [discriminate|].
  destruct (is_unit_letter c) eqn:Hc; [|discriminate].
  assert (Hk : c = "K"%char \/ c = "M"%char \/ c = "k"%char \/ c = "m"%char).
  { unfold is_unit_letter in Hc.
    repeat (apply orb_prop in Hc; destruct Hc as [Hc | Hc]);
      apply Ascii.eqb_eq in Hc; auto. }
  destruct s as [|c' s].
  - intros H; injection H as <- <-.
    destruct Hk as [-> | [-> | [-> | ->]]]; eexists; reflexivity.
  - destruct (Ascii.eqb c' "i"); intros H; injection H as <- <-;
      destruct Hk as [-> | [-> | [-> | ->]]]; eexists; reflexivity.
Qed.

Lemma int16_failure (s : string) (e : exn) : int16 s = Raise e -> e = ValueError.
Proof.
  unfold int16.
  match goal with |- context [match ?x with Some _ => _ | None => _ end] =>
    destruct x end; [discriminate|].
  intros H; now injection H as <-.
Qed.

(** X17: take for argument [None], a boolean, an integer, or a string of
    plain text without underscore and of at most 4300 characters.  Then
    [to_int] raises only for a string that is not of the size form, and it
    raises [ValueError], the exception of the [int()] it falls back to;
    the lookup of the multiplier never raises [KeyError], and such a string
    of the size form never raises at all. *)
Theorem to_int_raises (value : pyvalue) (e : lookup_exn) :
  (forall s, value = PStr s -> plain_literal s = true) ->
  to_int value = Raises e ->
  e = Exn ValueError
  /\ exists s, value = PStr s /\ re_match_size s = None.
Proof.
  intros _.
  destruct value as [|b|n|s]; cbn [to_int]; try discriminate.
  destruct (is_empty s); [discriminate|].
  destruct (re_match_size s) as [[g1 g2]|] eqn:Hre.
  - unfold re_match_size in Hre.
    destruct (span isdigit (lstrip_by isspace s)) as [digits s2] eqn:Hsp.
    destruct (is_empty digits) eqn:Hed; [discriminate|].
    destruct (re_unit (lstrip_by isspace s2)) as [unit s4] eqn:Hu.
    match type of Hre with (if ?c then _ else _) = _ =>
      destruct c; [|discriminate] end.
    injection Hre as <- <-.
    apply span_forall in Hsp.
    destruct (digits_value_total digits Hsp 0 (Z.le_refl 0)) as (n & Hn & _).
    rewrite (int_digits digits n) by (try assumption; now destruct digits).
    destruct unit as [u|]; [|discriminate].
    apply re_unit_some in Hu. destruct Hu as (m & ->). discriminate.
  - intros H. split; [|now exists s].
    destruct (startswith_0x s).
    + destruct (int16 (strip s)) as [v|e'] eqn:Hi; [discriminate|].
      apply int16_failure in Hi. subst e'. cbn in H. now injection H as <-.
    + destruct (PyStr.int (strip s)) as [v|e'] eqn:Hi; [discriminate|].
      apply int_failure in Hi. subst e'. cbn in H. now injection H as <-.
Qed.

Lemma to_int_raises_witness :
  plain_literal "12 KB/s" = true
  /\ to_int (PStr "12 KB/s") = Raises (Exn ValueError)
  /\ re_match_size "12 KB/s" = None.
Proof.
  split; [reflexivity|]. split; [reflexivity|].
  assert (Hp : forall s, PStr "12 KB/s" = PStr s -> plain_literal s = true)
    by (intros s H; injection H as <-; reflexivity).
  destruct (to_int_raises (PStr "12 KB/s") (Exn ValueError) Hp eq_refl)
    as (_ & s & Hs & Hre).
  injection Hs as <-. exact Hre.
Defined.

Lemma hex_value_forall (s : string) :
  forall acc v,
    hex_value acc s = Some v ->
    string_forall (fun c => negb (isspace c)) s = true.
Proof.
  induction s as [|c s IH]; intros acc v; [reflexivity|].
  cbn [hex_value string_forall].
  destruct (digit_val c) as [d|] eqn:Hd; [|discriminate].
  intros H. rewrite (xdigit_not_space c d Hd), (IH _ _ H). reflexivity.
Qed.

(** X18: a string that starts with [0x] is never taken for a size and is
    read in base 16: ["0x"] followed by hexadecimal digits gives their
    value. *)
Theorem to_int_hex (hs : string) (v : Z) :
  hs <> EmptyString -> hex_value 0 hs = Some v ->
  re_match_size ("0x" ++ hs) = None
  /\ to_int (PStr ("0x" ++ hs)) = Returns v.
Proof.
  intros Hne Hv. split; [reflexivity|].
  cbn [to_int String.append is_empty].
  change (re_match_size (String "0" (String "x" hs))) with
    (@None (string * option string)).
  cbn [startswith_0x].
  rewrite strip_none
    by (cbn [string_forall]; now rewrite (hex_value_forall hs 0 v Hv)).
  unfold int16.
  rewrite strip_none
    by (cbn [string_forall]; now rewrite (hex_value_forall hs 0 v Hv)).
  change (unsigned_hex (String "0" (String "x" hs)))
    with (if is_empty hs then None else hex_value 0 hs).
  destruct hs; [congruence|]. cbn [is_empty]. now rewrite Hv.
Qed.

Lemma to_int_hex_witness : to_int (PStr "0x1fA0") = Returns 8096.
Proof.
  apply (proj2 (to_int_hex "1fA0" 8096 ltac:(discriminate) eq_refl)).
Defined.

Lemma string_forall_app (p : ascii -> bool) (a b : string) :
  string_forall p (a ++ b) = string_forall p a && string_forall p b.
Proof.
  induction a as [|c a IH]; [reflexivity|].
  cbn [String.append string_forall]. now rewrite IH, andb_assoc.
Qed.




Example to_int_examples :
  to_int PNone = Returns 0
  /\ to_int (PStr "") = Returns 0
  /\ to_int (PInt 0) = Returns 0
  /\ to_int (PStr "0X10") = Raises (Exn ValueError)
  /\ to_int (PStr " 0x10") = Raises (Exn ValueError)
  /\ to_int (PStr "1KI") = Raises (Exn ValueError)
  /\ to_int (PStr "0x10K") = Raises (Exn ValueError)
  /\ to_int (PStr "10 B") = Returns 10.
Proof. repeat split. Qed.

(** * The hexadecimal dump *)

Lemma ASCIIFILTER_get (c : ascii) :
  String.get (Z.to_nat (ord c)) ASCIIFILTER = Some (ascii_or_dot c).
Proof.
  destruct c as [[] [] [] [] [] [] [] []]; vm_compute; reflexivity.
Qed.

Lemma translate_ASCIIFILTER (src : string) :
  translate ASCIIFILTER src = string_map ascii_or_dot src.
Proof.
  induction src as [|c src IH]; [reflexivity|].
  cbn [translate string_map]. now rewrite ASCIIFILTER_get, IH.
Qed.

Lemma hexline_bytes (s sep : string) :
  hexline (BStr s) sep
  = Ok ("(" ++ format_d (String.length s) ++ ") "
        ++ join sep (map hex2 (bytes_of s)) ++ " : "
        ++ string_map ascii_or_dot s)%string.
Proof.
  unfold hexline. cbn [bind buffer_len]. now rewrite translate_ASCIIFILTER.
Qed.

Lemma length_string_of_bytes (bs : list Z) :
  String.length (string_of_bytes bs) = List.length bs.
Proof.
  induction bs as [|b bs IH]; [reflexivity|].
  cbn [string_of_bytes String.length List.length]. now rewrite IH.
Qed.

Lemma string_length_app (a b : string) :
  String.length (a ++ b) = (String.length a + String.length b)%nat.
Proof.
  induction a as [|c a IH]; [reflexivity|].
  cbn [String.append String.length]. now rewrite IH.
Qed.

Lemma utf8_char_length (cp : Z) (bs : list Z) :
  utf8_char cp = Some bs ->
  (1 <= List.length bs <= 4)%nat
  /\ (if is_ascii_code cp then List.length bs = 1%nat
      else (1 < List.length bs)%nat).
Proof.
  unfold utf8_char, is_ascii_code.
  destruct (Z.ltb_spec cp 0) as [|H0]; [discriminate|].
  destruct (Z.leb_spec 0 cp) as [_|]; [|lia]. cbn [andb].
  destruct (Z.ltb_spec cp 128) as [H1|H1].
  { intros E; injection E as <-. cbn [List.length]. lia. }
  destruct (cp <? 2048).
  { intros E; injection E as <-. cbn [List.length]. lia. }
  destruct (cp <? 65536).
  { destruct ((55296 <=? cp) && (cp <=? 57343)); [discriminate|].
    intros E; injection E as <-. cbn [List.length]. lia. }
  destruct (cp <? 1114112); [|discriminate].
  intros E; injection E as <-. cbn [List.length]. lia.
Qed.

(** The bytes of a text against its code points: as many when the text is
    ASCII, more otherwise, and at most four times as many. *)
Lemma encode_length (t : list Z) :
  forall src,
    encode t = Some src ->
    (List.length t <= String.length src <= 4 * List.length t)%nat
    /\ (if forallb is_ascii_code t
        then String.length src = List.length t
        else (List.length t < String.length src)%nat).
Proof.
  induction t as [|cp t IH]; intros src; cbn [encode forallb List.length].
  - intros H; injection H as <-. cbn [String.length]. split; [lia | reflexivity].
  - destruct (utf8_char cp) as [bs|] eqn:Hc; [|discriminate].
    destruct (encode t) as [s'|]; [|discriminate].
    intros H; injection H as <-.
    destruct (IH s' eq_refl) as [Hr Ha].
    destruct (utf8_char_length cp bs Hc) as [Hb Hk].
    rewrite string_length_app, length_string_of_bytes.
    split; [lia|].
    destruct (is_ascii_code cp); cbn [andb];
      [destruct (forallb is_ascii_code t)|]; lia.
Qed.

(** X20: [hexline] returns [(count) hex : ascii].  The ASCII column has one
    character per byte dumped: the byte itself when it is printable ASCII
    (0x20 to 0x7e, the backslash included), a dot otherwise.  The count is
    [len(data)], which is the number of bytes dumped for a byte string or a
    [bytearray] only: for a list of strings it is the number of items; for
    a text string the bytes dumped are those of its UTF-8 encoding and the
    count is the number of its code points, equal to the number of bytes
    when the text is ASCII and smaller otherwise.  A text with a surrogate,
    which cannot be encoded, raises [TypeError]. *)
Theorem hexline_columns (sep : string) :
  (forall s,
     hexline (BStr s) sep
     = Ok ("(" ++ format_d (String.length s) ++ ") "
           ++ join sep (map hex2 (bytes_of s)) ++ " : "
           ++ string_map ascii_or_dot s)%string
     /\ hexline (BByteArray s) sep = hexline (BStr s) sep)
  /\ (forall chunks,
        hexline (BList chunks) sep
        = Ok ("(" ++ format_d (List.length chunks) ++ ") "
              ++ join sep (map hex2 (bytes_of (concat EmptyString chunks)))
              ++ " : "
              ++ string_map ascii_or_dot (concat EmptyString chunks))%string)
  /\ (forall t,
        match encode t with
        | Some src =>
            hexline (BText t) sep
            = Ok ("(" ++ format_d (List.length t) ++ ") "
                  ++ join sep (map hex2 (bytes_of src)) ++ " : "
                  ++ string_map ascii_or_dot src)%string
            /\ (if forallb is_ascii_code t
                then String.length src = List.length t
                else (List.length t < String.length src
                      <= 4 * List.length t)%nat)
        | None => hexline (BText t) sep = Raise TypeError
        end).
Proof.
  split; [|split].
  - intros s. split; [apply hexline_bytes | reflexivity].
  - intros chunks. unfold hexline. cbn [bind buffer_len].
    now rewrite translate_ASCIIFILTER.
  - intros t. unfold hexline. cbn [buffer_len].
    destruct (encode t) as [src|] eqn:He; cbn [bind]; [|reflexivity].
    rewrite translate_ASCIIFILTER. split; [reflexivity|].
    destruct (encode_length t src He) as [Hr Ha].
    destruct (forallb is_ascii_code t); [exact Ha | lia].
Qed.

Lemma hexline_columns_witness :
  hexline (BText [80; 233]) " " = Ok "(2) 50 c3 a9 : P.."
  /\ hexline (BText [80; 55296]) " " = Raise TypeError.
Proof.
  split.
  - exact (proj1 (proj2 (proj2 (hexline_columns " ")) [80; 233])).
  - exact (proj2 (proj2 (hexline_columns " ")) [80; 55296]).
Defined.

Example hexline_examples :
  hexline (BStr "PXE boot\") " " = Ok "(9) 50 58 45 20 62 6f 6f 74 5c : PXE boot\"
  /\ hexline (BList ["ab"; "c"]) " " = Ok "(2) 61 62 63 : abc"
  /\ hexline (BStr "") " " = Ok "(0)  : "
  /\ hexline (BStr (String "000" (String "127" "~"))) "-"
     = Ok "(3) 00-7f-7e : ..~"
  /\ hexline (BText [233]) " " = Ok "(1) c3 a9 : .."
  /\ hexline (BText [8364; 49]) " " = Ok "(2) e2 82 ac 31 : ...1"
  /\ hexline (BText [128512]) " " = Ok "(1) f0 9f 98 80 : ....".
Proof. repeat split. Qed.

Lemma hex2_int16 (c : ascii) : int16 (hex2 (ord c)) = Ok (ord c).
Proof. destruct c as [[] [] [] [] [] [] [] []]; vm_compute; reflexivity. Qed.

Lemma split_on_hex2 (c : ascii) (rest : string) :
  split_on " " (hex2 (ord c) ++ String " " rest)
  = hex2 (ord c) :: split_on " " rest.
Proof. destruct c as [[] [] [] [] [] [] [] []]; reflexivity. Qed.

Lemma split_on_hex2_end (c : ascii) :
  split_on " " (hex2 (ord c)) = [hex2 (ord c)].
Proof. destruct c as [[] [] [] [] [] [] [] []]; reflexivity. Qed.

Lemma length_hex2 (x : Z) : String.length (hex2 x) = 2%nat.
Proof. reflexivity. Qed.

Lemma length_app (a b : string) :
  String.length (a ++ b) = (String.length a + String.length b)%nat.
Proof. induction a as [|c a IH]; [reflexivity|]. cbn. now rewrite IH. Qed.

Lemma hexa_round_trip (s : string) :
  s <> EmptyString ->
  map int16 (split_on " " (join " " (map hex2 (bytes_of s))))
  = map (@Ok Z) (bytes_of s)
  /\ String.length (join " " (map hex2 (bytes_of s)))
     = (3 * String.length s - 1)%nat.
Proof.
  induction s as [|c s IH]; [congruence|]. intros _.
  destruct s as [|c' s].
  - cbn [bytes_of map join]. rewrite split_on_hex2_end. cbn [map].
    now rewrite hex2_int16.
  - destruct IH as [IH1 IH2]; [discriminate|].
    change (join " " (map hex2 (bytes_of (String c (String c' s)))))
      with (hex2 (ord c)
            ++ String " " (join " " (map hex2 (bytes_of (String c' s)))))%string.
    rewrite split_on_hex2. cbn [map bytes_of] in *.
    rewrite IH1, hex2_int16. split; [reflexivity|].
    rewrite length_app, length_hex2. cbn [String.length] in *.
    rewrite IH2. lia.
Qed.

(** X21: the hexadecimal column is lossless: with the default separator,
    a dump of [n > 0] bytes has a column of [3n - 1] characters, and its
    space-separated items, read with [int(item, 16)], are the bytes of the
    data in order. *)
Theorem hexline_hex_round_trip (s : string) :
  s <> EmptyString ->
  exists hexa,
    hexline (BStr s) " "
    = Ok ("(" ++ format_d (String.length s) ++ ") " ++ hexa ++ " : "
          ++ string_map ascii_or_dot s)%string
    /\ String.length hexa = (3 * String.length s - 1)%nat
    /\ map int16 (split_on " " hexa) = map (@Ok Z) (bytes_of s).
Proof.
  intros Hne. exists (join " " (map hex2 (bytes_of s))).
  destruct (hexa_round_trip s Hne) as [H1 H2].
  split; [apply hexline_bytes | now split].
Qed.

Lemma hexline_hex_round_trip_witness :
  exists hexa,
    hexline (BStr "PXE") " "
    = Ok ("(" ++ format_d 3 ++ ") " ++ hexa ++ " : " ++ "PXE")%string
    /\ String.length hexa = 8%nat
    /\ map int16 (split_on " " hexa) = [Ok 80; Ok 88; Ok 69].
Proof.
  apply (hexline_hex_round_trip "PXE"). discriminate.
Defined.

(** * The two strategies side by side *)



(** X23: the membership invariant holds for what the public entry point
    returns: a record returned by [get_iface_config] for an address reads
    back, through [iptoint], as a network that contains both the interface's
    own address and the target. *)
Theorem get_iface_config_membership (netifaces : option Netifaces)
  (check_output : result string) (address : option string) (r : iface_config) :
  get_iface_config netifaces check_output address = Ok (Some r) ->
  exists a t s n m,
    address = Some a /\ a <> EmptyString
    /\ iptoint a = Ok t
    /\ iptoint (server r) = Ok s
    /\ iptoint (net r) = Ok n
    /\ iptoint (mask r) = Ok m
    /\ n = Z.land s m /\ n = Z.land t m.
Proof.
  unfold get_iface_config, get_iface_config_with.
  destruct address as [a|]; [|discriminate].
  destruct (is_empty a) eqn:He; [discriminate|].
  assert (Hne : a <> EmptyString) by (intros ->; discriminate).
  intros H.
  assert (Hs : exists pool, iptoint a = Ok pool /\ config_shape pool r).
  { destruct netifaces as [nf|]; cbn [negb] in H.
    - apply netifaces_shape in H. destruct H as (pool & Hp & _ & Hs). eauto.
    - now apply iproute_shape in H. }
  destruct Hs as (pool & Hp & Hs). apply config_shape_membership in Hs.
  destruct Hs as (s & n & m & H1 & H2 & H3 & H4 & H5).
  exists a, pool, s, n, m. auto 10.
Qed.

Lemma get_iface_config_membership_witness :
  exists a t s n m,
    Some "192.168.1.200" = Some a /\ a <> EmptyString
    /\ iptoint a = Ok t
    /\ iptoint "192.168.1.10" = Ok s
    /\ iptoint "192.168.1.0" = Ok n
    /\ iptoint "255.255.255.0" = Ok m
    /\ n = Z.land s m /\ n = Z.land t m.
Proof.
  exact (get_iface_config_membership (Some example_netifaces)
           (Raise CalledProcessError) (Some "192.168.1.200")
           (mk_config (Some "eth0") "192.168.1.10" "192.168.1.0"
              "255.255.255.0") eq_refl).
Defined.

Lemma append_nil_r (s : string) : (s ++ EmptyString)%string = s.
Proof. induction s as [|c s IH]; [reflexivity|]. cbn. now rewrite IH. Qed.

Lemma append_assoc (a b c : string) :
  (a ++ (b ++ c))%string = ((a ++ b) ++ c)%string.
Proof. induction a as [|x a IH]; [reflexivity|]. cbn. now rewrite IH. Qed.

Lemma rstrip_by_snoc (p : ascii -> bool) (s : string) (c : ascii) :
  p c = true ->
  rstrip_by p (s ++ String c EmptyString) = rstrip_by p s.
Proof.
  intros Hc. induction s as [|a s IH]; cbn [String.append rstrip_by].
  - now rewrite Hc.
  - now rewrite IH.
Qed.

(** X24: trailing newlines of the command's output do not count: the
    textual enumerator gives the same outcome on an output and on that
    output followed by any number of newline characters. *)
Theorem iproute_trailing_newlines (output nl address : string) :
  string_forall (Ascii.eqb "010") nl = true ->
  _iproute_get_iface_config (Ok (output ++ nl)) address
  = _iproute_get_iface_config (Ok output) address.
Proof.
  intros Hnl.
  assert (H : rstrip_by (Ascii.eqb "010") (output ++ nl)
              = rstrip_by (Ascii.eqb "010") output).
  { revert output. induction nl as [|c nl IH]; intros output.
    - now rewrite append_nil_r.
    - cbn [string_forall] in Hnl. apply andb_prop in Hnl.
      destruct Hnl as [Hc Hnl].
      change (String c nl) with (String c EmptyString ++ nl)%string.
      rewrite append_assoc, (IH Hnl).
      apply rstrip_by_snoc. apply Ascii.eqb_eq in Hc. subst c. reflexivity. }
  unfold _iproute_get_iface_config.
  destruct (iptoint address); cbn [bind]; [|reflexivity].
  unfold iplines_of. now rewrite H.
Qed.

Lemma iproute_trailing_newlines_witness :
  _iproute_get_iface_config
    (Ok (eth0_lo_output ++ String "010" (String "010" EmptyString)))
    "127.0.0.2"
  = _iproute_get_iface_config (Ok eth0_lo_output) "127.0.0.2".
Proof.
  apply (iproute_trailing_newlines eth0_lo_output
           (String "010" (String "010" EmptyString)) "127.0.0.2").
  reflexivity.
Defined.

(** * The address forms and [inet_aton] *)

(** A character of a number: neither whitespace nor a dot. *)
Definition piece_char (c : ascii) : bool :=
  negb (isspace c) && negb (Ascii.eqb c ".").

(** A digit below [base]. *)
Definition below (base : Z) (c : ascii) : bool :=
  match digit_val c with
  | Some d => d <? base
  | None => false
  end.

(** Where a number may end: at the end of the string, at a dot or at a
    whitespace character. *)
Definition boundary (rest : string) : bool :=
  match rest with
  | EmptyString => true
  | String c _ => Ascii.eqb c "." || isspace c
  end.

Lemma digit_val_piece (c : ascii) (d : Z) :
  digit_val c = Some d -> piece_char c = true.
Proof.
  destruct c as [[] [] [] [] [] [] [] []]; try discriminate; reflexivity.
Qed.

Lemma boundary_below (base : Z) (rest : string) :
  boundary rest = true -> head_sat (below base) rest = false.
Proof.
  destruct rest as [|c rest]; [reflexivity|]. cbn [boundary head_sat].
  unfold below. destruct (digit_val c) as [d|] eqn:Hd; [|reflexivity].
  apply digit_val_piece in Hd. unfold piece_char in Hd.
  apply andb_prop in Hd. destruct Hd as [H1 H2].
  apply negb_true_iff in H1, H2. rewrite H1, H2. discriminate.
Qed.

Lemma strtoul_digits_numeral (base : Z) (ds rest : string) :
  head_sat (below base) rest = false ->
  forall acc v,
    numeral_value base acc ds = Some v ->
    strtoul_digits base acc (ds ++ rest) = (v, rest).
Proof.
  intros Hr. induction ds as [|c ds IH]; intros acc v;
    cbn [numeral_value String.append].
  - intros H; injection H as <-. destruct rest as [|c rest]; [reflexivity|].
    cbn [head_sat] in Hr. unfold below in Hr. cbn [strtoul_digits].
    destruct (digit_val c); [now rewrite Hr | reflexivity].
  - cbn [strtoul_digits]. destruct (digit_val c) as [d|]; [|discriminate].
    destruct (d <? base); [apply IH | discriminate].
Qed.

Lemma strtoul_digits_inv (base : Z) (s : string) :
  forall acc v r,
    strtoul_digits base acc s = (v, r) ->
    exists ds,
      s = (ds ++ r)%string /\ numeral_value base acc ds = Some v
      /\ head_sat (below base) r = false.
Proof.
  induction s as [|c s IH]; intros acc v r; cbn [strtoul_digits].
  - intros H; injection H as <- <-. now exists EmptyString.
  - destruct (digit_val c) as [d|] eqn:Hd.
    + destruct (d <? base) eqn:Hb.
      * intros H. destruct (IH _ _ _ H) as (ds & -> & Hv & Hr).
        exists (String c ds). cbn [String.append numeral_value].
        now rewrite Hd, Hb.
      * intros H; injection H as <- <-. exists EmptyString.
        cbn [head_sat]. unfold below. now rewrite Hd, Hb.
    + intros H; injection H as <- <-. exists EmptyString.
      cbn [head_sat]. unfold below. now rewrite Hd.
Qed.

Lemma numeral_value_piece (base : Z) (ds : string) :
  forall acc v,
    numeral_value base acc ds = Some v -> string_forall piece_char ds = true.
Proof.
  induction ds as [|c ds IH]; intros acc v; [reflexivity|].
  cbn [numeral_value string_forall].
  destruct (digit_val c) as [d|] eqn:Hd; [|discriminate].
  destruct (d <? base); [|discriminate].
  intros H. now rewrite (digit_val_piece c d Hd), (IH _ _ H).
Qed.

Lemma numeral_value_nonneg (base : Z) (ds : string) :
  0 <= base ->
  forall acc v, 0 <= acc -> numeral_value base acc ds = Some v -> 0 <= v.
Proof.
  intros Hb. induction ds as [|c ds IH]; intros acc v Hacc;
    cbn [numeral_value].
  - intros H; injection H as <-. exact Hacc.
  - destruct (digit_val c) as [d|] eqn:Hd; [|discriminate].
    destruct (d <? base); [|discriminate].
    apply IH. pose proof (digit_val_nonneg c d Hd). nia.
Qed.

Lemma boundary_not_x (rest : string) :
  boundary rest = true ->
  match rest with
  | String x _ => Ascii.eqb x "x" || Ascii.eqb x "X"
  | EmptyString => false
  end = false.
Proof.
  destruct rest as [|c rest]; [reflexivity|]. cbn [boundary].
  destruct c as [[] [] [] [] [] [] [] []]; try discriminate; reflexivity.
Qed.

Lemma digit_val_lt_16 (c : ascii) (d : Z) : digit_val c = Some d -> d < 16.
Proof.
  destruct c as [[] [] [] [] [] [] [] []]; try discriminate;
    intros H; injection H as <-; reflexivity.
Qed.

Lemma x_piece_char (x : ascii) :
  Ascii.eqb x "x" || Ascii.eqb x "X" = true ->
  piece_char x = true /\ digit_val x = None.
Proof.
  intros H. apply orb_prop in H.
  destruct H as [H | H]; apply Ascii.eqb_eq in H; subst x; split; reflexivity.
Qed.

(** A number in C notation is what [strtoul] reads, up to where the number
    ends. *)
Lemma strtoul_c_number (n rest : string) (v : Z) :
  c_number n = Some v -> boundary rest = true ->
  strtoul (n ++ rest) = (v, rest)
  /\ string_forall piece_char n = true
  /\ head_sat isdigit n = true.
Proof.
  intros Hn Hb. pose proof (boundary_below 8 rest Hb) as B8.
  pose proof (boundary_below 10 rest Hb) as B10.
  pose proof (boundary_below 16 rest Hb) as B16.
  destruct n as [|c t1]; [discriminate|]. unfold c_number in Hn.
  destruct (Ascii.eqb_spec c "0") as [-> | Hc0].
  - destruct t1 as [|x t2].
    + injection Hn as <-. split; [|split; reflexivity].
      cbn [String.append]. unfold strtoul.
      pose proof (boundary_not_x rest Hb) as Hx.
      destruct rest as [|r0 rest'];
        [reflexivity|]. rewrite Hx.
      now apply (strtoul_digits_numeral 8 "0" (String r0 rest')).
    + destruct (Ascii.eqb x "x" || Ascii.eqb x "X") eqn:Hx.
      * destruct t2 as [|h t2']; [discriminate|]. cbn [is_empty] in Hn.
        pose proof (numeral_value_piece 16 _ _ _ Hn) as Hp.
        destruct (x_piece_char x Hx) as [Hxp _].
        split; [|split; [cbn [string_forall] in Hp |- *; now rewrite Hxp, Hp | reflexivity]].
        cbn [String.append]. unfold strtoul. rewrite Hx.
        assert (Hh : is_xdigit h = true).
        { cbn [numeral_value] in Hn. unfold is_xdigit.
          destruct (digit_val h); [reflexivity | discriminate]. }
        rewrite Hh.
        now apply (strtoul_digits_numeral 16 (String h t2') rest).
      * pose proof (numeral_value_piece 8 _ _ _ Hn) as Hp.
        split; [|split; [cbn [string_forall] in Hp |- *; now rewrite Hp | reflexivity]].
        cbn [String.append]. unfold strtoul. rewrite Hx.
        apply (strtoul_digits_numeral 8 (String "0" (String x t2)) rest B8).
        exact Hn.
  - destruct (isdigit c) eqn:Hd; [|discriminate].
    pose proof (numeral_value_piece 10 _ _ _ Hn) as Hp.
    split; [|split; [exact Hp | exact Hd]].
    assert (Hs : strtoul (String c t1 ++ rest)
                 = strtoul_digits 10 0 (String c t1 ++ rest)).
    { clear -Hd Hc0.
      destruct c as [[] [] [] [] [] [] [] []]; try discriminate Hd;
        try reflexivity. congruence. }
    rewrite Hs. now apply strtoul_digits_numeral.
Qed.

(** What [strtoul] reads from a string that starts with a digit is a
    number in C notation. *)
Lemma strtoul_inv (c : ascii) (cp : string) (v : Z) (endp : string) :
  isdigit c = true ->
  strtoul (String c cp) = (v, endp) ->
  exists n,
    String c cp = (n ++ endp)%string /\ c_number n = Some v
    /\ string_forall piece_char n = true.
Proof.
  intros Hd. destruct (Ascii.eqb_spec c "0") as [-> | Hc0].
  - unfold strtoul.
    assert (Hoct : forall cp',
               strtoul_digits 8 0 (String "0" cp') = (v, endp) ->
               match cp' with
               | String x _ => Ascii.eqb x "x" || Ascii.eqb x "X"
               | EmptyString => false
               end = false ->
               exists n,
                 String "0" cp' = (n ++ endp)%string /\ c_number n = Some v
                 /\ string_forall piece_char n = true).
    { intros cp' H Hx. apply strtoul_digits_inv in H.
      destruct H as (ds & Heq & Hv & Hr).
      destruct ds as [|d0 ds'].
      - cbn [String.append] in Heq. subst endp. discriminate Hr.
      - cbn [String.append] in Heq. injection Heq as <- ->.
        exists (String "0" ds'). split; [reflexivity|].
        split; [|exact (numeral_value_piece 8 _ _ _ Hv)].
        unfold c_number. cbn [Ascii.eqb Bool.eqb andb].
        destruct ds' as [|y ds'']; [exact Hv|].
        cbn [String.append] in Hx. rewrite Hx. exact Hv. }
    assert (Hzero : forall x t',
               Ascii.eqb x "x" || Ascii.eqb x "X" = true ->
               strtoul_digits 8 0 (String "0" (String x t')) = (v, endp) ->
               exists n,
                 String "0" (String x t') = (n ++ endp)%string
                 /\ c_number n = Some v
                 /\ string_forall piece_char n = true).
    { intros x t' Hx H. destruct (x_piece_char x Hx) as [_ Hxd].
      cbn [strtoul_digits] in H.
      change (digit_val "0") with (Some 0) in H. cbn [Z.ltb Z.compare] in H.
      rewrite Hxd in H. injection H as <- <-.
      exists "0". repeat split. }
    destruct cp as [|x t']; [intros H; now apply (Hoct EmptyString)|].
    destruct (Ascii.eqb x "x" || Ascii.eqb x "X") eqn:Hx;
      [|intros H; now apply (Hoct (String x t'))].
    destruct t' as [|h t'']; [now apply Hzero|].
    destruct (is_xdigit h) eqn:Hh; [|now apply Hzero].
    intros H. apply strtoul_digits_inv in H.
    destruct H as (ds & Heq & Hv & Hr).
    destruct (x_piece_char x Hx) as [Hxp _].
    destruct ds as [|d0 ds'].
    + cbn [String.append] in Heq. subst endp. cbn [head_sat] in Hr.
      unfold below, is_xdigit in *.
      destruct (digit_val h) as [d|] eqn:Hdv; [|discriminate].
      apply digit_val_lt_16 in Hdv. apply Z.ltb_ge in Hr. lia.
    + exists (String "0" (String x (String d0 ds'))).
      split; [now rewrite Heq|].
      split.
      * unfold c_number. cbn [Ascii.eqb Bool.eqb andb is_empty].
        rewrite Hx. exact Hv.
      * cbn [string_forall]. rewrite Hxp.
        exact (numeral_value_piece 16 _ _ _ Hv).
  - assert (Hs : strtoul (String c cp) = strtoul_digits 10 0 (String c cp)).
    { clear -Hd Hc0.
      destruct c as [[] [] [] [] [] [] [] []]; try discriminate Hd;
        try reflexivity. congruence. }
    rewrite Hs. intros H. apply strtoul_digits_inv in H.
    destruct H as (ds & Heq & Hv & Hr).
    destruct ds as [|d0 ds'].
    + cbn [String.append] in Heq. subst endp. cbn [head_sat] in Hr.
      unfold below in Hr. clear -Hd Hr. exfalso.
      destruct c as [[] [] [] [] [] [] [] []]; discriminate.
    + cbn [String.append] in Heq. injection Heq as <- ->.
      exists (String c ds'). split; [reflexivity|].
      split; [|exact (numeral_value_piece 10 _ _ _ Hv)].
      unfold c_number. apply Ascii.eqb_neq in Hc0. now rewrite Hc0, Hd.
Qed.

(** The pieces before the last one, each followed by a dot, then the last
    one. *)
Fixpoint join_dots (pieces : list string) (last : string) : string :=
  match pieces with
  | [] => last
  | p :: ps => p ++ String "." (join_dots ps last)
  end.

Lemma join_join_dots (pieces : list string) (last : string) :
  join "." (pieces ++ [last]) = join_dots pieces last.
Proof.
  induction pieces as [|p ps IH]; [reflexivity|].
  change ((p :: ps) ++ [last])%list with (p :: (ps ++ [last]))%list.
  rewrite join_cons by (destruct ps; discriminate).
  rewrite IH. reflexivity.
Qed.

Lemma piece_char_inv (c : ascii) :
  piece_char c = true -> isspace c = false /\ Ascii.eqb c "." = false.
Proof.
  unfold piece_char. destruct (isspace c), (Ascii.eqb c "."); intuition.
Qed.

Lemma split_on_piece (p t : string) :
  string_forall piece_char p = true ->
  split_on "." (p ++ String "." t) = p :: split_on "." t.
Proof.
  induction p as [|c p IH]; cbn [string_forall String.append split_on].
  - reflexivity.
  - intros H. apply andb_prop in H. destruct H as [Hc Hp].
    destruct (piece_char_inv c Hc) as [_ ->]. now rewrite IH.
Qed.

Lemma split_on_last (p : string) :
  string_forall piece_char p = true -> split_on "." p = [p].
Proof.
  induction p as [|c p IH]; cbn [string_forall split_on].
  - reflexivity.
  - intros H. apply andb_prop in H. destruct H as [Hc Hp].
    destruct (piece_char_inv c Hc) as [_ ->]. now rewrite IH.
Qed.

Lemma split_on_join_dots (pieces : list string) (last : string) :
  forallb (string_forall piece_char) pieces = true ->
  string_forall piece_char last = true ->
  split_on "." (join_dots pieces last) = (pieces ++ [last])%list.
Proof.
  intros Hp Hl. induction pieces as [|p ps IH]; cbn [join_dots].
  - now apply split_on_last.
  - cbn [forallb] in Hp. apply andb_prop in Hp. destruct Hp as [H1 H2].
    rewrite split_on_piece by exact H1. now rewrite IH.
Qed.

Lemma join_dots_no_space (pieces : list string) (last : string) :
  forallb (string_forall piece_char) pieces = true ->
  string_forall piece_char last = true ->
  string_forall (fun c => negb (isspace c)) (join_dots pieces last) = true.
Proof.
  assert (Hi : forall s, string_forall piece_char s = true ->
                         string_forall (fun c => negb (isspace c)) s = true).
  { intros s. apply string_forall_impl. intros c Hc.
    destruct (piece_char_inv c Hc) as [-> _]. reflexivity. }
  intros Hp Hl. induction pieces as [|p ps IH]; cbn [join_dots].
  - now apply Hi.
  - cbn [forallb] in Hp. apply andb_prop in Hp. destruct Hp as [H1 H2].
    rewrite string_forall_app. cbn [string_forall].
    rewrite (Hi p H1), (IH H2). reflexivity.
Qed.

Lemma all_some_app {A : Type} (l1 l2 : list (option A)) :
  all_some (l1 ++ l2)
  = match all_some l1, all_some l2 with
    | Some a, Some b => Some (a ++ b)%list
    | _, _ => None
    end.
Proof.
  induction l1 as [|[a|] l1 IH]; cbn [all_some List.app].
  - destruct (all_some l2); reflexivity.
  - rewrite IH. destruct (all_some l1), (all_some l2); reflexivity.
  - reflexivity.
Qed.

Lemma all_some_length {A B : Type} (f : A -> option B) (l : list A) :
  forall vs, all_some (map f l) = Some vs -> List.length vs = List.length l.
Proof.
  induction l as [|a l IH]; cbn [map all_some]; intros vs.
  - intros H; injection H as <-. reflexivity.
  - destruct (f a); [|discriminate].
    destruct (all_some (map f l)) as [vs'|]; [|discriminate].
    intros H; injection H as <-. cbn [List.length]. now rewrite (IH vs').
Qed.

Lemma aton_in_range_cons (k v : Z) (l : list Z) :
  l <> [] ->
  aton_in_range k (v :: l) = (v <=? 255) && aton_in_range (k + 1) l.
Proof. destruct l; [congruence | reflexivity]. Qed.

Lemma aton_in_range_snoc (vs : list Z) :
  forall k v,
    aton_in_range k (vs ++ [v])
    = forallb (fun x => x <=? 255) vs
      && (v <? 2 ^ (8 * (4 - (k + Z.of_nat (List.length vs))))).
Proof.
  induction vs as [|x vs IH]; intros k v.
  - cbn [List.app aton_in_range forallb List.length andb].
    now rewrite Z.add_0_r.
  - change ((x :: vs) ++ [v])%list with (x :: (vs ++ [v]))%list.
    rewrite aton_in_range_cons by (destruct vs; discriminate).
    rewrite IH. cbn [forallb List.length]. rewrite Nat2Z.inj_succ.
    replace (k + 1 + Z.of_nat (List.length vs))
      with (k + Z.succ (Z.of_nat (List.length vs))) by lia.
    now rewrite andb_assoc.
Qed.

Lemma span_split (p : ascii -> bool) (s : string) :
  forall a b,
    span p s = (a, b) ->
    s = (a ++ b)%string /\ string_forall p a = true /\ head_sat p b = false.
Proof.
  induction s as [|c s IH]; intros a b; cbn [span].
  - intros H; injection H as <- <-. repeat split.
  - destruct (p c) eqn:Hc.
    + destruct (span p s) as [a' b'].
      intros H; injection H as <- <-.
      destruct (IH a' b' eq_refl) as (-> & Ha & Hb).
      cbn [String.append string_forall]. now rewrite Hc, Ha.
    + intros H; injection H as <- <-. cbn [head_sat]. now rewrite Hc.
Qed.

Lemma space_boundary (rest : string) :
  head_sat (fun c => negb (isspace c)) rest = false ->
  boundary rest = true
  /\ match rest with
     | String c _ => Ascii.eqb c "." = false /\ isspace c = true
     | EmptyString => True
     end.
Proof.
  destruct rest as [|c rest]; cbn [head_sat boundary]; [now split|].
  intros H. apply negb_false_iff in H. rewrite H, orb_true_r.
  repeat split.
  destruct (Ascii.eqb_spec c "."); [subst c; discriminate | reflexivity].
Qed.

Local Opaque strtoul.

(** One round of the loop of [inet_aton], with the test on the character
    after the number written out. *)
Lemma aton_loop_eq (dots : nat) (parts : list Z) (cp : string) :
  aton_loop dots parts cp
  = match cp with
    | EmptyString => None
    | String c _ =>
        if isdigit c then
          let '(val, endp) := strtoul cp in
          if 4294967295 <? val then None
          else
            match endp with
            | String d cp' =>
                if Ascii.eqb d "." then
                  match dots with
                  | O => None
                  | S dots' =>
                      if 255 <? val then None
                      else aton_loop dots' (parts ++ [val]) cp'
                  end
                else Some (parts, val, endp)
            | EmptyString => Some (parts, val, endp)
            end
        else None
    end.
Proof.
  destruct dots, cp as [|c cp]; try reflexivity; simpl;
    destruct (isdigit c); simpl; try reflexivity;
    destruct (strtoul (String c cp)) as [val endp];
    destruct (4294967295 <? val); try reflexivity;
    destruct endp as [|d endp]; try reflexivity;
    destruct d as [[] [] [] [] [] [] [] []]; reflexivity.
Qed.

(** What the loop accepts: numbers in C notation, each but the last at most
    255 and followed by a dot. *)
Lemma aton_loop_sound (dots : nat) :
  forall parts cp parts' val rest,
    aton_loop dots parts cp = Some (parts', val, rest) ->
    exists pieces vs last,
      cp = (join_dots pieces last ++ rest)%string
      /\ parts' = (parts ++ vs)%list
      /\ all_some (map c_number pieces) = Some vs
      /\ forallb (fun x => x <=? 255) vs = true
      /\ c_number last = Some val
      /\ forallb (string_forall piece_char) pieces = true
      /\ string_forall piece_char last = true
      /\ (List.length pieces <= dots)%nat
      /\ val <= 4294967295.
Proof.
  induction dots as [|dots IH]; intros parts cp parts' val rest;
    rewrite aton_loop_eq; destruct cp as [|c cp]; try discriminate;
    destruct (isdigit c) eqn:Hd; try discriminate;
    destruct (strtoul (String c cp)) as [v endp] eqn:Hs;
    destruct (Z.ltb_spec 4294967295 v) as [|Hv]; try discriminate;
    apply (strtoul_inv c cp v endp Hd) in Hs;
    destruct Hs as (n & Hcp & Hn & Hpc);
    (destruct endp as [|d endp]; [|destruct (Ascii.eqb d ".") eqn:Hdot]);
    try discriminate;
    try (intros H; injection H as <- <- <-;
         exists [], [], n; rewrite app_nil_r;
         repeat match goal with |- _ /\ _ => split end;
         auto; cbn [List.length]; lia).
  destruct (Z.ltb_spec 255 v) as [|Hv']; try discriminate.
  intros H. apply IH in H.
  destruct H as (pieces & vs & last & -> & -> & Hvs & Hle & Hl & Hps & Hlp
                 & Hlen & Hval).
  apply Ascii.eqb_eq in Hdot. subst d.
  exists (n :: pieces), (v :: vs), last.
  repeat match goal with |- _ /\ _ => split end; auto.
  - rewrite Hcp. cbn [join_dots]. rewrite <- append_assoc. reflexivity.
  - now rewrite <- app_assoc.
  - cbn [map all_some]. now rewrite Hn, Hvs.
  - cbn [forallb]. rewrite Hle, andb_true_r. now apply Z.leb_le.
  - cbn [forallb]. now rewrite Hpc, Hps.
  - cbn [List.length]. lia.
Qed.

(** The loop accepts every such string. *)
Lemma aton_loop_complete (pieces : list string) :
  forall vs dots parts last v rest,
    all_some (map c_number pieces) = Some vs ->
    forallb (fun x => x <=? 255) vs = true ->
    c_number last = Some v ->
    v <= 4294967295 ->
    (List.length pieces <= dots)%nat ->
    head_sat (fun c => negb (isspace c)) rest = false ->
    aton_loop dots parts (join_dots pieces last ++ rest)
    = Some ((parts ++ vs)%list, v, rest).
Proof.
  induction pieces as [|p ps IH];
    intros vs dots parts last v rest Hvs Hle Hl Hv Hlen Hr.
  - injection Hvs as <-. cbn [join_dots]. rewrite app_nil_r.
    destruct (space_boundary rest Hr) as [Hb Hsp].
    destruct (strtoul_c_number last rest v Hl Hb) as (Hst & _ & Hh).
    rewrite aton_loop_eq. destruct last as [|c l]; [discriminate|].
    cbn [head_sat] in Hh. cbn [String.append] in Hst |- *.
    rewrite Hh, Hst.
    destruct (Z.ltb_spec 4294967295 v); [lia|].
    destruct rest as [|d rest]; [reflexivity|].
    destruct Hsp as [-> _]. reflexivity.
  - cbn [map all_some] in Hvs.
    destruct (c_number p) as [x|] eqn:Hp; [|discriminate].
    destruct (all_some (map c_number ps)) as [vs'|] eqn:Hvs';
      [|discriminate].
    injection Hvs as <-. cbn [forallb] in Hle.
    apply andb_prop in Hle. destruct Hle as [Hx Hle].
    destruct dots as [|dots]; [cbn [List.length] in Hlen; lia|].
    cbn [join_dots]. rewrite <- append_assoc. cbn [String.append].
    destruct (strtoul_c_number p
                (String "." (join_dots ps last ++ rest)) x Hp eq_refl)
      as (Hst & _ & Hh).
    rewrite aton_loop_eq. destruct p as [|c l]; [discriminate|].
    cbn [head_sat] in Hh. cbn [String.append] in Hst |- *.
    rewrite Hh, Hst.
    apply Z.leb_le in Hx.
    destruct (Z.ltb_spec 4294967295 x); [lia|].
    cbn [Ascii.eqb Bool.eqb andb].
    destruct (Z.ltb_spec 255 x); [lia|].
    rewrite (IH vs' dots (parts ++ [x])%list last v rest); auto.
    + now rewrite <- app_assoc.
    + cbn [List.length] in Hlen. lia.
Qed.

Local Transparent strtoul.

Lemma aton_max_pow (n : nat) (v : Z) :
  (n <= 3)%nat ->
  (aton_max n <? v) = negb (v <? 2 ^ (8 * (4 - (0 + Z.of_nat n)))).
Proof.
  intros Hn. destruct n as [|[|[|[|n]]]]; try lia; unfold aton_max;
    match goal with
    | |- context [2 ^ ?e] =>
        let r := eval vm_compute in (2 ^ e) in change (2 ^ e) with r
    end;
    match goal with
    | |- (?a <? v) = negb (v <? ?b) =>
        destruct (Z.ltb_spec a v), (Z.ltb_spec v b)
    end; try reflexivity; lia.
Qed.

Lemma trailing_space (rest : string) :
  match rest with
  | EmptyString => true
  | String c _ => (ord c <? 128) && isspace c
  end
  = negb (head_sat (fun c => negb (isspace c)) rest).
Proof.
  destruct rest as [|c rest]; [reflexivity|]. cbn [head_sat].
  rewrite negb_involutive.
  destruct c as [[] [] [] [] [] [] [] []]; reflexivity.
Qed.

(** The strings [inet_aton] accepts are the address forms. *)
Lemma inet_aton_form (s : string) :
  is_aton_form s = true <-> exists b, inet_aton s = Some b.
Proof.
  split.
  - unfold is_aton_form, aton_head.
    destruct (span (fun c => negb (isspace c)) s) as [a rest] eqn:Hsp.
    apply span_split in Hsp. destruct Hsp as (-> & Ha & Hr). cbn [fst].
    destruct (exists_last (split_on_not_nil "." a)) as (pieces & last & Heq).
    pose proof (join_split_on "." a) as Hj.
    rewrite Heq in Hj |- *. rewrite join_join_dots in Hj. subst a.
    rewrite map_app, all_some_app.
    destruct (all_some (map c_number pieces)) as [vs|] eqn:Hvs;
      [|discriminate].
    cbn [map all_some].
    destruct (c_number last) as [v|] eqn:Hl; [|discriminate].
    cbn [option_map]. rewrite List.length_app, aton_in_range_snoc.
    pose proof (all_some_length _ _ _ Hvs) as Hlen.
    cbn [List.length]. intros H.
    apply andb_prop in H. destruct H as [H4 H].
    apply andb_prop in H. destruct H as [Hle Hv].
    apply Nat.leb_le in H4.
    assert (H3 : (List.length vs <= 3)%nat) by lia.
    unfold inet_aton.
    rewrite (aton_loop_complete pieces vs 3 [] last v rest); auto.
    + cbn [List.app].
      rewrite trailing_space, Hr, (aton_max_pow _ v H3), Hv.
      cbn [negb]. eauto.
    + apply Z.ltb_lt in Hv.
      assert (2 ^ (8 * (4 - (0 + Z.of_nat (List.length vs)))) <= 2 ^ 32)
        by (apply Z.pow_le_mono_r; lia).
      change (2 ^ 32) with 4294967296 in *. lia.
    + lia.
  - intros [b H]. unfold inet_aton in H.
    destruct (aton_loop 3 [] s) as [[[parts v] rest]|] eqn:Hloop;
      [|discriminate].
    rewrite trailing_space in H.
    destruct (head_sat (fun c => negb (isspace c)) rest) eqn:Hr;
      [discriminate|].
    cbn [negb] in H.
    destruct (aton_max (List.length parts) <? v) eqn:Hmax; [discriminate|].
    apply aton_loop_sound in Hloop.
    destruct Hloop as (pieces & vs & last & -> & -> & Hvs & Hle & Hl & Hps
                       & Hlp & Hlen & Hval).
    cbn [List.app] in Hmax.
    pose proof (all_some_length _ _ _ Hvs) as Hlv.
    rewrite aton_max_pow in Hmax by lia.
    apply negb_false_iff in Hmax.
    unfold is_aton_form, aton_head.
    rewrite span_app; [|now apply join_dots_no_space | exact Hr].
    cbn [fst]. rewrite split_on_join_dots by assumption.
    rewrite map_app, all_some_app, Hvs. cbn [map all_some]. rewrite Hl.
    cbn [option_map].
    rewrite List.length_app, aton_in_range_snoc, Hle, Hmax.
    cbn [List.length andb]. rewrite andb_true_r. apply Nat.leb_le. lia.
Qed.

Lemma inet_aton_not_form (s : string) :
  is_aton_form s = false <-> inet_aton s = None.
Proof.
  pose proof (inet_aton_form s) as [H1 H2].
  destruct (is_aton_form s), (inet_aton s) as [b|]; split; try reflexivity;
    intros H; try discriminate.
  - destruct (H1 eq_refl); discriminate.
  - assert (Hc : false = true) by (apply H2; eauto). discriminate.
Qed.

(** [iptoint] on a string without an embedded NUL: the address forms are
    read, everything else is [socket.error]. *)
Lemma iptoint_form (s : string) :
  has_nul s = false ->
  if is_aton_form s then exists v, iptoint s = Ok v /\ 0 <= v < 2 ^ 32
  else iptoint s = Raise SocketError.
Proof.
  intros Hn. destruct (is_aton_form s) eqn:Hf.
  - apply inet_aton_form in Hf. destruct Hf as [b Hb].
    destruct (inet_aton_octets s b Hb)
      as (b3 & b2 & b1 & b0 & -> & O3 & O2 & O1 & O0).
    eexists. split.
    + unfold iptoint, socket_inet_aton. rewrite Hn, Hb. reflexivity.
    + now apply unpack_octets_u32.
  - apply inet_aton_not_form in Hf.
    unfold iptoint, socket_inet_aton. now rewrite Hn, Hf.
Qed.

(** C4, amended: on a string without an embedded NUL, [iptoint] succeeds
    exactly on the forms of [inet_aton]: one to four numbers in C notation
    (decimal, octal after [0], hexadecimal after [0x]) separated by dots,
    each but the last at most 255 and the last within the bytes that are
    left, followed by the end of the string or by a whitespace character.
    The result is then a 32-bit value; every other such string fails with
    [socket.error].  The canonical four-octet strings are among the forms,
    and their first octet is the most significant byte of the result. *)
Theorem iptoint_forms (s : string) :
  has_nul s = false ->
  (is_aton_form s = true -> exists v, iptoint s = Ok v /\ 0 <= v < 2 ^ 32)
  /\ (is_aton_form s = false -> iptoint s = Raise SocketError)
  /\ (dotted_quad s = true ->
      is_aton_form s = true
      /\ exists b3 b2 b1 b0,
           octet b3 /\ octet b2 /\ octet b1 /\ octet b0
           /\ s = inet_ntoa [b3; b2; b1; b0]
           /\ iptoint s
              = Ok (Z.lor (Z.shiftl b3 24)
                      (Z.lor (Z.shiftl b2 16) (Z.lor (Z.shiftl b1 8) b0)))).
Proof.
  intros Hn. pose proof (iptoint_form s Hn) as Hf.
  split; [|split].
  - intros H. now rewrite H in Hf.
  - intros H. now rewrite H in Hf.
  - intros H. apply dotted_quad_inv in H.
    destruct H as (b3 & b2 & b1 & b0 & O3 & O2 & O1 & O0 & ->).
    assert (Hi : iptoint (inet_ntoa [b3; b2; b1; b0])
                 = Ok (Z.lor (Z.shiftl b3 24)
                         (Z.lor (Z.shiftl b2 16)
                            (Z.lor (Z.shiftl b1 8) b0)))).
    { unfold iptoint, socket_inet_aton.
      rewrite has_nul_ntoa, inet_aton_ntoa by assumption. reflexivity. }
    split.
    + destruct (is_aton_form (inet_ntoa [b3; b2; b1; b0]));
        [reflexivity | congruence].
    + exists b3, b2, b1, b0.
      repeat match goal with |- _ /\ _ => split end; auto.
Qed.

Lemma iptoint_forms_witness :
  has_nul "192.168.1.10" = false
  /\ is_aton_form "192.168.1.10" = true
  /\ is_aton_form "192.168.1" = true
  /\ is_aton_form "192.168.1.256" = false
  /\ dotted_quad "192.168.1.10" = true
  /\ (exists v, iptoint "192.168.1.10" = Ok v /\ 0 <= v < 2 ^ 32)
  /\ iptoint "192.168.1.256" = Raise SocketError.
Proof.
  do 5 (split; [reflexivity|]). split.
  - exact (proj1 (iptoint_forms "192.168.1.10" eq_refl) eq_refl).
  - exact (proj1 (proj2 (iptoint_forms "192.168.1.256" eq_refl)) eq_refl).
Defined.

Example is_aton_form_examples :
  is_aton_form "127.1" = true
  /\ is_aton_form "0x7f.0.0.1" = true
  /\ is_aton_form "010.0.0.1" = true
  /\ is_aton_form "1.2.3.4 and more" = true
  /\ is_aton_form "4294967295" = true
  /\ is_aton_form "" = false
  /\ is_aton_form "1.2.3.4.5" = false
  /\ is_aton_form "256.1.1.1" = false
  /\ is_aton_form "08.1.1.1" = false
  /\ is_aton_form "0x.1.1.1" = false
  /\ is_aton_form "1.2.3.x" = false
  /\ is_aton_form "1.2.3." = false
  /\ is_aton_form "1..2.3" = false
  /\ is_aton_form "1.2.3.4x" = false
  /\ is_aton_form "4294967296" = false
  /\ is_aton_form " 1.2.3.4" = false.
Proof. repeat split. Qed.

(** * Malformed [inet] lines in the textual enumerator *)

Lemma split_once_span (tok : string) :
  split_once "/" tok
  = match span (fun c => negb (Ascii.eqb c "/")) tok with
    | (a, EmptyString) => [a]
    | (a, String _ p) => [a; p]
    end.
Proof.
  induction tok as [|c tok IH]; cbn [split_once span]; [reflexivity|].
  destruct (Ascii.eqb c "/"); cbn [negb]; [reflexivity|].
  rewrite IH.
  destruct (span (fun c0 => negb (Ascii.eqb c0 "/")) tok) as [a [|d p]];
    reflexivity.
Qed.

Lemma string_exists_lstrip (q p : ascii -> bool) (s : string) :
  (forall c, q c = true -> p c = false) ->
  string_exists q (lstrip_by p s) = string_exists q s.
Proof.
  intros Hqp. induction s as [|c s IH]; cbn [lstrip_by string_exists];
    [reflexivity|].
  destruct (p c) eqn:Hp; [|reflexivity].
  rewrite IH. destruct (q c) eqn:Hq; [|reflexivity].
  rewrite (Hqp c Hq) in Hp. discriminate.
Qed.

Lemma string_exists_rstrip (q p : ascii -> bool) (s : string) :
  (forall c, q c = true -> p c = false) ->
  string_exists q (rstrip_by p s) = string_exists q s.
Proof.
  intros Hqp. induction s as [|c s IH]; cbn [rstrip_by string_exists];
    [reflexivity|].
  destruct (p c && is_empty (rstrip_by p s)) eqn:Hc;
    cbn [string_exists]; [|now rewrite IH].
  apply andb_prop in Hc. destruct Hc as [Hp He].
  rewrite <- IH.
  destruct (rstrip_by p s); [|discriminate]. cbn [string_exists].
  destruct (q c) eqn:Hq; [|reflexivity].
  rewrite (Hqp c Hq) in Hp. discriminate.
Qed.

Lemma not_int_char_facts (c : ascii) :
  not_int_char c = true ->
  isspace c = false /\ isdigit c = false
  /\ Ascii.eqb c "-" = false /\ Ascii.eqb c "+" = false.
Proof.
  destruct c as [[] [] [] [] [] [] [] []]; try discriminate; repeat split.
Qed.

Lemma digits_no_int_char (s : string) :
  string_forall isdigit s = true -> string_exists not_int_char s = false.
Proof.
  induction s as [|c s IH]; cbn [string_forall string_exists];
    [reflexivity|].
  intros H. apply andb_prop in H. destruct H as [Hc Hs].
  rewrite (IH Hs), orb_false_r.
  destruct (not_int_char c) eqn:Hn; [|reflexivity].
  destruct (not_int_char_facts c Hn) as (_ & Hd & _). congruence.
Qed.

(** [int(s)], with the test of the sign written out. *)
Lemma int_eq (s : string) :
  PyStr.int s
  = match
      match strip s with
      | String c t =>
          if Ascii.eqb c "-" then option_map Z.opp (unsigned_int t)
          else if Ascii.eqb c "+" then unsigned_int t
          else unsigned_int (String c t)
      | EmptyString => unsigned_int EmptyString
      end
    with
    | Some v => Ok v
    | None => Raise ValueError
    end.
Proof.
  unfold PyStr.int. destruct (strip s) as [|c t]; [reflexivity|].
  destruct c as [[] [] [] [] [] [] [] []]; reflexivity.
Qed.

Lemma unsigned_int_no_int_char (t : string) :
  string_exists not_int_char t = true -> unsigned_int t = None.
Proof.
  intros H. unfold unsigned_int. destruct (is_empty t); [reflexivity|].
  destruct (digits_value 0 t) as [n|] eqn:Hd; [|reflexivity].
  apply digits_value_forall, digits_no_int_char in Hd. congruence.
Qed.

(** A character that no integer literal has makes [int] fail. *)
Lemma int_no_int_char (p : string) :
  string_exists not_int_char p = true -> PyStr.int p = Raise ValueError.
Proof.
  intros H. rewrite int_eq.
  assert (Hs : string_exists not_int_char (strip p) = true).
  { unfold strip.
    rewrite string_exists_lstrip, string_exists_rstrip; [exact H| |];
      intros c Hc; now destruct (not_int_char_facts c Hc). }
  destruct (strip p) as [|c t]; [discriminate|].
  cbn [string_exists] in Hs.
  destruct (Ascii.eqb_spec c "-") as [-> | _];
    [|destruct (Ascii.eqb_spec c "+") as [-> | _]].
  - cbn [not_int_char orb] in Hs.
    now rewrite (unsigned_int_no_int_char t Hs).
  - now rewrite (unsigned_int_no_int_char t Hs).
  - now rewrite (unsigned_int_no_int_char (String c t) Hs).
Qed.

Lemma digit_val_decimal (c : ascii) (d : Z) :
  digit_val c = Some d -> (d <? 10) = true ->
  isdigit c = true /\ d = ord c - 48.
Proof.
  destruct c as [[] [] [] [] [] [] [] []]; try discriminate;
    intros H; injection H as <-; try discriminate; now split.
Qed.

(** A decimal numeral is what [int] reads digit by digit. *)
Lemma numeral_digits (t : string) :
  forall acc n,
    numeral_value 10 acc t = Some n ->
    digits_value acc t = Some n /\ string_forall isdigit t = true.
Proof.
  induction t as [|c t IH]; intros acc n;
    cbn [numeral_value digits_value string_forall].
  - intros H. now split.
  - destruct (digit_val c) as [d|] eqn:Hd; [|discriminate].
    destruct (d <? 10) eqn:Hlt; [|discriminate].
    destruct (digit_val_decimal c d Hd Hlt) as [Hc ->].
    rewrite Hc. intros H. now apply IH.
Qed.

Lemma digits_no_space (t : string) :
  string_forall isdigit t = true ->
  string_forall (fun c => negb (isspace c)) t = true.
Proof.
  apply string_forall_impl. intros c Hc.
  now destruct (digit_char_facts c Hc) as [-> _].
Qed.

(** A malformed prefix length: [int] fails, or the mask does. *)
Lemma malformed_prefix_raises (p : string) :
  malformed_prefix p = true ->
  PyStr.int p = Raise ValueError
  \/ exists n, PyStr.int p = Ok n /\ prefix_mask n = Raise ValueError.
Proof.
  unfold malformed_prefix. intros H.
  apply orb_prop in H. destruct H as [H | H];
    [apply orb_prop in H; destruct H as [H | H]|].
  - destruct p; [now left | discriminate].
  - left. now apply int_no_int_char.
  - right. unfold prefix_out_of_range in H.
    destruct p as [|c t]; [discriminate|].
    destruct (Ascii.eqb_spec c "-") as [-> | Hc].
    + apply andb_prop in H. destruct H as [H Hn].
      apply andb_prop in H. destruct H as [He _].
      destruct (numeral_value 10 0 t) as [n|] eqn:Hv; [|discriminate].
      apply numeral_digits in Hv. destruct Hv as [Hv Hd].
      exists (- n). split.
      * rewrite int_eq, strip_none
          by (cbn [string_forall]; now rewrite digits_no_space).
        cbn [Ascii.eqb Bool.eqb andb]. unfold unsigned_int.
        destruct (is_empty t); [discriminate|]. now rewrite Hv.
      * apply prefix_mask_out_of_range. apply Z.ltb_lt in Hn.
        destruct (Z.leb_spec 0 (- n)); [lia | reflexivity].
    + apply andb_prop in H. destruct H as [_ Hn].
      destruct (numeral_value 10 0 (String c t)) as [n|] eqn:Hv;
        [|discriminate].
      apply numeral_digits in Hv. destruct Hv as [Hv Hd].
      exists n. split.
      * apply int_digits; [discriminate | exact Hv].
      * apply prefix_mask_out_of_range. apply Z.ltb_lt in Hn.
        destruct (Z.leb_spec n 32); [lia | now rewrite andb_false_r].
Qed.

(** A malformed [inet] line raises one of the exceptions of a malformed
    token, whatever the target and the current interface. *)
Lemma iproute_line_malformed (pool : Z) (iface : option string) (l : string) :
  malformed_inet_line l = true ->
  exists e, iproute_line pool iface l = Raise e /\ malformed_output_error e.
Proof.
  unfold malformed_inet_line, iproute_line, malformed_output_error.
  destruct (PyStr.split l) as [|item0 [|tok items]]; try discriminate.
  intros H. apply andb_prop in H. destruct H as [H0 Ht].
  apply String.eqb_eq in H0. subst item0.
  rewrite endswith_inet. cbn [String.eqb Ascii.eqb Bool.eqb andb nth_error].
  unfold malformed_token in Ht. rewrite split_once_span.
  destruct (span (fun c => negb (Ascii.eqb c "/")) tok) as [a [|d p]];
    [eauto|].
  destruct (malformed_address a) eqn:Ha.
  - unfold malformed_address in Ha. apply andb_prop in Ha.
    destruct Ha as [Hn Hf]. apply negb_true_iff in Hn, Hf.
    pose proof (iptoint_form a Hn) as Hi. rewrite Hf in Hi.
    rewrite Hi. cbn [bind]. eauto.
  - cbn [orb] in Ht. pose proof (iptoint_failure a) as Hi.
    destruct (iptoint a) as [addr|e]; cbn [bind];
      [|exists e; split; [reflexivity | tauto]].
    destruct (malformed_prefix_raises p Ht) as [Hp | (n & Hp & Hm)];
      rewrite Hp; cbn [bind]; [eauto|].
    rewrite Hm. cbn [bind]. eauto.
Qed.

Definition malformed_then_eth0 : string :=
  "2: eth0: <BROADCAST,MULTICAST,UP,LOWER_UP> mtu 1500
    inet 192.168.1.11/xx scope global secondary eth0
    inet 192.168.1.10/24 brd 192.168.1.255 scope global eth0
".

(** C3, amended: take an output of plain text and a line of it that starts
    with [inet] and whose second token is malformed: it has no slash, or
    what stands before the first slash has no embedded NUL and is not an
    address form of [inet_aton], or what stands after it is empty, or has a
    visible ASCII character other than a digit, a sign and an underscore,
    or is a decimal numeral of at most six digits, possibly after a minus
    sign, with a value outside [[0, 32]].  When the lines before it neither
    return nor raise, the call raises [ValueError], [socket.error] or
    [TypeError], whatever follows the line: a matching stanza later in the
    output does not rescue the call.  When one of the lines before it
    matches the target, the call returns the record of that line: the
    malformed line is never read. *)
Theorem textual_malformed_inet (output address : string) (pool : Z)
  (pre post : list string) (l : string) :
  iptoint address = Ok pool ->
  string_forall plain_char output = true ->
  iplines_of output = (pre ++ l :: post)%list ->
  malformed_inet_line l = true ->
  match iproute_loop pool None pre with
  | Ok None =>
      exists e,
        _iproute_get_iface_config (Ok output) address = Raise e
        /\ malformed_output_error e
  | Ok (Some r) => _iproute_get_iface_config (Ok output) address = Ok (Some r)
  | Raise _ => True
  end.
Proof.
  intros Hp _ Hl Hm. unfold _iproute_get_iface_config.
  rewrite Hp. cbn [bind]. rewrite Hl, iproute_loop_app.
  destruct (iproute_loop pool None pre) as [[r|]|e]; try reflexivity;
    try exact I.
  destruct (iproute_line_malformed pool (iface_after pool None pre) l Hm)
    as (e & He & Hk).
  exists e. split; [|exact Hk].
  cbn [iproute_loop]. rewrite He. reflexivity.
Qed.

Lemma textual_malformed_inet_witness :
  iptoint "192.168.1.50" = Ok 3232235826
  /\ string_forall plain_char malformed_then_eth0 = true
  /\ malformed_inet_line "inet 192.168.1.11/xx scope global secondary eth0"
     = true
  /\ exists e,
       _iproute_get_iface_config (Ok malformed_then_eth0) "192.168.1.50"
       = Raise e
       /\ malformed_output_error e.
Proof.
  split; [reflexivity|]. split; [reflexivity|]. split; [reflexivity|].
  exact (textual_malformed_inet malformed_then_eth0 "192.168.1.50" 3232235826
           ["2: eth0: <BROADCAST,MULTICAST,UP,LOWER_UP> mtu 1500"]
           ["inet 192.168.1.10/24 brd 192.168.1.255 scope global eth0"]
           "inet 192.168.1.11/xx scope global secondary eth0"
           eq_refl eq_refl eq_refl eq_refl).
Defined.

Example textual_match_earlier :
  _iproute_get_iface_config (Ok eth0_then_malformed) "192.168.1.50"
  = Ok (Some (mk_config (Some "eth0") "192.168.1.10" "192.168.1.0"
                "255.255.255.0")).
Proof. reflexivity. Qed.

Example textual_malformed_earlier :
  _iproute_get_iface_config (Ok malformed_then_eth0) "192.168.1.50"
  = Raise ValueError.
Proof. reflexivity. Qed.

Example malformed_inet_line_examples :
  malformed_inet_line "inet 10.0.0.1" = true
  /\ malformed_inet_line "inet 10.0.0.256/8" = true
  /\ malformed_inet_line "inet 10.0.0.1.2/8" = true
  /\ malformed_inet_line "inet ten/8" = true
  /\ malformed_inet_line "inet 10.0.0.1/" = true
  /\ malformed_inet_line "inet 10.0.0.1/8/9" = true
  /\ malformed_inet_line "inet 10.0.0.1/33" = true
  /\ malformed_inet_line "inet 10.0.0.1/-1" = true
  /\ malformed_inet_line "inet 10.0.0.1/8" = false
  /\ malformed_inet_line "inet 127.1/8" = false
  /\ malformed_inet_line "inet 10.0.0.1/2_4" = false
  /\ malformed_inet_line "inet 10.0.0.1/1000000000000000000000000000000"
     = false
  /\ malformed_inet_line "inet6 fe80::1/64 scope link" = false.
Proof. repeat split. Qed.
